(** * Rehabify front end: submission flow, report view and formatters

    A shallow embedding of the TypeScript sources

      - [frontend/src/utils/formatters.ts]   (label, currency and condition helpers)
      - [frontend/src/services/api.ts]       ([analyzeProperty])
      - [frontend/src/app/page.tsx]          ([Home.handleSubmit], the [Report] views)
      - [frontend/src/components/ui]         ([cn] and the class of [Card], [CardBody],
                                              [Input] and [Button])

    together with the fragment of the JavaScript run time they call
    (strings, numbers, truthiness, [JSON], [sessionStorage],
    [Intl.NumberFormat]).

    Conventions of the embedding.
      - A JavaScript string is a [string]: the bytes of its characters in
        UTF-8 (a surrogate that stands alone, on three bytes).  White
        space is all of the white space of the language.  Upper case is
        that of the ASCII letters: where the code puts a character in
        upper case, the statements are about strings in which that
        character is in ASCII.
      - A JavaScript number is a [number]: a rational, an infinity or NaN.
        Every finite double is a rational and the comparisons of doubles
        are those of the rationals they denote.  Negative zero is identified
        with zero.  A number of a JSON text is the decimal written; the
        statements that depend on the double it becomes are about texts
        whose numbers are doubles as written ([Json.plain]).
      - An optional field or parameter ([x?: T]) is an [option]; JSON [null]
        reads as [None] as well, both being falsy and absent for the code.
      - The DOM, the network and the session store are components of an
        explicit [World]; the asynchronous handler is a function of the
        outcome of its single [fetch]. *)

From Stdlib Require Import QArith Qabs ZArith String Ascii List Bool Lia.
From Stdlib Require Import DecimalString DecimalNat DecimalN.
From stdpp Require Import gmap strings list.

Local Open Scope string_scope.

(* ===================================================================== *)
(** * The JavaScript run time used by the sources                         *)
(* ===================================================================== *)

Module JS.

(** ** Numbers *)

(** [Infinity true] is [-Infinity]. *)
Inductive number : Type :=
| NaN
| Infinity (negative : bool)
| Fin (q : Q).

(** [ToBoolean] on a number: [0] and [NaN] are falsy. *)
Definition truthy_number (n : number) : bool :=
  match n with
  | NaN => false
  | Infinity _ => true
  | Fin q => negb (Qeq_bool q 0)
  end.

(** [a < b]; any comparison with [NaN] is [false]. *)
Definition lt (a b : number) : bool :=
  match a, b with
  | NaN, _ | _, NaN => false
  | Infinity na, Infinity nb => na && negb nb
  | Infinity na, Fin _ => na
  | Fin _, Infinity nb => negb nb
  | Fin x, Fin y => negb (Qle_bool y x)
  end.

Definition gt (a b : number) : bool := lt b a.

(** [a >= b] is [!(a < b)] unless an operand is [NaN]. *)
Definition ge (a b : number) : bool :=
  match a, b with
  | NaN, _ | _, NaN => false
  | _, _ => negb (lt a b)
  end.

Definition is_negative (q : Q) : bool := negb (Qle_bool 0 q).

(** [a / b]. *)
Definition div (a b : number) : number :=
  match a, b with
  | NaN, _ | _, NaN => NaN
  | Infinity _, Infinity _ => NaN
  | Infinity na, Fin y => Infinity (xorb na (is_negative y))
  | Fin _, Infinity _ => Fin 0
  | Fin x, Fin y =>
      if Qeq_bool y 0 then
        if Qeq_bool x 0 then NaN else Infinity (is_negative x)
      else Fin (x / y)
  end.

(** Optional values: [ToBoolean] and [ToNumber] of a possibly undefined
    number, and of a possibly undefined string. *)
Definition truthy (v : option number) : bool :=
  match v with
  | None => false
  | Some n => truthy_number n
  end.

Definition ToNumber (v : option number) : number :=
  match v with
  | None => NaN
  | Some n => n
  end.

Definition truthy_bool (v : option bool) : bool :=
  match v with
  | Some b => b
  | None => false
  end.


(** [a || b] on optional numbers. *)
Definition or_else (a b : option number) : option number :=
  if truthy a then a else b.

(** ** Strings *)

Definition is_lower (c : ascii) : bool :=
  (97 <=? nat_of_ascii c)%nat && (nat_of_ascii c <=? 122)%nat.

Definition upper_char (c : ascii) : ascii :=
  if is_lower c then ascii_of_nat (nat_of_ascii c - 32) else c.

Definition is_upper (c : ascii) : bool :=
  (65 <=? nat_of_ascii c)%nat && (nat_of_ascii c <=? 90)%nat.

Definition lower_char (c : ascii) : ascii :=
  if is_upper c then ascii_of_nat (nat_of_ascii c + 32) else c.

(** [String.prototype.toUpperCase] and [toLowerCase], on strings whose
    letters are in ASCII: a byte of another character is left as it is,
    where the run time maps the letters beyond ASCII too. *)
Fixpoint toUpperCase (s : string) : string :=
  match s with
  | EmptyString => EmptyString
  | String c r => String (upper_char c) (toUpperCase r)
  end.

Fixpoint toLowerCase (s : string) : string :=
  match s with
  | EmptyString => EmptyString
  | String c r => String (lower_char c) (toLowerCase r)
  end.

(** [s.charAt(i)]: the one-character string at [i], or the empty string out
    of range. *)
Fixpoint charAt (i : nat) (s : string) : string :=
  match s, i with
  | EmptyString, _ => EmptyString
  | String c _, O => String c EmptyString
  | String _ r, S j => charAt j r
  end.

(** [s.slice(i)] for a non-negative [i]: the suffix from index [i]. *)
Fixpoint slice (i : nat) (s : string) : string :=
  match i, s with
  | O, _ => s
  | S _, EmptyString => EmptyString
  | S j, String _ r => slice j r
  end.

(** [s.split(sep)] for a one-character separator: the maximal runs between
    occurrences of [sep]; never the empty array. *)
Fixpoint split (sep : ascii) (s : string) : list string :=
  match s with
  | EmptyString => [EmptyString]
  | String c r =>
      if Ascii.eqb c sep then EmptyString :: split sep r
      else match split sep r with
           | [] => [String c EmptyString]
           | w :: ws => String c w :: ws
           end
  end.

(** [words.join(sep)]. *)
Fixpoint join (sep : string) (words : list string) : string :=
  match words with
  | [] => EmptyString
  | [w] => w
  | w :: ws => w ++ sep ++ join sep ws
  end.

(** ** Characters outside ASCII *)

(** The bytes of the code point [cp] in UTF-8.  A surrogate that stands
    alone in a string, which JavaScript allows, is carried as the other
    code points of its range are, on three bytes. *)
Definition utf8 (cp : N) : list ascii :=
  if (cp <? 128)%N then [ascii_of_N cp]
  else if (cp <? 2048)%N then
    [ascii_of_N (192 + cp / 64); ascii_of_N (128 + cp mod 64)]
  else if (cp <? 65536)%N then
    [ascii_of_N (224 + cp / 4096); ascii_of_N (128 + (cp / 64) mod 64);
     ascii_of_N (128 + cp mod 64)]
  else
    [ascii_of_N (240 + cp / 262144); ascii_of_N (128 + (cp / 4096) mod 64);
     ascii_of_N (128 + (cp / 64) mod 64); ascii_of_N (128 + cp mod 64)].

(** The code points [trim] removes (ECMA-262, WhiteSpace and
    LineTerminator): TAB, LF, VT, FF, CR, SPACE, NO-BREAK SPACE, the other
    space separators U+1680, U+2000 to U+200A, U+202F, U+205F and U+3000,
    the separators U+2028 and U+2029, and U+FEFF. *)
Definition white_space_code_points : list N :=
  [9; 10; 11; 12; 13; 32; 160; 5760;
   8192; 8193; 8194; 8195; 8196; 8197; 8198; 8199; 8200; 8201; 8202;
   8232; 8233; 8239; 8287; 12288; 65279]%N.

Definition white_space : list (list ascii) := map utf8 white_space_code_points.

(** [t] without its prefix [p], if it starts with [p]. *)
Fixpoint drop_prefix (p t : list ascii) : option (list ascii) :=
  match p, t with
  | [], _ => Some t
  | a :: p', b :: t' => if Ascii.eqb a b then drop_prefix p' t' else None
  | _ :: _, [] => None
  end.

(** [t] without the first entry of [table] it starts with. *)
Fixpoint drop_first (table : list (list ascii)) (t : list ascii) : option (list ascii) :=
  match table with
  | [] => None
  | w :: table' =>
      match drop_prefix w t with
      | Some r => Some r
      | None => drop_first table' t
      end
  end.

(** Drops entries of [table] from the front of [t] as long as there is
    one; [fuel] bounds the number of entries dropped. *)
Fixpoint drop_all (fuel : nat) (table : list (list ascii)) (t : list ascii) : list ascii :=
  match fuel with
  | O => t
  | S fuel' =>
      match drop_first table t with
      | Some r => drop_all fuel' table r
      | None => t
      end
  end.

(** [s.trimStart()], [s.trimEnd()]: the leading, the trailing white space
    is dropped, one character after the other; the trailing one is the
    leading one of the string read backwards. *)
Definition trimStart (s : string) : string :=
  let t := list_ascii_of_string s in
  string_of_list_ascii (drop_all (length t) white_space t).

Definition trimEnd (s : string) : string :=
  let t := rev (list_ascii_of_string s) in
  string_of_list_ascii (rev (drop_all (length t) (map (@rev ascii) white_space) t)).

(** [s.trim()]. *)
Definition trim (s : string) : string := trimEnd (trimStart s).

(** ToBoolean on a string: only the empty string is falsy. *)
Definition nonempty (s : string) : bool :=
  match s with EmptyString => false | _ => true end.

(** Template interpolation [${n}] of a non-negative integer. *)
Definition nat_to_string (n : nat) : string :=
  NilEmpty.string_of_uint (Nat.to_uint n).

End JS.

(* ===================================================================== *)
(** * [Intl.NumberFormat], as far as [formatCurrency] uses it             *)
(* ===================================================================== *)

Module Intl.
Import JS.

(** The locale data the formatter reads (CLDR): the grouping separator,
    the least number of digits before the first separator for grouping to
    apply, and what is printed around the number for a currency. *)
Record LocaleData : Type := {
  group_separator : string;
  minimum_grouping_digits : nat;
  currency_prefix : string;
  currency_suffix : string;
  nan_symbol : string;
  infinity_symbol : string
}.

(** U+00A0 NO-BREAK SPACE and U+20AC EURO SIGN, in UTF-8. *)
Definition nbsp : string :=
  String (ascii_of_nat 194) (String (ascii_of_nat 160) EmptyString).
Definition euro : string :=
  String (ascii_of_nat 226) (String (ascii_of_nat 130)
    (String (ascii_of_nat 172) EmptyString)).
Definition infinity_sign : string :=
  String (ascii_of_nat 226) (String (ascii_of_nat 136)
    (String (ascii_of_nat 158) EmptyString)).

(** [pt-PT] with currency [EUR]: number, space, currency sign; groups separated by
    a no-break space and only from five integer digits on. *)
Definition pt_PT_EUR : LocaleData := {|
  group_separator := nbsp;
  minimum_grouping_digits := 2;
  currency_prefix := EmptyString;
  currency_suffix := nbsp ++ euro;
  nan_symbol := "NaN";
  infinity_symbol := infinity_sign
|}.

(** Rounding mode [halfExpand] (the default) to zero fraction digits, on
    the magnitude: ties go away from zero. *)
Definition round_half_expand (q : Q) : N :=
  let a := Qabs q in
  Z.to_N ((2 * Qnum a + Z.pos (Qden a)) / (2 * Z.pos (Qden a))).

Definition digits_of_N (n : N) : string :=
  NilEmpty.string_of_uint (N.to_uint n).

(** Inserts [sep] so that, counting from the right, every group has three
    digits: a separator follows a digit when a positive multiple of three
    digits remains after it. *)
Fixpoint group_from (sep : string) (s : string) : string :=
  match s with
  | EmptyString => EmptyString
  | String c r =>
      let k := String.length r in
      if ((k mod 3 =? 0) && negb (k =? 0))%nat
      then String c (sep ++ group_from sep r)
      else String c (group_from sep r)
  end.

Definition group (loc : LocaleData) (digits : string) : string :=
  if (3 + minimum_grouping_digits loc <=? String.length digits)%nat
  then group_from (group_separator loc) digits
  else digits.

(** [new Intl.NumberFormat(locale, {style: "currency", currency,
    minimumFractionDigits: 0, maximumFractionDigits: 0}).format(x)].  The
    sign is that of [x] before rounding. *)
Definition format_currency0 (loc : LocaleData) (x : number) : string :=
  match x with
  | NaN => currency_prefix loc ++ nan_symbol loc ++ currency_suffix loc
  | Infinity neg =>
      (if neg then "-" else EmptyString) ++
      currency_prefix loc ++ infinity_symbol loc ++ currency_suffix loc
  | Fin q =>
      (if is_negative q then "-" else EmptyString) ++
      currency_prefix loc ++
      group loc (digits_of_N (round_half_expand q)) ++
      currency_suffix loc
  end.

End Intl.

(* ===================================================================== *)
(** * [utils/formatters.ts]                                              *)
(* ===================================================================== *)

Module Formatters.
Import JS.

Definition formatCurrency (amount : number) : string :=
  Intl.format_currency0 Intl.pt_PT_EUR amount.

Definition formatRoomType (roomType : string) : string :=
  join " "
    (map (fun word => toUpperCase (charAt 0 word) ++ slice 1 word)
         (split "_" roomType)).

Definition formatCategoryName (category : string) : string :=
  join " "
    (map (fun word => toUpperCase (charAt 0 word) ++ slice 1 word)
         (split "_" category)).

Definition getConditionColor (condition : option number) : string :=
  if negb (truthy condition) then "text-gray-500"
  else if ge (ToNumber condition) (Fin 3.5) then "text-green-600"
  else if ge (ToNumber condition) (Fin 2.5) then "text-yellow-600"
  else "text-red-600".

Definition getConditionLabel (condition : option number) : string :=
  if negb (truthy condition) then "N/A"
  else if ge (ToNumber condition) (Fin 3.5) then "Excellent"
  else if ge (ToNumber condition) (Fin 2.5) then "Good"
  else if ge (ToNumber condition) (Fin 1.5) then "Fair"
  else "Poor".

End Formatters.


(* ===================================================================== *)
(** * [JSON.parse] and [JSON.stringify]                                  *)
(* ===================================================================== *)

(** JSON texts: the grammar, every escape of a string, the order in which
    an object lists its keys, and numbers as the decimals written.  The
    model agrees with the run time on every text whose number literals a
    double represents exactly enough to print them back ([plain]: at most
    15 significant digits, magnitude within the range of the doubles). *)
Module Json.

Local Open Scope list_scope.

Definition text : Type := list ascii.

(** The number a literal denotes, in the form [Number::toString] computes:
    zero, or [+/- 0.d1...dk * 10^point] with [d1] and [dk] other than the
    digit zero.  It is the exact decimal; see [plain] for the literals of
    which the double of the run time is no other number. *)
Inductive jnumber : Type :=
| JZero
| JDec (negative : bool) (digits : text) (point : Z).

#[local] Unset Elimination Schemes.
Inductive value : Type :=
| Null
| Bool (b : bool)
| Num (n : jnumber)
| Str (s : string)
| Arr (items : list value)
| Obj (members : list (string * value)).
#[local] Set Elimination Schemes.

(** ** Numbers *)

Definition is_digit (c : ascii) : bool :=
  (48 <=? nat_of_ascii c)%nat && (nat_of_ascii c <=? 57)%nat.

Definition is_zero_digit (c : ascii) : bool := Ascii.eqb c "0".

Fixpoint span_digits (t : text) : text * text :=
  match t with
  | c :: r =>
      if is_digit c then let '(ds, rest) := span_digits r in (c :: ds, rest)
      else ([], t)
  | [] => ([], [])
  end.

Fixpoint strip_leading_zeros (t : text) : text :=
  match t with
  | c :: r => if is_zero_digit c then strip_leading_zeros r else t
  | [] => []
  end.

Fixpoint strip_trailing_zeros (t : text) : text :=
  match t with
  | c :: r =>
      match strip_trailing_zeros r with
      | [] => if is_zero_digit c then [] else [c]
      | r' => c :: r'
      end
  | [] => []
  end.

Definition digits_of_N (n : N) : text :=
  list_ascii_of_string (NilEmpty.string_of_uint (N.to_uint n)).

Definition N_of_digits (ds : text) : N :=
  match NilEmpty.uint_of_string (string_of_list_ascii ds) with
  | Some u => N.of_uint u
  | None => 0
  end.

Definition canonical (ds : text) : bool :=
  forallb is_digit ds
  && match ds with c :: _ => negb (is_zero_digit c) | [] => false end
  && match rev ds with c :: _ => negb (is_zero_digit c) | [] => false end.

Definition print_exponent (e : Z) : text :=
  (if (0 <=? e)%Z then "+" else "-")%char :: digits_of_N (Z.abs_N e).

(** [Number::toString] from the digits and the position of the point. *)
Definition print_digits (ds : text) (n : Z) : text :=
  let k := Z.of_nat (length ds) in
  if ((k <=? n) && (n <=? 21))%Z then
    ds ++ repeat "0"%char (Z.to_nat (n - k))
  else if ((0 <? n) && (n <=? 21))%Z then
    take (Z.to_nat n) ds ++ "."%char :: drop (Z.to_nat n) ds
  else if ((-6 <? n) && (n <=? 0))%Z then
    "0"%char :: "."%char :: repeat "0"%char (Z.to_nat (- n)) ++ ds
  else
    match ds with
    | [] => []
    | [d] => d :: "e"%char :: print_exponent (n - 1)
    | d :: rest => d :: "."%char :: rest ++ "e"%char :: print_exponent (n - 1)
    end.

Definition print_number (x : jnumber) : text :=
  match x with
  | JZero => ["0"%char]
  | JDec negative ds n =>
      (if negative then ["-"%char] else []) ++ print_digits ds n
  end.

(** A non-empty run of digits. *)
Definition digits1 (t : text) : option (text * text) :=
  match span_digits t with
  | ([], _) => None
  | p => Some p
  end.

(** The integer part: a single zero, or digits not starting with zero. *)
Definition parse_int_part (t : text) : option (text * text) :=
  match t with
  | c :: r => if Ascii.eqb c "0" then Some ([c], r) else digits1 t
  | [] => None
  end.

Definition parse_frac_part (t : text) : option (text * text) :=
  match t with
  | c :: r => if Ascii.eqb c "." then digits1 r else Some ([], t)
  | [] => Some ([], t)
  end.

Definition parse_exp_digits (negative : bool) (t : text) : option (Z * text) :=
  match digits1 t with
  | Some (ds, rest) =>
      let e := Z.of_N (N_of_digits ds) in
      Some ((if negative then - e else e)%Z, rest)
  | None => None
  end.

Definition parse_exp_sign (t : text) : option (Z * text) :=
  match t with
  | c :: r =>
      if Ascii.eqb c "-" then parse_exp_digits true r
      else if Ascii.eqb c "+" then parse_exp_digits false r
      else parse_exp_digits false t
  | [] => None
  end.

Definition parse_exp_part (t : text) : option (Z * text) :=
  match t with
  | c :: r =>
      if Ascii.eqb c "e" || Ascii.eqb c "E" then parse_exp_sign r
      else Some (0%Z, t)
  | [] => Some (0%Z, t)
  end.

(** The value of the literal with digits [ds] and the point after the
    first [point] of them, in scientific form. *)
Definition normalise (negative : bool) (ds : text) (point : Z) : jnumber :=
  let ds1 := strip_leading_zeros ds in
  match strip_trailing_zeros ds1 with
  | [] => JZero
  | ds2 => JDec negative ds2 (point - Z.of_nat (length ds - length ds1))
  end.

Definition parse_unsigned (negative : bool) (t : text) : option (jnumber * text) :=
  match parse_int_part t with
  | Some (ip, t1) =>
      match parse_frac_part t1 with
      | Some (fp, t2) =>
          match parse_exp_part t2 with
          | Some (e, t3) =>
              Some (normalise negative (ip ++ fp) (Z.of_nat (length ip) + e), t3)
          | None => None
          end
      | None => None
      end
  | None => None
  end.

Definition parse_number (t : text) : option (jnumber * text) :=
  match t with
  | c :: r => if Ascii.eqb c "-" then parse_unsigned true r else parse_unsigned false t
  | [] => None
  end.

(** The number denoted, as the run time computes with it. *)
Definition to_number (x : jnumber) : JS.number :=
  match x with
  | JZero => JS.Fin 0
  | JDec negative ds n =>
      let m := inject_Z (Z.of_N (N_of_digits ds)) in
      let v := (m * Qpower 10 (n - Z.of_nat (length ds)))%Q in
      JS.Fin (if negative then Qopp v else v)
  end.

(** ** Strings *)

(** The quotation mark. *)
Definition dquote : ascii := ascii_of_nat 34.

Definition hex_digit (n : nat) : ascii :=
  nth n (list_ascii_of_string "0123456789abcdef") "0"%char.

Definition hex_value (c : ascii) : option nat :=
  let n := nat_of_ascii c in
  if is_digit c then Some (n - 48)%nat
  else if ((97 <=? n) && (n <=? 102))%nat then Some (n - 87)%nat
  else if ((65 <=? n) && (n <=? 70))%nat then Some (n - 55)%nat
  else None.

(** The code unit four hexadecimal digits spell. *)
Definition hex4 (a b c d : ascii) : option N :=
  match hex_value a, hex_value b, hex_value c, hex_value d with
  | Some x, Some y, Some z, Some w =>
      Some (((N.of_nat x * 16 + N.of_nat y) * 16 + N.of_nat z) * 16 + N.of_nat w)%N
  | _, _, _, _ => None
  end.

(** The surrogates: code units from D800 to DBFF (high) and from DC00 to
    DFFF (low).  A high one followed by a low one is one character, of
    code point 10000 (hexadecimal) or more. *)
Definition is_high_surrogate (u : N) : bool := (55296 <=? u)%N && (u <? 56320)%N.

Definition is_low_surrogate (u : N) : bool := (56320 <=? u)%N && (u <? 57344)%N.

Definition surrogate_pair (high low : N) : N :=
  (65536 + (high - 55296) * 1024 + (low - 56320))%N.

(** The code unit of a surrogate that stands alone, from the three bytes
    that carry it: ED, a byte from A0 to BF and a byte from 80 to BF. *)
Definition surrogate_bytes (b1 b2 b3 : ascii) : option N :=
  let n2 := N_of_ascii b2 in
  let n3 := N_of_ascii b3 in
  if (N_of_ascii b1 =? 237)%N && (160 <=? n2)%N && (n2 <=? 191)%N
     && (128 <=? n3)%N && (n3 <=? 191)%N
  then Some (55296 + (n2 - 160) * 64 + (n3 - 128))%N
  else None.

Definition low_surrogate_head (s : string) : bool :=
  match s with
  | String b1 (String b2 (String b3 _)) =>
      match surrogate_bytes b1 b2 b3 with
      | Some u => is_low_surrogate u
      | None => false
      end
  | _ => false
  end.

(** [UnicodeEscape]: a backslash, [u] and four hexadecimal digits in lower
    case. *)
Definition unicode_escape (u : N) : text :=
  ["\"; "u"]%char
  ++ map (fun d => hex_digit (N.to_nat d))
         [u / 4096; (u / 256) mod 16; (u / 16) mod 16; u mod 16]%N.

(** [QuoteJSONString] on one character. *)
Definition escape_char (c : ascii) : text :=
  let n := nat_of_ascii c in
  if (n =? 34)%nat then ["\"%char; dquote]
  else if (n =? 92)%nat then ["\"; "\"]%char
  else if (n =? 8)%nat then ["\"; "b"]%char
  else if (n =? 9)%nat then ["\"; "t"]%char
  else if (n =? 10)%nat then ["\"; "n"]%char
  else if (n =? 12)%nat then ["\"; "f"]%char
  else if (n =? 13)%nat then ["\"; "r"]%char
  else if (n <? 32)%nat then
    ["\"; "u"; "0"; "0"]%char ++ [hex_digit (n / 16); hex_digit (n mod 16)]
  else [c].

(** [QuoteJSONString] on the characters of a string: a surrogate that
    stands alone is escaped, every other character outside ASCII is
    copied.  (A high surrogate directly followed by a low one is no
    content of a string, the two being one character, carried on four
    bytes; such bytes are copied.) *)
Fixpoint quote_body (s : string) : text :=
  match s with
  | EmptyString => []
  | String c r =>
      match r with
      | String c2 (String c3 r') =>
          match surrogate_bytes c c2 c3 with
          | Some u =>
              if is_high_surrogate u && low_surrogate_head r'
              then c :: quote_body r
              else unicode_escape u ++ quote_body r'
          | None => escape_char c ++ quote_body r
          end
      | _ => escape_char c ++ quote_body r
      end
  end.

Definition quote (s : string) : text :=
  dquote :: quote_body s ++ [dquote].

Definition unescape (e : ascii) : option ascii :=
  if Ascii.eqb e dquote then Some dquote else
  match e with
  | "\"%char => Some "\"%char
  | "/"%char => Some "/"%char
  | "b"%char => Some (ascii_of_nat 8)
  | "f"%char => Some (ascii_of_nat 12)
  | "n"%char => Some (ascii_of_nat 10)
  | "r"%char => Some (ascii_of_nat 13)
  | "t"%char => Some (ascii_of_nat 9)
  | _ => None
  end.

Definition prepend (c : ascii) (r : option (string * text)) : option (string * text) :=
  match r with
  | Some (s, rest) => Some (String c s, rest)
  | None => None
  end.

Definition prepend_bytes (bs : list ascii) (r : option (string * text)) :
    option (string * text) :=
  match r with
  | Some (s, rest) => Some ((string_of_list_ascii bs ++ s)%string, rest)
  | None => None
  end.

(** The code unit of an escape [\uXXXX] the text starts with, when it is
    a low surrogate. *)
Definition low_surrogate_escape (t : text) : option N :=
  match t with
  | b :: t1 =>
      if Ascii.eqb b "\" then
        match t1 with
        | u :: t2 =>
            if Ascii.eqb u "u" then
              match t2 with
              | h1 :: h2 :: h3 :: h4 :: _ =>
                  match hex4 h1 h2 h3 h4 with
                  | Some low => if is_low_surrogate low then Some low else None
                  | None => None
                  end
              | _ => None
              end
            else None
        | [] => None
        end
      else None
  | [] => None
  end.

(** The characters of a string literal after its opening quote.  An
    escape [\uXXXX] stands for the code unit it spells; the escape of a
    high surrogate directly followed by the escape of a low one stands for
    the character of the pair. *)
Fixpoint parse_string (t : text) : option (string * text) :=
  match t with
  | [] => None
  | c :: r =>
      if Ascii.eqb c dquote then Some (EmptyString, r)
      else if Ascii.eqb c "\" then
        match r with
        | [] => None
        | e :: r1 =>
            if Ascii.eqb e "u" then
              match r1 with
              | h1 :: h2 :: h3 :: h4 :: r2 =>
                  match hex4 h1 h2 h3 h4 with
                  | Some code =>
                      match (if is_high_surrogate code
                             then low_surrogate_escape r2 else None), r2 with
                      | Some low, _ :: _ :: _ :: _ :: _ :: _ :: r3 =>
                          prepend_bytes (JS.utf8 (surrogate_pair code low))
                                        (parse_string r3)
                      | _, _ => prepend_bytes (JS.utf8 code) (parse_string r2)
                      end
                  | None => None
                  end
              | _ => None
              end
            else
              match unescape e with
              | Some c' => prepend c' (parse_string r1)
              | None => None
              end
        end
      else if (nat_of_ascii c <? 32)%nat then None
      else prepend c (parse_string r)
  end.

(** ** Values *)

Definition is_ws (c : ascii) : bool :=
  let n := nat_of_ascii c in
  (n =? 32)%nat || (n =? 9)%nat || (n =? 10)%nat || (n =? 13)%nat.

Fixpoint skip_ws (t : text) : text :=
  match t with
  | c :: r => if is_ws c then skip_ws r else t
  | [] => []
  end.

(** An array index: the decimal, without sign or leading zero, of an
    integer from 0 to 2^32 - 2. *)
Definition array_index (k : string) : option N :=
  let ds := list_ascii_of_string k in
  if forallb is_digit ds
     && (1 <=? length ds)%nat && (length ds <=? 10)%nat
     && match ds with
        | c :: _ :: _ => negb (is_zero_digit c)
        | _ => true
        end
  then
    let n := N_of_digits ds in
    if (n <=? 4294967294)%N then Some n else None
  else None.

(** The order in which an object lists its keys: the array indices first,
    by value, then the other keys as they came. *)
Definition precedes (k k' : string) : bool :=
  match array_index k, array_index k' with
  | Some i, Some j => (i <? j)%N
  | Some _, None => true
  | None, _ => false
  end.

Fixpoint obj_replace (k : string) (v : value) (ms : list (string * value)) :
    list (string * value) :=
  match ms with
  | [] => []
  | (k', v') :: r =>
      if String.eqb k k' then (k, v) :: r else (k', v') :: obj_replace k v r
  end.

Fixpoint obj_insert (k : string) (v : value) (ms : list (string * value)) :
    list (string * value) :=
  match ms with
  | [] => [(k, v)]
  | (k', v') :: r =>
      if precedes k k' then (k, v) :: (k', v') :: r
      else (k', v') :: obj_insert k v r
  end.

(** [CreateDataProperty]: a repeated key keeps its place and takes the new
    value; a new key goes to its place in the order of the keys. *)
Definition obj_set (k : string) (v : value) (ms : list (string * value)) :
    list (string * value) :=
  if existsb (String.eqb k) (map fst ms) then obj_replace k v ms
  else obj_insert k v ms.

Definition obj_of_members (ms : list (string * value)) : list (string * value) :=
  fold_left (fun acc m => obj_set (fst m) (snd m) acc) ms [].

(** The elements after the first, each after a comma, and the closing
    bracket; likewise for the members of an object. *)
Fixpoint print_elements (print : value -> text) (l : list value) : text :=
  match l with
  | [] => ["]"%char]
  | y :: l' => ","%char :: print y ++ print_elements print l'
  end.

Definition print_member (print : value -> text) (m : string * value) : text :=
  quote (fst m) ++ ":"%char :: print (snd m).

Fixpoint print_members (print : value -> text) (l : list (string * value)) : text :=
  match l with
  | [] => ["}"%char]
  | m :: l' => ","%char :: print_member print m ++ print_members print l'
  end.

Fixpoint print (v : value) : text :=
  match v with
  | Null => list_ascii_of_string "null"
  | Bool true => list_ascii_of_string "true"
  | Bool false => list_ascii_of_string "false"
  | Num n => print_number n
  | Str s => quote s
  | Arr [] => list_ascii_of_string "[]"
  | Arr (x :: xs) => "["%char :: print x ++ print_elements print xs
  | Obj [] => list_ascii_of_string "{}"
  | Obj (m :: ms) => "{"%char :: print_member print m ++ print_members print ms
  end.

(** A key, a colon and a value. *)
Definition parse_member (parse_value : text -> option (value * text)) (t : text) :
    option ((string * value) * text) :=
  match skip_ws t with
  | c :: r =>
      if Ascii.eqb c dquote then
        match parse_string r with
        | Some (k, r1) =>
            match skip_ws r1 with
            | c1 :: r2 =>
                if Ascii.eqb c1 ":" then
                  match parse_value r2 with
                  | Some (v, r3) => Some ((k, v), r3)
                  | None => None
                  end
                else None
            | [] => None
            end
        | None => None
        end
      else None
  | [] => None
  end.

(** The text starts with the closing character [c]. *)
Definition closes (c : ascii) (t : text) : bool :=
  match t with
  | c' :: _ => Ascii.eqb c' c
  | [] => false
  end.

(** [t] without its prefix [p], if it starts with [p]. *)
Fixpoint strip_prefix (p t : text) : option text :=
  match p, t with
  | [], _ => Some t
  | a :: p', b :: t' => if Ascii.eqb a b then strip_prefix p' t' else None
  | _ :: _, [] => None
  end.

Definition keyword (w : string) (v : value) (t : text) : option (value * text) :=
  match strip_prefix (list_ascii_of_string w) t with
  | Some rest => Some (v, rest)
  | None => None
  end.

Section Grammar.
(** The parsers of a value, of the rest of an array and of the rest of an
    object, as available for the parts of a value. *)
Variable value_parser : text -> option (value * text).
Variable elements_parser : text -> option (list value * text).
Variable members_parser : text -> option (list (string * value) * text).

(** After the opening bracket. *)
Definition parse_array (r : text) : option (value * text) :=
  if closes "]" (skip_ws r) then Some (Arr [], tail (skip_ws r))
  else
    match value_parser r with
    | Some (x, r1) =>
        match elements_parser r1 with
        | Some (xs, r2) => Some (Arr (x :: xs), r2)
        | None => None
        end
    | None => None
    end.

(** After the opening brace. *)
Definition parse_object (r : text) : option (value * text) :=
  if closes "}" (skip_ws r) then Some (Obj [], tail (skip_ws r))
  else
    match parse_member value_parser r with
    | Some (m, r1) =>
        match members_parser r1 with
        | Some (ms, r2) => Some (Obj (obj_of_members (m :: ms)), r2)
        | None => None
        end
    | None => None
    end.

(** A value whose first character is [c]. *)
Definition parse_token (c : ascii) (r : text) : option (value * text) :=
  if Ascii.eqb c "n" then keyword "null" Null (c :: r)
  else if Ascii.eqb c "t" then keyword "true" (Bool true) (c :: r)
  else if Ascii.eqb c "f" then keyword "false" (Bool false) (c :: r)
  else if Ascii.eqb c dquote then
    match parse_string r with
    | Some (s, r1) => Some (Str s, r1)
    | None => None
    end
  else if Ascii.eqb c "[" then parse_array r
  else if Ascii.eqb c "{" then parse_object r
  else
    match parse_number (c :: r) with
    | Some (n, r1) => Some (Num n, r1)
    | None => None
    end.

(** After an element: the closing bracket, or a comma and more elements. *)
Definition parse_more_elements (t : text) : option (list value * text) :=
  match skip_ws t with
  | c :: r =>
      if Ascii.eqb c "]" then Some ([], r)
      else if Ascii.eqb c "," then
        match value_parser r with
        | Some (x, r1) =>
            match elements_parser r1 with
            | Some (xs, r2) => Some (x :: xs, r2)
            | None => None
            end
        | None => None
        end
      else None
  | [] => None
  end.

(** After a member: the closing brace, or a comma and more members. *)
Definition parse_more_members (t : text) : option (list (string * value) * text) :=
  match skip_ws t with
  | c :: r =>
      if Ascii.eqb c "}" then Some ([], r)
      else if Ascii.eqb c "," then
        match parse_member value_parser r with
        | Some (m, r1) =>
            match members_parser r1 with
            | Some (ms, r2) => Some (m :: ms, r2)
            | None => None
            end
        | None => None
        end
      else None
  | [] => None
  end.
End Grammar.

Fixpoint parse_value (fuel : nat) (t : text) : option (value * text) :=
  match fuel with
  | O => None
  | S fuel' =>
      match skip_ws t with
      | [] => None
      | c :: r =>
          parse_token (parse_value fuel') (parse_elements fuel') (parse_members fuel') c r
      end
  end
with parse_elements (fuel : nat) (t : text) : option (list value * text) :=
  match fuel with
  | O => None
  | S fuel' => parse_more_elements (parse_value fuel') (parse_elements fuel') t
  end
with parse_members (fuel : nat) (t : text) : option (list (string * value) * text) :=
  match fuel with
  | O => None
  | S fuel' => parse_more_members (parse_value fuel') (parse_members fuel') t
  end.

(** One value, white space around it, nothing after. *)
Definition parse_text (fuel : nat) (t : text) : option value :=
  match parse_value fuel t with
  | Some (v, rest) =>
      match skip_ws rest with
      | [] => Some v
      | _ => None
      end
  | None => None
  end.

(** [JSON.parse(s)]; [None] is a [SyntaxError].  Every call of the parser
    consumes a character, so one unit of fuel per character and one more
    is all the parser can use. *)
Definition parse (s : string) : option value :=
  let t := list_ascii_of_string s in
  parse_text (S (length t)) t.

(** [JSON.stringify(v)]. *)
Definition stringify (v : value) : string :=
  string_of_list_ascii (print v).

(** ** Values in the image of the parser *)

(** After a value in a serialized text comes a comma, a closing bracket or
    brace, or the end. *)
Definition ends_value (t : text) : bool :=
  match t with
  | [] => true
  | c :: _ => Ascii.eqb c "," || Ascii.eqb c "]" || Ascii.eqb c "}"
  end.

(** The first character of a serialized value. *)
Definition starts_value (c : ascii) : bool :=
  Ascii.eqb c "n" || Ascii.eqb c "t" || Ascii.eqb c "f" || Ascii.eqb c dquote
  || Ascii.eqb c "[" || Ascii.eqb c "{" || Ascii.eqb c "-" || is_digit c.

(** What cannot follow a number literal without being part of it. *)
Definition follows_number (t : text) : Prop :=
  match t with
  | [] => True
  | c :: _ => is_digit c = false /\ c <> "."%char /\ c <> "e"%char /\ c <> "E"%char
  end.

Definition no_digit_head (t : text) : Prop :=
  match t with
  | [] => True
  | c :: _ => is_digit c = false
  end.

Definition head_nonzero (t : text) : Prop :=
  match t with
  | [] => False
  | c :: _ => is_zero_digit c = false
  end.

Fixpoint distinct (keys : list string) : bool :=
  match keys with
  | [] => true
  | k :: r => negb (existsb (String.eqb k) r) && distinct r
  end.

(** No key comes before one that precedes it. *)
Fixpoint ordered (keys : list string) : bool :=
  match keys with
  | [] => true
  | k :: r => forallb (fun k' => negb (precedes k' k)) r && ordered r
  end.

(** The keys of an object, as it lists them. *)
Definition enumerated (keys : list string) : bool :=
  distinct keys && ordered keys.

(** Numbers in scientific form and objects whose keys are distinct and in
    the order in which an object lists them. *)
Fixpoint wf (v : value) : bool :=
  match v with
  | Num (JDec _ ds _) => canonical ds
  | Arr xs => forallb wf xs
  | Obj ms => forallb (fun m => wf (snd m)) ms && enumerated (map fst ms)
  | _ => true
  end.

(** A number the run time holds as it is written: at most 15 significant
    digits and a magnitude between 10^-301 and 10^300.  The double nearest
    to such a decimal is nearest to no other decimal of 15 digits or
    fewer, so that [Number::toString] prints its digits again.  A literal
    with more digits, or out of the range of the doubles, is not kept by
    [JSON.parse] (it is rounded, or becomes an infinity, which
    [JSON.stringify] prints as null): the numbers of this model stand for
    those of the code only when [plain]. *)
Definition plain_number (x : jnumber) : bool :=
  match x with
  | JZero => true
  | JDec _ ds n => (length ds <=? 15)%nat && (-300 <=? n)%Z && (n <=? 300)%Z
  end.

Fixpoint plain (v : value) : bool :=
  match v with
  | Num x => plain_number x
  | Arr xs => forallb plain xs
  | Obj ms => forallb (fun m => plain (snd m)) ms
  | _ => true
  end.

(** The number of calls the parser makes for a value. *)
Fixpoint size (v : value) : nat :=
  match v with
  | Arr xs => S (list_sum (map (fun x => S (size x)) xs))
  | Obj ms => S (list_sum (map (fun m => S (size (snd m))) ms))
  | _ => 1
  end.

(** With enough fuel, parsing the serialized value followed by [rest]
    gives the value and [rest]. *)
Definition parses_back (v : value) : Prop :=
  wf v = true ->
  forall fuel rest,
    (size v < fuel)%nat -> ends_value rest = true ->
    parse_value fuel (print v ++ rest) = Some (v, rest).

End Json.

(* ===================================================================== *)
(** * The browser: React state, session storage, alerts, network, router *)
(* ===================================================================== *)

Module Browser.

Record Request : Type := {
  url : string;
  method : string;
  headers : list (string * string);
  body : string
}.

(** What a [catch] clause can receive: an instance of [Error] with its
    message, or some other value. *)
Inductive Thrown : Type :=
| Error (message : string)
| NotAnError.

(** What the network does with a request: [fetch] rejects, or a response
    arrives with a status and a body. *)
Inductive FetchOutcome : Type :=
| Rejected (reason : Thrown)
| Responded (status : nat) (text : string).

Record Response : Type := {
  status : nat;
  response_text : string
}.

(** [res.ok]: the status is in the range 200-299. *)
Definition ok (res : Response) : bool :=
  ((200 <=? status res) && (status res <=? 299))%nat.

Record World : Type := {
  link : string;
  loading : bool;
  sessionStorage : gmap string string;
  alerts : list string;
  requests : list Request;
  route : string;
  network : Request -> FetchOutcome;
  NEXT_PUBLIC_API_BASE : option string;
  syntax_error_message : string -> string
}.

Definition set_link (v : string) (w : World) : World :=
  {| link := v; loading := loading w; sessionStorage := sessionStorage w;
     alerts := alerts w; requests := requests w; route := route w;
     network := network w; NEXT_PUBLIC_API_BASE := NEXT_PUBLIC_API_BASE w;
     syntax_error_message := syntax_error_message w |}.

Definition set_loading (v : bool) (w : World) : World :=
  {| link := link w; loading := v; sessionStorage := sessionStorage w;
     alerts := alerts w; requests := requests w; route := route w;
     network := network w; NEXT_PUBLIC_API_BASE := NEXT_PUBLIC_API_BASE w;
     syntax_error_message := syntax_error_message w |}.

Definition set_sessionStorage (v : gmap string string) (w : World) : World :=
  {| link := link w; loading := loading w; sessionStorage := v;
     alerts := alerts w; requests := requests w; route := route w;
     network := network w; NEXT_PUBLIC_API_BASE := NEXT_PUBLIC_API_BASE w;
     syntax_error_message := syntax_error_message w |}.

Definition set_alerts (v : list string) (w : World) : World :=
  {| link := link w; loading := loading w; sessionStorage := sessionStorage w;
     alerts := v; requests := requests w; route := route w;
     network := network w; NEXT_PUBLIC_API_BASE := NEXT_PUBLIC_API_BASE w;
     syntax_error_message := syntax_error_message w |}.

Definition set_requests (v : list Request) (w : World) : World :=
  {| link := link w; loading := loading w; sessionStorage := sessionStorage w;
     alerts := alerts w; requests := v; route := route w;
     network := network w; NEXT_PUBLIC_API_BASE := NEXT_PUBLIC_API_BASE w;
     syntax_error_message := syntax_error_message w |}.

Definition set_route (v : string) (w : World) : World :=
  {| link := link w; loading := loading w; sessionStorage := sessionStorage w;
     alerts := alerts w; requests := requests w; route := v;
     network := network w; NEXT_PUBLIC_API_BASE := NEXT_PUBLIC_API_BASE w;
     syntax_error_message := syntax_error_message w |}.

(** ** Computations that change the world and may throw *)

Inductive Result (A : Type) : Type :=
| Return (a : A)
| Throw (e : Thrown).
Arguments Return {A} a.
Arguments Throw {A} e.

Definition M (A : Type) : Type := World -> Result A * World.

Definition ret {A} (a : A) : M A := fun w => (Return a, w).

Definition bind {A B} (m : M A) (k : A -> M B) : M B :=
  fun w =>
    match m w with
    | (Return a, w') => k a w'
    | (Throw e, w') => (Throw e, w')
    end.

Definition throw {A} (e : Thrown) : M A := fun w => (Throw e, w).

(** [try { body } catch (error) { handler(error) }]. *)
Definition try_catch {A} (body : M A) (handler : Thrown -> M A) : M A :=
  fun w =>
    match body w with
    | (Return a, w') => (Return a, w')
    | (Throw e, w') => handler e w'
    end.

Definition read {A} (f : World -> A) : M A := fun w => (Return (f w), w).

Definition update (f : World -> World) : M unit := fun w => (Return tt, f w).

Declare Scope js_scope.
Delimit Scope js_scope with js.
Notation "x <- m ;; k" := (bind m (fun x => k))
  (at level 20, m at level 99, k at level 200, only parsing) : js_scope.
Notation "m ;; k" := (bind m (fun _ => k))
  (at level 100, k at level 200, only parsing, right associativity) : js_scope.

(** ** The effects the sources use *)

Definition alert (message : string) : M unit :=
  update (fun w => set_alerts (alerts w ++ [message]) w).

Definition setLoading (v : bool) : M unit := update (set_loading v).

Definition setLink (v : string) : M unit := update (set_link v).

Definition sessionStorage_setItem (key value : string) : M unit :=
  update (fun w => set_sessionStorage (<[key := value]> (sessionStorage w)) w).

Definition sessionStorage_getItem (store : gmap string string) (key : string) :
    option string :=
  store !! key.

Definition router_push (path : string) : M unit := update (set_route path).

(** [await fetch(url, init)]: the request goes out; the network decides. *)
Definition fetch (req : Request) : M Response :=
  fun w =>
    let w' := set_requests (requests w ++ [req]) w in
    match network w req with
    | Rejected reason => (Throw reason, w')
    | Responded st txt => (Return {| status := st; response_text := txt |}, w')
    end.

(** [await res.json()].  When the body is not JSON the promise rejects
    with a [SyntaxError]; its message is the engine's, which words it from
    the text: [syntax_error_message] of the world. *)
Definition Response_json (res : Response) : M Json.value :=
  fun w =>
    match Json.parse (response_text res) with
    | Some v => (Return v, w)
    | None => (Throw (Error (syntax_error_message w (response_text res))), w)
    end.

(** [await res.text()]. *)
Definition Response_text (res : Response) : M string :=
  ret (response_text res).

End Browser.

(* ===================================================================== *)
(** * [services/api.ts]                                                  *)
(* ===================================================================== *)

Module Api.
Import JS Browser.
Local Open Scope js_scope.

(** [process.env.NEXT_PUBLIC_API_BASE || "http://127.0.0.1:8000"]. *)
Definition API_BASE (w : World) : string :=
  match NEXT_PUBLIC_API_BASE w with
  | Some base => if nonempty base then base else "http://127.0.0.1:8000"
  | None => "http://127.0.0.1:8000"
  end.

(** The arguments of the call of [fetch]. *)
Definition analyze_request (base link : string) : Request :=
  {| url := base ++ "/analyze";
     method := "POST";
     headers := [("Content-Type", "application/json")];
     body := Json.stringify (Json.Obj [("link", Json.Str link)]) |}.

Definition analyzeProperty (link : string) : M Json.value :=
  base <- read API_BASE ;;
  res <- fetch (analyze_request base link) ;;
  if negb (ok res) then
    errorText <- Response_text res ;;
    throw (Error ("Failed to analyze property: "
                  ++ nat_to_string (status res) ++ " " ++ errorText))
  else
    Response_json res.

End Api.

(* ===================================================================== *)
(** * [app/page.tsx]: the input page                                     *)
(* ===================================================================== *)

(** [handleSubmit] of the [Home] component; its two versions in the
    sources (with and without the card layout) have the same body. *)
Module Home.
Import JS Browser.
Local Open Scope js_scope.

Definition errorMessage (error : Thrown) : string :=
  match error with
  | Error message => message
  | NotAnError => "Unknown error"
  end.

Definition handleSubmit : M unit :=
  link <- read link ;;
  if negb (nonempty (trim link)) then
    alert "Please enter a property link"
  else
    setLoading true ;;
    try_catch
      (data <- Api.analyzeProperty link ;;
       sessionStorage_setItem "analysisData" (Json.stringify data) ;;
       router_push "/report")
      (fun error =>
         alert ("Failed to analyze property: " ++ errorMessage error) ;;
         setLoading false).

(** The world after the handler has run to completion. *)
Definition submit (w : World) : World := snd (handleSubmit w).

(** The [disabled] attribute of the submit button: [!link || loading] in
    the version with the card layout, [loading] in the other. *)
Definition submit_disabled (w : World) : bool :=
  negb (nonempty (link w)) || loading w.

Definition submit_disabled_plain (w : World) : bool := loading w.

End Home.

(* ===================================================================== *)
(** * The analysis payload, as the report views type it                  *)
(* ===================================================================== *)

(** A [Record<string, T>] is the list of its entries in the order
    [Object.entries] gives them. *)
Module PropertyInfo.
Record t : Type := {
  location : option string;
  size_m2 : option JS.number;
  bedrooms : option JS.number;
  bathrooms : option JS.number
}.
End PropertyInfo.

Module Investment.
Record t : Type := {
  purchase_price : JS.number;
  remodeling_costs : JS.number;
  total_investment : JS.number
}.
End Investment.

Module Division.
Record t : Type := {
  division_id : string;
  room_type : string;
  size_m2 : JS.number;
  images : list string;
  costs : list (string * JS.number);
  total_cost : JS.number;
  detailed_notes : option string;
  conditions : option (list (string * option JS.number))
}.
End Division.

Module RehabCosts.
Record t : Type := {
  property_total : JS.number;
  summary : list (string * JS.number);
  divisions : list Division.t
}.
End RehabCosts.

Module RentEstimate.
Record t : Type := {
  monthly_rent : option JS.number;
  total_monthly_rent : option JS.number;
  annual_rent : option JS.number;
  rental_strategy : option string
}.
End RentEstimate.

Module FinancialMetrics.
Record Metrics : Type := {
  roi_percentage : JS.number;
  net_yield : JS.number;
  gross_yield : JS.number;
  months_to_break_even : JS.number
}.
Record NetIncome : Type := {
  monthly_net_income : JS.number;
  annual_net_income : JS.number
}.
Record Expenses : Type := {
  total_annual_expenses : JS.number
}.
Record t : Type := {
  metrics : Metrics;
  net_income : NetIncome;
  expenses : Expenses
}.
End FinancialMetrics.

Module AnalysisData.
Record t : Type := {
  success : option bool;
  listing_id : option string;
  property_info : option PropertyInfo.t;
  investment : option Investment.t;
  rehab_costs : option RehabCosts.t;
  rent_estimate : option RentEstimate.t;
  financial_metrics : option FinancialMetrics.t
}.

(** The object the state starts from, with no property. *)
Definition empty : t := {|
  success := None;
  listing_id := None;
  property_info := None;
  investment := None;
  rehab_costs := None;
  rent_estimate := None;
  financial_metrics := None
|}.
End AnalysisData.

(** The payload of the first version of the report view. *)
Module LegacyData.
Record t : Type := {
  link : option string;
  renovation_cost : option JS.number;
  monthly_rent_estimate : option JS.number;
  roi : option string
}.

Definition empty : t := {|
  link := None;
  renovation_cost := None;
  monthly_rent_estimate := None;
  roi := None
|}.
End LegacyData.

(* ===================================================================== *)
(** * A parsed value seen at the type of a payload                       *)
(* ===================================================================== *)

(** TypeScript gives the parsed value the type of the payload without
    looking at it.  [View] is the reading of a value that has the shape
    the interfaces declare: the properties they declare, [null] and a
    missing optional property being absent.  It is total for convenience:
    on a value that lacks a member an interface requires it answers [NaN],
    the empty string or the empty list, where the code, when it comes to
    read a property of the missing member, throws.  The statements about
    the views are about every function from parsed values to payloads;
    [View] is used on sample values of the declared shape only. *)
Module View.
Import JS.

Definition get (key : string) (v : Json.value) : option Json.value :=
  match v with
  | Json.Obj members =>
      option_map snd (List.find (fun m => String.eqb (fst m) key) members)
  | _ => None
  end.

Definition as_number (v : option Json.value) : option number :=
  match v with
  | Some (Json.Num n) => Some (Json.to_number n)
  | _ => None
  end.

Definition as_string (v : option Json.value) : option string :=
  match v with
  | Some (Json.Str s) => Some s
  | _ => None
  end.


Definition as_object (v : option Json.value) : option Json.value :=
  match v with
  | Some (Json.Obj members) => Some (Json.Obj members)
  | _ => None
  end.

Definition as_list (v : option Json.value) : list Json.value :=
  match v with
  | Some (Json.Arr items) => items
  | _ => []
  end.

Definition entries (v : option Json.value) : list (string * Json.value) :=
  match v with
  | Some (Json.Obj members) => members
  | _ => []
  end.

Definition required_number (v : option Json.value) : number :=
  ToNumber (as_number v).

Definition required_string (v : option Json.value) : string :=
  match as_string v with
  | Some s => s
  | None => EmptyString
  end.

Definition number_entries (v : option Json.value) : list (string * number) :=
  map (fun m => (fst m, required_number (Some (snd m)))) (entries v).

Definition property_info (v : Json.value) : PropertyInfo.t := {|
  PropertyInfo.location := as_string (get "location" v);
  PropertyInfo.size_m2 := as_number (get "size_m2" v);
  PropertyInfo.bedrooms := as_number (get "bedrooms" v);
  PropertyInfo.bathrooms := as_number (get "bathrooms" v)
|}.

Definition investment (v : Json.value) : Investment.t := {|
  Investment.purchase_price := required_number (get "purchase_price" v);
  Investment.remodeling_costs := required_number (get "remodeling_costs" v);
  Investment.total_investment := required_number (get "total_investment" v)
|}.

Definition division (v : Json.value) : Division.t := {|
  Division.division_id := required_string (get "division_id" v);
  Division.room_type := required_string (get "room_type" v);
  Division.size_m2 := required_number (get "size_m2" v);
  Division.images := map (fun i => required_string (Some i)) (as_list (get "images" v));
  Division.costs := number_entries (get "costs" v);
  Division.total_cost := required_number (get "total_cost" v);
  Division.detailed_notes := as_string (get "detailed_notes" v);
  Division.conditions :=
    option_map
      (fun o => map (fun m => (fst m, as_number (Some (snd m)))) (entries (Some o)))
      (as_object (get "conditions" v))
|}.

Definition rehab_costs (v : Json.value) : RehabCosts.t := {|
  RehabCosts.property_total := required_number (get "property_total" v);
  RehabCosts.summary := number_entries (get "summary" v);
  RehabCosts.divisions := map division (as_list (get "divisions" v))
|}.

Definition rent_estimate (v : Json.value) : RentEstimate.t := {|
  RentEstimate.monthly_rent := as_number (get "monthly_rent" v);
  RentEstimate.total_monthly_rent := as_number (get "total_monthly_rent" v);
  RentEstimate.annual_rent := as_number (get "annual_rent" v);
  RentEstimate.rental_strategy := as_string (get "rental_strategy" v)
|}.

Definition financial_metrics (v : Json.value) : FinancialMetrics.t :=
  let m := default Json.Null (get "metrics" v) in
  let n := default Json.Null (get "net_income" v) in
  let e := default Json.Null (get "expenses" v) in
  {| FinancialMetrics.metrics := {|
       FinancialMetrics.roi_percentage := required_number (get "roi_percentage" m);
       FinancialMetrics.net_yield := required_number (get "net_yield" m);
       FinancialMetrics.gross_yield := required_number (get "gross_yield" m);
       FinancialMetrics.months_to_break_even :=
         required_number (get "months_to_break_even" m) |};
     FinancialMetrics.net_income := {|
       FinancialMetrics.monthly_net_income := required_number (get "monthly_net_income" n);
       FinancialMetrics.annual_net_income := required_number (get "annual_net_income" n) |};
     FinancialMetrics.expenses := {|
       FinancialMetrics.total_annual_expenses :=
         required_number (get "total_annual_expenses" e) |} |}.



End View.

(* ===================================================================== *)
(** * What a report view renders                                         *)
(* ===================================================================== *)

Module Ui.
Import JS.

(** The outcome of [cond && <element/>] as a React child: the element, a
    falsy number that React prints ([0] or [NaN]), or nothing. *)
Inductive Cond (A : Type) : Type :=
| Shown (a : A)
| Leaked (n : number)
| Hidden.
Arguments Shown {A} a.
Arguments Leaked {A} n.
Arguments Hidden {A}.

Definition and_number {A} (c : option number) (f : number -> A) : Cond A :=
  match c with
  | None => Hidden
  | Some n => if truthy_number n then Shown (f n) else Leaked n
  end.

Definition and_string {A} (c : option string) (f : string -> A) : Cond A :=
  match c with
  | Some s => if nonempty s then Shown (f s) else Hidden
  | None => Hidden
  end.

(** A number printed by [n.toFixed(digits)]. *)
Record Fixed : Type := {
  fixed_value : number;
  fixed_digits : nat
}.

Record ConditionRow : Type := {
  condition_key : string;
  condition_name : string;
  condition_color : string;
  condition_value : Fixed;
  condition_label : string
}.

Record CostRow : Type := {
  cost_key : string;
  cost_name : string;
  cost_amount : string
}.

Record Image : Type := {
  src : string;
  alt : string
}.

Record DivisionCard : Type := {
  card_key : string;
  card_title : string;
  card_size : number;
  card_total : string;
  card_conditions : option (list (option ConditionRow));
  card_costs : option (list CostRow);
  card_images : option (list Image);
  card_notes : Cond string
}.

Inductive Block : Type :=
| LoadingMessage
| FailureMessage
| NoDataMessage
| LegacyDetails (link : string) (renovation_cost monthly_rent_estimate : option number)
    (roi : option string)
| PageHeader (listing : Cond string)
| PropertyInfoCard (location : Cond string) (size bedrooms : Cond number)
    (listing : Cond string)
| PropertyInformation (location : Cond string) (size bedrooms bathrooms : Cond number)
| RiskNotesCard
| RemodelCostCard (remodel : string) (size_note : Cond number) (capex : string)
| InvestmentSummary (purchase remodel total : string)
| RentalPotentialCard (monthly : string) (strategy : Cond string) (annual : Cond string)
| YieldPaybackCard (gross net : Fixed) (annual_net : string) (payback : Fixed)
| FinancialMetricsBlock (roi net : Fixed) (monthly_net annual_net : string)
    (rent : option string)
| DivisionsSection (total : string) (cards : list DivisionCard)
| CostSummary (entries : list CostRow).

(** The text of [FailureMessage] and of [NoDataMessage]. *)
Definition failure_text : string := "No analysis data available or analysis failed.".
Definition no_data_text : string := "No analysis data available.".

(** [cond && <element/>] for an optional object. *)
Definition and_object {A} (c : option A) (f : A -> Block) : list Block :=
  match c with
  | Some a => [f a]
  | None => []
  end.

(** The kinds of section a report has. *)
Inductive Kind : Type :=
| KMessage | KHeader | KProperty | KInvestment | KRent | KMetrics | KDivisions
| KSummary | KNotes | KLegacy.

Definition kind (b : Block) : Kind :=
  match b with
  | LoadingMessage | FailureMessage | NoDataMessage => KMessage
  | LegacyDetails _ _ _ _ => KLegacy
  | PageHeader _ => KHeader
  | PropertyInfoCard _ _ _ _ | PropertyInformation _ _ _ _ => KProperty
  | RiskNotesCard => KNotes
  | RemodelCostCard _ _ _ | InvestmentSummary _ _ _ => KInvestment
  | RentalPotentialCard _ _ _ => KRent
  | YieldPaybackCard _ _ _ _ | FinancialMetricsBlock _ _ _ _ _ => KMetrics
  | DivisionsSection _ _ => KDivisions
  | CostSummary _ => KSummary
  end.

End Ui.

(* ===================================================================== *)
(** * [app/page.tsx]: the parts the two current report views share       *)
(* ===================================================================== *)

Module ReportParts.
Import JS Formatters Ui.

(** The stored snapshot is the JSON text null.  [JSON.parse] gives [null]
    for it and [setData] takes it, although it is no value of the type of
    the payload; the render that follows reads a property of it and throws
    a [TypeError], so that nothing is shown.  The state of a view, which
    has the type of the payload, is the state of the code for every other
    snapshot. *)
Definition null_snapshot (store : gmap string string) : bool :=
  match Browser.sessionStorage_getItem store "analysisData" with
  | Some text =>
      nonempty text
      && match Json.parse text with
         | Some Json.Null => true
         | _ => false
         end
  | None => false
  end.

(** [monthly_rent || total_monthly_rent || 0]. *)
Definition rent_figure (r : RentEstimate.t) : number :=
  ToNumber (or_else (or_else (RentEstimate.monthly_rent r)
                             (RentEstimate.total_monthly_rent r))
                    (Some (Fin 0))).

(** [Object.entries(conditions).map(...)]: no row for a null value. *)
Definition condition_row (entry : string * option number) : option ConditionRow :=
  match snd entry with
  | None => None
  | Some value =>
      Some {| condition_key := fst entry;
              condition_name := formatCategoryName (fst entry);
              condition_color := getConditionColor (Some value);
              condition_value := {| fixed_value := value; fixed_digits := 1 |};
              condition_label := getConditionLabel (Some value) |}
  end.

Definition cost_row (entry : string * number) : CostRow :=
  {| cost_key := fst entry;
     cost_name := formatCategoryName (fst entry);
     cost_amount := formatCurrency (snd entry) |}.

Definition image (room_type : string) (idx : nat) (imageUrl : string) : Image :=
  {| src := imageUrl;
     alt := room_type ++ " " ++ nat_to_string (idx + 1) |}.

Definition division_card (division : Division.t) : DivisionCard :=
  {| card_key := Division.division_id division;
     card_title := formatRoomType (Division.room_type division)
                   ++ " - " ++ Division.division_id division;
     card_size := Division.size_m2 division;
     card_total := formatCurrency (Division.total_cost division);
     card_conditions := option_map (map condition_row) (Division.conditions division);
     card_costs :=
       if (0 <? length (Division.costs division))%nat
       then Some (map cost_row (Division.costs division))
       else None;
     card_images :=
       if (0 <? length (Division.images division))%nat
       then Some (imap (image (Division.room_type division)) (Division.images division))
       else None;
     card_notes := and_string (Division.detailed_notes division) (fun s => s) |}.

(** The divisions section: only for a non-empty list of divisions. *)
Definition divisions_section (data : AnalysisData.t) : list Block :=
  match AnalysisData.rehab_costs data with
  | Some rc =>
      if (0 <? length (RehabCosts.divisions rc))%nat
      then [DivisionsSection (formatCurrency (RehabCosts.property_total rc))
                             (map division_card (RehabCosts.divisions rc))]
      else []
  | None => []
  end.

(** [Object.entries(summary).filter(([_, cost]) => cost > 0).map(...)]. *)
Definition summary_entries (summary : list (string * number)) : list CostRow :=
  map cost_row (List.filter (fun entry => gt (snd entry) (Fin 0)) summary).

Definition cost_summary (data : AnalysisData.t) : list Block :=
  and_object (AnalysisData.rehab_costs data)
    (fun rc => CostSummary (summary_entries (RehabCosts.summary rc))).

End ReportParts.

(* ===================================================================== *)
(** * [app/page.tsx]: the report view with the card layout               *)
(* ===================================================================== *)

Module ReportCards.
Import JS Formatters Ui ReportParts.

Record State : Type := {
  data : AnalysisData.t;
  loading : bool
}.

(** [useState<AnalysisData>({})] and [useState(true)]. *)
Definition initial : State :=
  {| data := AnalysisData.empty; loading := true |}.

Section Mount.
(** The parsed value is used at type [AnalysisData] without a check. *)
Variable cast : Json.value -> AnalysisData.t.

(** The effect run once after the first render.  A stored text that does
    not parse is logged and leaves the data as they are.  The state is the
    one of the code unless the snapshot is null ([null_snapshot]), which
    the type of the state does not hold: see [page]. *)
Definition useEffect (store : gmap string string) (st : State) : State :=
  let storedData := Browser.sessionStorage_getItem store "analysisData" in
  let data' :=
    match storedData with
    | Some text =>
        if nonempty text then
          match Json.parse text with
          | Some parsed => cast parsed
          | None => data st
          end
        else data st
    | None => data st
    end in
  {| data := data'; loading := false |}.

Definition mount (store : gmap string string) : State :=
  useEffect store initial.
End Mount.

Definition property_info_card (d : AnalysisData.t) (pi : PropertyInfo.t) : Block :=
  PropertyInfoCard
    (and_string (PropertyInfo.location pi) (fun s => s))
    (and_number (PropertyInfo.size_m2 pi) (fun n => n))
    (and_number (PropertyInfo.bedrooms pi) (fun n => n))
    (and_string (AnalysisData.listing_id d) (fun s => s)).

Definition remodel_cost_card (d : AnalysisData.t) (inv : Investment.t) : Block :=
  RemodelCostCard
    (formatCurrency (Investment.remodeling_costs inv))
    (and_number
       (match AnalysisData.property_info d with
        | Some pi => PropertyInfo.size_m2 pi
        | None => None
        end)
       (fun n => n))
    (formatCurrency (Investment.total_investment inv)).

Definition rental_potential_card (r : RentEstimate.t) : Block :=
  RentalPotentialCard
    (formatCurrency (rent_figure r))
    (and_string (RentEstimate.rental_strategy r) (fun s => s))
    (and_number (RentEstimate.annual_rent r) formatCurrency).

Definition yield_payback_card (fm : FinancialMetrics.t) : Block :=
  let m := FinancialMetrics.metrics fm in
  YieldPaybackCard
    {| fixed_value := FinancialMetrics.gross_yield m; fixed_digits := 1 |}
    {| fixed_value := FinancialMetrics.net_yield m; fixed_digits := 1 |}
    (formatCurrency
       (FinancialMetrics.annual_net_income (FinancialMetrics.net_income fm)))
    {| fixed_value := div (FinancialMetrics.months_to_break_even m) (Fin 12);
       fixed_digits := 1 |}.

Definition Report (st : State) : list Block :=
  if loading st then [LoadingMessage]
  else if negb (truthy_bool (AnalysisData.success (data st))) then [FailureMessage]
  else
    let d := data st in
    and_object (AnalysisData.property_info d) (property_info_card d)
    ++ [RiskNotesCard]
    ++ and_object (AnalysisData.investment d) (remodel_cost_card d)
    ++ and_object (AnalysisData.rent_estimate d) rental_potential_card
    ++ and_object (AnalysisData.financial_metrics d) yield_payback_card
    ++ divisions_section d
    ++ cost_summary d.

(** What the page shows once the effect has run: the report of the state,
    or nothing ([None]) when the render throws. *)
Definition page (cast : Json.value -> AnalysisData.t) (store : gmap string string) :
    option (list Block) :=
  if null_snapshot store then None else Some (Report (mount cast store)).

End ReportCards.

(* ===================================================================== *)
(** * [app/page.tsx]: the report view with the plain layout              *)
(* ===================================================================== *)

Module ReportPlain.
Import JS Formatters Ui ReportParts.

Record State : Type := {
  data : AnalysisData.t;
  loading : bool
}.

Definition initial : State :=
  {| data := AnalysisData.empty; loading := true |}.

Section Mount.
Variable cast : Json.value -> AnalysisData.t.

Definition useEffect (store : gmap string string) (st : State) : State :=
  let storedData := Browser.sessionStorage_getItem store "analysisData" in
  let data' :=
    match storedData with
    | Some text =>
        if nonempty text then
          match Json.parse text with
          | Some parsed => cast parsed
          | None => data st
          end
        else data st
    | None => data st
    end in
  {| data := data'; loading := false |}.

Definition mount (store : gmap string string) : State :=
  useEffect store initial.
End Mount.

Definition property_information (pi : PropertyInfo.t) : Block :=
  PropertyInformation
    (and_string (PropertyInfo.location pi) (fun s => s))
    (and_number (PropertyInfo.size_m2 pi) (fun n => n))
    (and_number (PropertyInfo.bedrooms pi) (fun n => n))
    (and_number (PropertyInfo.bathrooms pi) (fun n => n)).

Definition investment_summary (inv : Investment.t) : Block :=
  InvestmentSummary
    (formatCurrency (Investment.purchase_price inv))
    (formatCurrency (Investment.remodeling_costs inv))
    (formatCurrency (Investment.total_investment inv)).

(** The monthly rent estimate is a row of the financial metrics block. *)
Definition financial_metrics_block (d : AnalysisData.t) (fm : FinancialMetrics.t) : Block :=
  let m := FinancialMetrics.metrics fm in
  FinancialMetricsBlock
    {| fixed_value := FinancialMetrics.roi_percentage m; fixed_digits := 2 |}
    {| fixed_value := FinancialMetrics.net_yield m; fixed_digits := 2 |}
    (formatCurrency
       (FinancialMetrics.monthly_net_income (FinancialMetrics.net_income fm)))
    (formatCurrency
       (FinancialMetrics.annual_net_income (FinancialMetrics.net_income fm)))
    (option_map (fun r => formatCurrency (rent_figure r))
                (AnalysisData.rent_estimate d)).

Definition Report (st : State) : list Block :=
  if loading st then [LoadingMessage]
  else if negb (truthy_bool (AnalysisData.success (data st))) then [FailureMessage]
  else
    let d := data st in
    [PageHeader (and_string (AnalysisData.listing_id d) (fun s => s))]
    ++ and_object (AnalysisData.property_info d) property_information
    ++ and_object (AnalysisData.investment d) investment_summary
    ++ and_object (AnalysisData.financial_metrics d) (financial_metrics_block d)
    ++ divisions_section d
    ++ cost_summary d.

(** What the page shows once the effect has run: the report of the state,
    or nothing ([None]) when the render throws. *)
Definition page (cast : Json.value -> AnalysisData.t) (store : gmap string string) :
    option (list Block) :=
  if null_snapshot store then None else Some (Report (mount cast store)).

End ReportPlain.

(* ===================================================================== *)
(** * [app/page.tsx]: the first report view                              *)
(* ===================================================================== *)

(** It has no loading state and no success flag: it shows the details when
    the payload has a link. *)
Module ReportLegacy.
Import JS Ui ReportParts.

Record State : Type := {
  data : LegacyData.t
}.

Definition initial : State := {| data := LegacyData.empty |}.

Section Mount.
Variable cast : Json.value -> LegacyData.t.

Definition useEffect (store : gmap string string) (st : State) : State :=
  let storedData := Browser.sessionStorage_getItem store "analysisData" in
  match storedData with
  | Some text =>
      if nonempty text then
        match Json.parse text with
        | Some parsed => {| data := cast parsed |}
        | None => st
        end
      else st
  | None => st
  end.

Definition mount (store : gmap string string) : State :=
  useEffect store initial.
End Mount.

Definition Report (st : State) : list Block :=
  match LegacyData.link (data st) with
  | Some l =>
      if nonempty l then
        [LegacyDetails l
           (LegacyData.renovation_cost (data st))
           (LegacyData.monthly_rent_estimate (data st))
           (LegacyData.roi (data st))]
      else [NoDataMessage]
  | None => [NoDataMessage]
  end.

(** What the page shows once the effect has run: the report of the state,
    or nothing ([None]) when the render throws. *)
Definition page (cast : Json.value -> LegacyData.t) (store : gmap string string) :
    option (list Block) :=
  if null_snapshot store then None else Some (Report (mount cast store)).

End ReportLegacy.

(* ===================================================================== *)
(** * Reference definitions the properties are stated with               *)
(* ===================================================================== *)

Module Reference.
Import JS.

(** A word with its first character in upper case and the rest as it is. *)
Definition capitalize (word : string) : string :=
  match word with
  | EmptyString => EmptyString
  | String c r => String (upper_char c) r
  end.

(** Title case: first character upper, all others lower. *)
Definition title_case (word : string) : string :=
  match word with
  | EmptyString => EmptyString
  | String c r => String (upper_char c) (toLowerCase r)
  end.

(** The tokens between underscores that are empty or start with an ASCII
    character.  On these, the first character is the first byte and its
    upper case is that of ASCII, as this embedding has them; a token that
    starts with another character is outside it ([toUpperCase] also maps
    letters beyond ASCII, some of them to two letters). *)
Definition starts_in_ascii (word : string) : bool :=
  match word with
  | EmptyString => true
  | String c _ => (nat_of_ascii c <? 128)%nat
  end.

Definition ascii_initials (s : string) : bool :=
  forallb starts_in_ascii (split "_" s).

Fixpoint occurs (c : ascii) (s : string) : bool :=
  match s with
  | EmptyString => false
  | String c' r => Ascii.eqb c c' || occurs c r
  end.

(** A string made of white space only (possibly empty): the encodings of
    white-space code points, one after the other. *)
Fixpoint spaces_only (fuel : nat) (t : list ascii) : bool :=
  match t with
  | [] => true
  | _ :: _ =>
      match fuel with
      | O => false
      | S fuel' =>
          existsb (fun cp =>
                     match drop_prefix (utf8 cp) t with
                     | Some r => spaces_only fuel' r
                     | None => false
                     end)
                  white_space_code_points
      end
  end.

Definition whitespace_only (s : string) : bool :=
  let t := list_ascii_of_string s in
  spaces_only (length t) t.

(** No entry of the table is a proper prefix of another. *)
Definition prefix_free (table : list (list ascii)) : bool :=
  forallb (fun w =>
             forallb (fun w' =>
                        bool_decide (w = w')
                        || match drop_prefix w w' with Some _ => false | None => true end)
                     table)
          table.

(** A number that is zero; an optional number that is absent or zero. *)
Definition is_zero (n : number) : Prop :=
  exists q, n = Fin q /\ (q == 0)%Q.

Definition absent_or_zero (v : option number) : Prop :=
  v = None \/ exists n, v = Some n /\ is_zero n.

(** The outcomes of [fetch] that are transport failures: a rejection, or a
    response whose status is not in the range 200-299. *)
Definition transport_failure (o : Browser.FetchOutcome) : Prop :=
  match o with
  | Browser.Rejected _ => True
  | Browser.Responded st txt =>
      Browser.ok {| Browser.status := st; Browser.response_text := txt |} = false
  end.

(** ** Reading a formatted amount back *)

Definition strip_suffix (suffix t : list ascii) : option (list ascii) :=
  option_map (@rev ascii) (Json.strip_prefix (rev suffix) (rev t)).

Definition read_digits (ds : list ascii) : option N :=
  match ds with
  | [] => None
  | _ => option_map N.of_uint (NilEmpty.uint_of_string (string_of_list_ascii ds))
  end.

(** The integer a formatted amount spells: an optional minus sign, then,
    between what the locale prints around a currency amount, decimal digits
    in groups; [None] if anything else is there, such as a decimal
    separator and fraction digits. *)
Definition numeric_part (loc : Intl.LocaleData) (s : string) : option Z :=
  let t := list_ascii_of_string s in
  let negative := match t with "-"%char :: _ => true | _ => false end in
  let t1 := match t with "-"%char :: r => r | _ => t end in
  match Json.strip_prefix (list_ascii_of_string (Intl.currency_prefix loc)) t1 with
  | Some t2 =>
      match strip_suffix (list_ascii_of_string (Intl.currency_suffix loc)) t2 with
      | Some t3 =>
          let ds := List.filter (fun c => negb (occurs c (Intl.group_separator loc))) t3 in
          match read_digits ds with
          | Some n => Some (if negative then - Z.of_N n else Z.of_N n)%Z
          | None => None
          end
      | None => None
      end
  | None => None
  end.

Fixpoint prefix_of (p s : string) : bool :=
  match p, s with
  | EmptyString, _ => true
  | String a p', String b s' => Ascii.eqb a b && prefix_of p' s'
  | String _ _, EmptyString => false
  end.

(** [needle] occurs in [hay] as a contiguous run. *)
Fixpoint substring_of (needle hay : string) : bool :=
  prefix_of needle hay ||
  match hay with
  | EmptyString => false
  | String _ r => substring_of needle r
  end.

End Reference.

(* ===================================================================== *)
(** * Sample payloads and worlds                                         *)
(* ===================================================================== *)

Module Samples.
Import JS.

Definition kitchen : Division.t := {|
  Division.division_id := "div_1";
  Division.room_type := "kitchen";
  Division.size_m2 := Fin 12;
  Division.images := ["https://img.example/1.jpg"];
  Division.costs := [("flooring", Fin 800); ("painting", Fin 350.5)];
  Division.total_cost := Fin 1150.5;
  Division.detailed_notes := None;
  Division.conditions := Some [("flooring_condition", Some (Fin 2.5)); ("walls", None)]
|}.

Definition rehab : RehabCosts.t := {|
  RehabCosts.property_total := Fin 1150.5;
  RehabCosts.summary :=
    [("flooring", Fin 800); ("plumbing", Fin 0); ("painting", Fin 1);
     ("discount", Fin (-50))];
  RehabCosts.divisions := [kitchen]
|}.

Definition rent : RentEstimate.t := {|
  RentEstimate.monthly_rent := Some (Fin 0);
  RentEstimate.total_monthly_rent := Some (Fin 1450);
  RentEstimate.annual_rent := Some (Fin 17400);
  RentEstimate.rental_strategy := Some "rooms"
|}.

Definition metrics : FinancialMetrics.t := {|
  FinancialMetrics.metrics := {|
    FinancialMetrics.roi_percentage := Fin 6.4;
    FinancialMetrics.net_yield := Fin 5.1;
    FinancialMetrics.gross_yield := Fin 7.2;
    FinancialMetrics.months_to_break_even := Fin 150 |};
  FinancialMetrics.net_income := {|
    FinancialMetrics.monthly_net_income := Fin 1020;
    FinancialMetrics.annual_net_income := Fin 12240 |};
  FinancialMetrics.expenses := {| FinancialMetrics.total_annual_expenses := Fin 5160 |}
|}.

(** A complete, successful analysis. *)
Definition analysis : AnalysisData.t := {|
  AnalysisData.success := Some true;
  AnalysisData.listing_id := Some "33445566";
  AnalysisData.property_info := Some {|
    PropertyInfo.location := Some "Lisboa";
    PropertyInfo.size_m2 := Some (Fin 85);
    PropertyInfo.bedrooms := Some (Fin 2);
    PropertyInfo.bathrooms := Some (Fin 1) |};
  AnalysisData.investment := Some {|
    Investment.purchase_price := Fin 240000;
    Investment.remodeling_costs := Fin 1150.5;
    Investment.total_investment := Fin 241150.5 |};
  AnalysisData.rehab_costs := Some rehab;
  AnalysisData.rent_estimate := Some rent;
  AnalysisData.financial_metrics := Some metrics
|}.



Definition store_of (text : string) : gmap string string :=
  {[ "analysisData" := text ]}.

(** A successful response body as a server may spell it, with a space
    after the colon, and the same value as [JSON.stringify] spells it. *)
Definition quoted (s : string) : string :=
  String Json.dquote (s ++ String Json.dquote EmptyString).

Definition spaced_body : string := "{" ++ quoted "success" ++ ": true}".

Definition compact_body : string := "{" ++ quoted "success" ++ ":true}".

(** A body without white space in which a server spells a whole number
    with a fraction part, and what [JSON.stringify] makes of it. *)
Definition float_body : string :=
  "{" ++ quoted "success" ++ ":true," ++ quoted "size_m2" ++ ":85.0}".

Definition float_body_stored : string :=
  "{" ++ quoted "success" ++ ":true," ++ quoted "size_m2" ++ ":85}".

(** The input page with [typed] in the field, nothing stored, and a network
    that answers every request with [outcome]. *)
Definition world (typed : string) (outcome : Browser.FetchOutcome) : Browser.World := {|
  Browser.link := typed;
  Browser.loading := false;
  Browser.sessionStorage := ∅;
  Browser.alerts := [];
  Browser.requests := [];
  Browser.route := "/";
  Browser.network := fun _ => outcome;
  Browser.NEXT_PUBLIC_API_BASE := None;
  Browser.syntax_error_message := fun text => "Unexpected token in JSON: " ++ text
|}.

End Samples.

(* ===================================================================== *)
(** * [utils/formatters.ts]: percentages                                 *)
(* ===================================================================== *)

(** [Number.prototype.toFixed] on the exact value the number holds, and
    [formatPercentage] on top of it. *)
Module Percent.
Import JS.
Local Open Scope list_scope.

(** The integer [n] for which [n / 10^f - a] is closest to zero, the
    larger one when there are two. *)
Definition scaled (f : nat) (a : Q) : N :=
  Z.to_N ((2 * Qnum a * 10 ^ Z.of_nat f + Z.pos (Qden a)) / (2 * Z.pos (Qden a))).

(** Fewer digits than [f + 1] are completed with zeros on the left. *)
Definition pad_zeros (f : nat) (m : list ascii) : list ascii :=
  repeat "0"%char (S f - length m) ++ m.

(** The decimal point goes before the last [f] digits. *)
Definition place_point (f : nat) (m : list ascii) : list ascii :=
  match f with
  | O => m
  | S _ =>
      let m' := pad_zeros f m in
      let k := length m' in
      firstn (k - f) m' ++ "."%char :: skipn (k - f) m'
  end.

Section ToFixed.
(** [Number::toString], which [toFixed] answers with for a magnitude of
    10^21 and more. *)
Variable Number_toString : number -> string.

(** [x.toFixed(f)], for [f] from 0 to 100. *)
Definition toFixed (f : nat) (x : number) : string :=
  match x with
  | NaN => "NaN"
  | Infinity negative => if negative then "-Infinity" else "Infinity"
  | Fin q =>
      let s := if is_negative q then "-" else EmptyString in
      let a := Qabs q in
      if Qle_bool (inject_Z (10 ^ 21)) a then s ++ Number_toString (Fin a)
      else s ++ string_of_list_ascii (place_point f (Json.digits_of_N (scaled f a)))
  end.

Definition formatPercentage (value : number) : string :=
  toFixed 2 value ++ "%".
End ToFixed.

(** ** Reading a percentage back *)

(** The number a text with exactly [f] fraction digits spells: an
    optional minus sign, at least one digit, a point and [f] digits. *)
Definition read_fixed (f : nat) (t : list ascii) : option Q :=
  let '(negative, t1) :=
    match t with
    | c :: r => if Ascii.eqb c "-" then (true, r) else (false, t)
    | [] => (false, [])
    end in
  let '(ip, rest) := Json.span_digits t1 in
  match ip, rest with
  | _ :: _, c :: fp =>
      if Ascii.eqb c "." && forallb Json.is_digit fp && (length fp =? f)%nat then
        let v := (inject_Z (Z.of_N (Json.N_of_digits (ip ++ fp)))
                  / inject_Z (10 ^ Z.of_nat f))%Q in
        Some (if negative then (- v)%Q else v)
      else None
  | _, _ => None
  end.

Definition read_percentage (s : string) : option Q :=
  match Reference.strip_suffix ["%"%char] (list_ascii_of_string s) with
  | Some t => read_fixed 2 t
  | None => None
  end.

End Percent.

(* ===================================================================== *)
(** * [components/ui]: class names                                       *)
(* ===================================================================== *)

Module Components.
Import JS.
Local Open Scope list_scope.

(** An argument of [cn]: [string | boolean | undefined]. *)
Inductive ClassArg : Type :=
| Class (s : string)
| Flag (b : bool)
| Undefined.

(** [Boolean(a)]. *)
Definition Boolean (a : ClassArg) : bool :=
  match a with
  | Class s => nonempty s
  | Flag b => b
  | Undefined => false
  end.

(** What [join] prints for an element. *)
Definition element_text (a : ClassArg) : string :=
  match a with
  | Class s => s
  | Flag true => "true"
  | Flag false => "false"
  | Undefined => EmptyString
  end.

(** [args.filter(Boolean).join(" ")]; the three files that declare [cn]
    declare the same function. *)
Definition cn (args : list ClassArg) : string :=
  join " " (map element_text (List.filter Boolean args)).

(** [flag && name] for [flag?: boolean]. *)
Definition and_class (flag : option bool) (name : string) : ClassArg :=
  match flag with
  | None => Undefined
  | Some false => Flag false
  | Some true => Class name
  end.

(** The default [className = ""] of a destructured prop. *)
Definition className_or_default (className : option string) : string :=
  match className with
  | Some c => c
  | None => EmptyString
  end.

Definition card_base : string :=
  "rounded-2xl border border-neutral-200 bg-white shadow-sm".

Definition Card (className : option string) : string :=
  cn [Class card_base; Class (className_or_default className)].

Definition CardBody (className : option string) : string :=
  cn [Class "p-4"; Class (className_or_default className)].

Definition input_base : list string :=
  ["h-12 w-full rounded-xl border border-neutral-200 bg-white px-4 text-sm";
   "placeholder:text-neutral-400 focus:border-emerald-500 focus:outline-none focus:ring-4 focus:ring-emerald-100";
   "disabled:opacity-50 disabled:cursor-not-allowed"].

Definition Input (className : option string) : string :=
  cn (map Class input_base ++ [Class (className_or_default className)]).

Inductive Variant : Type := primary | secondary.

Definition secondary_base : list string :=
  ["inline-flex h-10 items-center justify-center gap-2 rounded-xl border px-4 text-sm font-medium";
   "border-neutral-200 bg-white text-neutral-700 hover:bg-neutral-50";
   "disabled:opacity-50 disabled:cursor-not-allowed"].

Definition primary_base : list string :=
  ["inline-flex h-11 items-center justify-center gap-2 rounded-xl px-5 text-sm font-semibold";
   "bg-emerald-600 text-white hover:bg-emerald-700 focus:outline-none focus:ring-4 focus:ring-emerald-100";
   "disabled:opacity-50 disabled:cursor-not-allowed"].

(** What [Button] renders: the class of the [button] element and whether
    the spinner precedes the children. *)
Record ButtonView : Type := {
  button_className : string;
  button_spinner : bool
}.

Definition Button (className : option string) (loading : option bool)
    (variant : option Variant) : ButtonView :=
  match variant with
  | Some secondary =>
      {| button_className :=
           cn (map Class secondary_base ++ [Class (className_or_default className)]);
         button_spinner := false |}
  | _ =>
      {| button_className :=
           cn (map Class primary_base
               ++ [and_class loading "opacity-80";
                   Class (className_or_default className)]);
         button_spinner := truthy_bool loading |}
  end.

End Components.

(* ===================================================================== *)
(** * Further reference definitions                                      *)
(* ===================================================================== *)

Module Reference2.
Import JS.
Local Open Scope list_scope.

(** A label character by character: an underscore becomes a space, and a
    character that starts the string or follows an underscore goes to
    upper case. *)
Fixpoint label_chars (start : bool) (s : string) : string :=
  match s with
  | EmptyString => EmptyString
  | String c r =>
      if Ascii.eqb c "_" then String " " (label_chars true r)
      else String (if start then upper_char c else c) (label_chars false r)
  end.

(** The colour that goes with a label. *)
Definition colour_of_label (label : string) : string :=
  if String.eqb label "Excellent" then "text-green-600"
  else if String.eqb label "Good" then "text-yellow-600"
  else if String.eqb label "N/A" then "text-gray-500"
  else "text-red-600".

(** The labels from worst to best. *)
Definition rank (label : string) : nat :=
  if String.eqb label "Excellent" then 4
  else if String.eqb label "Good" then 3
  else if String.eqb label "Fair" then 2
  else if String.eqb label "Poor" then 1
  else 0.

(** The rows a list of optional rows shows. *)
Definition shown_rows {A} (rows : list (option A)) : list A :=
  omap (fun r => r) rows.

(** The entries of a record that hold a value. *)
Definition rated (entries : list (string * option number)) : list (string * number) :=
  omap (fun e => option_map (fun v => (fst e, v)) (snd e)) entries.

(** What a stored snapshot must be for the report to get no data from it:
    absent, empty, or a text that is not JSON. *)
Definition unusable (stored : option string) : Prop :=
  match stored with
  | None => True
  | Some text => nonempty text = false \/ Json.parse text = None
  end.

(** The block is a message that replaces the whole report. *)
Definition is_message (b : Ui.Block) : bool :=
  match Ui.kind b with
  | Ui.KMessage => true
  | _ => false
  end.

End Reference2.

(* ===================================================================== *)
(** * Further samples                                                    *)
(* ===================================================================== *)

Module Samples2.
Import JS.

(** A studio: no bedroom. *)
Definition studio : PropertyInfo.t := {|
  PropertyInfo.location := Some "Porto";
  PropertyInfo.size_m2 := Some (Fin 32);
  PropertyInfo.bedrooms := Some (Fin 0);
  PropertyInfo.bathrooms := Some (Fin 1)
|}.

(** A successful analysis with a rent estimate and no financial metrics. *)
Definition rent_only : AnalysisData.t := {|
  AnalysisData.success := Some true;
  AnalysisData.listing_id := None;
  AnalysisData.property_info := None;
  AnalysisData.investment := None;
  AnalysisData.rehab_costs := None;
  AnalysisData.rent_estimate := Some Samples.rent;
  AnalysisData.financial_metrics := None
|}.

(** A blank field with no ASCII space but one: a no-break space, a
    space, an ideographic space and a byte order mark. *)
Definition wide_blank : string :=
  string_of_list_ascii
    (utf8 160 ++ list_ascii_of_string " " ++ utf8 12288 ++ utf8 65279)%list.

(** A page that is not JSON, sent with status 200. *)
Definition html_body : string := "<html>Bad gateway</html>".

End Samples2.

(* ===================================================================== *)
(** * Properties                                                         *)
(* ===================================================================== *)

Import JS Formatters Reference.
Local Open Scope list_scope.

(** ** Strings *)

Lemma append_cons (c : ascii) (a b : string) :
  (String c a ++ b)%string = String c (a ++ b)%string.
Proof. reflexivity. Qed.

Lemma append_empty_r (s : string) : (s ++ EmptyString)%string = s.
Proof.
  induction s as [|c s IH]; [reflexivity|].
  rewrite append_cons, IH. reflexivity.
Qed.

Lemma split_not_nil (sep : ascii) (s : string) : split sep s <> [].
Proof.
  induction s as [|c s IH]; simpl; [discriminate|].
  destruct (Ascii.eqb c sep); [discriminate|].
  destruct (split sep s); [contradiction|discriminate].
Qed.

(** Joining the pieces of [split] with the separator gives the string back. *)
Lemma join_split (sep : ascii) (s : string) :
  join (String sep EmptyString) (split sep s) = s.
Proof.
  induction s as [|c s IH]; [reflexivity|].
  simpl. destruct (Ascii.eqb_spec c sep) as [->|Hne].
  - pose proof (split_not_nil sep s) as Hnn.
    destruct (split sep s) as [|w ws] eqn:E; [contradiction|].
    change (join (String sep EmptyString) (EmptyString :: w :: ws))
      with (EmptyString ++ String sep EmptyString
            ++ join (String sep EmptyString) (w :: ws))%string.
    rewrite IH. reflexivity.
  - pose proof (split_not_nil sep s) as Hnn.
    destruct (split sep s) as [|w ws] eqn:E; [contradiction|].
    destruct ws as [|w' ws'].
    + simpl in *. now rewrite IH.
    + change (join (String sep EmptyString) (String c w :: w' :: ws'))
        with (String c w ++ String sep EmptyString
              ++ join (String sep EmptyString) (w' :: ws'))%string.
      rewrite append_cons. f_equal. exact IH.
Qed.

(** No piece of [split] contains the separator. *)
Lemma split_no_separator (sep : ascii) (s : string) :
  Forall (fun w => occurs sep w = false) (split sep s).
Proof.
  induction s as [|c s IH]; simpl.
  - constructor; [reflexivity|constructor].
  - destruct (Ascii.eqb_spec c sep) as [->|Hne].
    + constructor; [reflexivity|exact IH].
    + destruct (split sep s) as [|w ws].
      * constructor; [|constructor]. simpl.
        rewrite orb_false_r. apply Ascii.eqb_neq. congruence.
      * inversion IH; subst. constructor; [|assumption].
        simpl. apply orb_false_iff. split; [|assumption].
        apply Ascii.eqb_neq. congruence.
Qed.

Lemma capitalize_word (word : string) :
  (toUpperCase (charAt 0 word) ++ slice 1 word)%string = capitalize word.
Proof. destruct word as [|c r]; reflexivity. Qed.

(** C9: [formatRoomType] and [formatCategoryName] are the same function:
    they agree on every input string. *)
Theorem formatRoomType_eq_formatCategoryName (s : string) :
  formatRoomType s = formatCategoryName s.
Proof. unfold formatRoomType, formatCategoryName. reflexivity. Qed.

(** C6, as stated, fails: the characters after the first of each token are
    left as they are, not put in lower case. *)
Lemma formatRoomType_not_title_case :
  formatRoomType "mASTER_bEDROOM" = "MASTER BEDROOM"
  /\ join " " (map title_case (split "_" "mASTER_bEDROOM")) = "Master Bedroom"
  /\ formatRoomType "mASTER_bEDROOM"
     <> join " " (map title_case (split "_" "mASTER_bEDROOM")).
Proof. repeat split; vm_compute; congruence. Qed.

(** C6, amended: for every input whose tokens between underscores start
    with an ASCII character (or are empty), [formatRoomType] and
    [formatCategoryName] cut the string at its underscores (the tokens
    contain none and give the input back when joined with underscores),
    put the first character of each token in upper case leaving the
    others as they are, and join the results with one space between
    consecutive tokens; "living_room" gives "Living Room" and
    "flooring_condition" gives "Flooring Condition". *)
Theorem format_label_capitalizes (s : string) :
  ascii_initials s = true ->
  exists tokens : list string,
    join "_" tokens = s
    /\ Forall (fun w => occurs "_" w = false) tokens
    /\ formatRoomType s = join " " (map capitalize tokens)
    /\ formatCategoryName s = join " " (map capitalize tokens)
    /\ formatRoomType "living_room" = "Living Room"
    /\ formatCategoryName "flooring_condition" = "Flooring Condition".
Proof.
  intros _. exists (split "_" s).
  split; [apply join_split|].
  split; [apply split_no_separator|].
  assert (H : map (fun word => (toUpperCase (charAt 0 word) ++ slice 1 word)%string)
                  (split "_" s) = map capitalize (split "_" s)).
  { apply map_ext. intros w. apply capitalize_word. }
  unfold formatRoomType, formatCategoryName. rewrite H.
  repeat split; reflexivity.
Qed.

(** A label with three tokens, the last of them in capitals. *)
Lemma format_label_capitalizes_witness :
  ascii_initials "master_bedroom_WC" = true
  /\ exists tokens : list string,
       join "_" tokens = "master_bedroom_WC"
       /\ Forall (fun w => occurs "_" w = false) tokens
       /\ formatRoomType "master_bedroom_WC" = join " " (map capitalize tokens)
       /\ formatCategoryName "master_bedroom_WC" = join " " (map capitalize tokens)
       /\ formatRoomType "living_room" = "Living Room"
       /\ formatCategoryName "flooring_condition" = "Flooring Condition".
Proof.
  split; [reflexivity|].
  exact (format_label_capitalizes "master_bedroom_WC" eq_refl).
Defined.

(** ** Condition tiers *)

Lemma ge_Fin (v t : Q) : ge (Fin v) (Fin t) = true <-> (t <= v)%Q.
Proof.
  unfold ge, lt. rewrite negb_involutive. apply Qle_bool_iff.
Qed.

Lemma ge_Fin_false (v t : Q) : ge (Fin v) (Fin t) = false <-> (v < t)%Q.
Proof.
  rewrite <- not_true_iff_false, ge_Fin. split.
  - apply Qnot_le_lt.
  - apply Qlt_not_le.
Qed.

Lemma truthy_Fin (v : Q) : truthy (Some (Fin v)) = false <-> (v == 0)%Q.
Proof.
  simpl. rewrite negb_false_iff. apply Qeq_bool_iff.
Qed.

Lemma truthy_Fin_true (v : Q) : truthy (Some (Fin v)) = true <-> ~ (v == 0)%Q.
Proof.
  rewrite <- truthy_Fin. destruct (truthy (Some (Fin v))); split; congruence.
Qed.

(** C3: [getConditionLabel] on a condition value [v]: "Excellent" when
    [v >= 3.5]; "Good" when [2.5 <= v < 3.5]; "Fair" when [1.5 <= v < 2.5];
    otherwise a label of the bottom tier, which is "Poor" for a non-zero
    number below 1.5 and "N/A" when [v] is absent or zero (and for NaN).
    The boundary values 3.5, 2.5, 1.5, 0 and undefined give "Excellent",
    "Good", "Fair", "N/A" and "N/A". *)
Theorem getConditionLabel_tiers (v : Q) :
  ((3.5 <= v)%Q -> getConditionLabel (Some (Fin v)) = "Excellent")
  /\ ((2.5 <= v)%Q /\ (v < 3.5)%Q -> getConditionLabel (Some (Fin v)) = "Good")
  /\ ((1.5 <= v)%Q /\ (v < 2.5)%Q -> getConditionLabel (Some (Fin v)) = "Fair")
  /\ ((v < 1.5)%Q /\ ~ (v == 0)%Q -> getConditionLabel (Some (Fin v)) = "Poor")
  /\ ((v == 0)%Q -> getConditionLabel (Some (Fin v)) = "N/A")
  /\ getConditionLabel None = "N/A"
  /\ getConditionLabel (Some NaN) = "N/A"
  /\ getConditionLabel (Some (Infinity false)) = "Excellent"
  /\ getConditionLabel (Some (Infinity true)) = "Poor"
  /\ getConditionLabel (Some (Fin 3.5)) = "Excellent"
  /\ getConditionLabel (Some (Fin 2.5)) = "Good"
  /\ getConditionLabel (Some (Fin 1.5)) = "Fair"
  /\ getConditionLabel (Some (Fin 0)) = "N/A".
Proof.
  assert (Hnz : forall t : Q, (0 < t)%Q -> (t <= v)%Q -> truthy (Some (Fin v)) = true).
  { intros t Ht Hv. apply truthy_Fin_true. intros E. rewrite E in Hv.
    exact (Qlt_not_le _ _ Ht Hv). }
  unfold getConditionLabel.
  split; [|split; [|split; [|split; [|split]]]].
  - intros H. rewrite (Hnz 3.5%Q); [|reflexivity|exact H]. simpl negb. cbv iota.
    unfold ToNumber. apply ge_Fin in H. rewrite H. reflexivity.
  - intros [H1 H2]. rewrite (Hnz 2.5%Q); [|reflexivity|exact H1]. simpl negb. cbv iota.
    unfold ToNumber. apply ge_Fin in H1. apply ge_Fin_false in H2.
    rewrite H2, H1. reflexivity.
  - intros [H1 H2]. rewrite (Hnz 1.5%Q); [|reflexivity|exact H1]. simpl negb. cbv iota.
    unfold ToNumber.
    assert (H3 : (v < 3.5)%Q) by (eapply Qlt_trans; [exact H2|reflexivity]).
    apply ge_Fin in H1. apply ge_Fin_false in H2. apply ge_Fin_false in H3.
    rewrite H3, H2, H1. reflexivity.
  - intros [H1 H2]. apply truthy_Fin_true in H2. rewrite H2. simpl negb. cbv iota.
    unfold ToNumber.
    assert (H3 : (v < 2.5)%Q) by (eapply Qlt_trans; [exact H1|reflexivity]).
    assert (H4 : (v < 3.5)%Q) by (eapply Qlt_trans; [exact H1|reflexivity]).
    apply ge_Fin_false in H1. apply ge_Fin_false in H3. apply ge_Fin_false in H4.
    rewrite H4, H3, H1. reflexivity.
  - intros H. apply truthy_Fin in H. rewrite H. reflexivity.
  - repeat split; reflexivity.
Qed.

(** X1: the colour has three tiers where the label has four: green from
    3.5 on, yellow from 2.5 to below 3.5, red below 2.5 -- so "Fair" and
    "Poor" share the lowest one -- and grey for a rating that is zero or
    absent. *)
Lemma getConditionColor_tiers (v : Q) :
  ((3.5 <= v)%Q -> getConditionColor (Some (Fin v)) = "text-green-600")
  /\ ((2.5 <= v)%Q /\ (v < 3.5)%Q -> getConditionColor (Some (Fin v)) = "text-yellow-600")
  /\ ((v < 2.5)%Q /\ ~ (v == 0)%Q -> getConditionColor (Some (Fin v)) = "text-red-600")
  /\ ((v == 0)%Q -> getConditionColor (Some (Fin v)) = "text-gray-500")
  /\ getConditionColor None = "text-gray-500".
Proof.
  assert (Hnz : forall t : Q, (0 < t)%Q -> (t <= v)%Q -> truthy (Some (Fin v)) = true).
  { intros t Ht Hv. apply truthy_Fin_true. intros E. rewrite E in Hv.
    exact (Qlt_not_le _ _ Ht Hv). }
  unfold getConditionColor.
  split; [|split; [|split; [|split]]].
  - intros H. rewrite (Hnz 3.5%Q); [|reflexivity|exact H]. simpl negb. cbv iota.
    unfold ToNumber. apply ge_Fin in H. rewrite H. reflexivity.
  - intros [H1 H2]. rewrite (Hnz 2.5%Q); [|reflexivity|exact H1]. simpl negb. cbv iota.
    unfold ToNumber. apply ge_Fin in H1. apply ge_Fin_false in H2.
    rewrite H2, H1. reflexivity.
  - intros [H1 H2]. apply truthy_Fin_true in H2. rewrite H2. simpl negb. cbv iota.
    unfold ToNumber.
    assert (H3 : (v < 3.5)%Q) by (eapply Qlt_trans; [exact H1|reflexivity]).
    apply ge_Fin_false in H1. apply ge_Fin_false in H3.
    rewrite H3, H1. reflexivity.
  - intros H. apply truthy_Fin in H. rewrite H. reflexivity.
  - reflexivity.
Qed.

(** ** The report views *)

Import Ui ReportParts.

Lemma gt_zero (q : Q) : gt (Fin q) (Fin 0) = true <-> (0 < q)%Q.
Proof.
  unfold gt, lt. rewrite negb_true_iff, <- not_true_iff_false, Qle_bool_iff.
  split; [apply Qnot_le_lt|apply Qlt_not_le].
Qed.

Lemma summary_entries_keys (summary : list (string * number)) :
  map cost_key (summary_entries summary)
  = map fst (List.filter (fun entry => gt (snd entry) (Fin 0)) summary).
Proof.
  unfold summary_entries. rewrite map_map. reflexivity.
Qed.

Lemma summary_entries_In (summary : list (string * number)) (row : CostRow) :
  In row (summary_entries summary) <->
  exists k c, In (k, c) summary /\ gt c (Fin 0) = true /\ row = cost_row (k, c).
Proof.
  unfold summary_entries. rewrite in_map_iff. split.
  - intros [[k c] [<- Hin]]. apply filter_In in Hin as [Hin Hpos].
    exists k, c. auto.
  - intros (k & c & Hin & Hpos & ->). exists (k, c). split; [reflexivity|].
    apply filter_In. auto.
Qed.

Lemma summary_key_rendered (summary : list (string * number)) (k : string) (c : number) :
  List.NoDup (map fst summary) ->
  In (k, c) summary ->
  In k (map cost_key (summary_entries summary)) <-> gt c (Fin 0) = true.
Proof.
  intros Hnd Hin. rewrite summary_entries_keys, in_map_iff. split.
  - intros [[k' c'] [Hk Hin']]. simpl in Hk. subst k'.
    apply filter_In in Hin' as [Hin' Hpos]. simpl in Hpos.
    assert (E : c' = c); [|rewrite <- E; exact Hpos].
    clear Hpos. induction summary as [|[k0 c0] rest IH]; [contradiction|].
    simpl in Hnd. inversion Hnd as [|? ? Hnotin Hnd']; subst.
    destruct Hin as [E|Hin], Hin' as [E'|Hin'].
    + congruence.
    + inversion E; subst. exfalso. apply Hnotin.
      apply in_map_iff. exists (k, c'). auto.
    + inversion E'; subst. exfalso. apply Hnotin.
      apply in_map_iff. exists (k, c). auto.
    + auto.
  - intros Hpos. exists (k, c). split; [reflexivity|].
    apply filter_In. auto.
Qed.

(** C8: in both current report views, for every cost-summary mapping the
    summary block lists exactly the entries whose cost is strictly
    positive: an entry is rendered if and only if its cost is greater than
    zero, so entries with a zero or negative cost are left out and every
    entry with a positive cost is there. *)
Theorem cost_summary_strictly_positive (d : AnalysisData.t) (rc : RehabCosts.t) :
  AnalysisData.success d = Some true ->
  AnalysisData.rehab_costs d = Some rc ->
  List.NoDup (map fst (RehabCosts.summary rc)) ->
  exists rows : list CostRow,
    (exists before,
        ReportCards.Report {| ReportCards.data := d; ReportCards.loading := false |}
        = before ++ [CostSummary rows]
        /\ Forall (fun b => kind b <> KSummary) before)
    /\ (exists before,
        ReportPlain.Report {| ReportPlain.data := d; ReportPlain.loading := false |}
        = before ++ [CostSummary rows]
        /\ Forall (fun b => kind b <> KSummary) before)
    /\ (forall k c, In (k, c) (RehabCosts.summary rc) ->
          (In k (map cost_key rows) <-> gt c (Fin 0) = true))
    /\ (forall k q, In (k, Fin q) (RehabCosts.summary rc) ->
          (In k (map cost_key rows) <-> (0 < q)%Q))
    /\ (forall row, In row rows <->
          exists k c, In (k, c) (RehabCosts.summary rc) /\ gt c (Fin 0) = true
                      /\ row = {| cost_key := k;
                                  cost_name := formatCategoryName k;
                                  cost_amount := formatCurrency c |}).
Proof.
  intros Hs Hrc Hnd. exists (summary_entries (RehabCosts.summary rc)).
  assert (Hkind : forall (A : Type) (o : option A) (f : A -> Block),
             (forall a, kind (f a) <> KSummary) ->
             Forall (fun b => kind b <> KSummary) (and_object o f)).
  { intros A [a|] f Hf; simpl; [constructor; [apply Hf|constructor]|constructor]. }
  assert (Hdiv : Forall (fun b => kind b <> KSummary) (divisions_section d)).
  { unfold divisions_section. rewrite Hrc.
    destruct (0 <? length (RehabCosts.divisions rc))%nat;
      [constructor; [discriminate|constructor]|constructor]. }
  split; [|split; [|split; [|split]]].
  - unfold ReportCards.Report.
    cbv beta iota zeta delta [ReportCards.loading ReportCards.data].
    rewrite Hs. cbv beta iota delta [truthy_bool negb].
    unfold cost_summary. rewrite Hrc. cbv beta iota delta [and_object].
    eexists. split.
    + rewrite !app_assoc. reflexivity.
    + repeat (apply Forall_app; split); try assumption;
        try (apply Hkind; intros; discriminate).
      constructor; [discriminate|constructor].
  - unfold ReportPlain.Report.
    cbv beta iota zeta delta [ReportPlain.loading ReportPlain.data].
    rewrite Hs. cbv beta iota delta [truthy_bool negb].
    unfold cost_summary. rewrite Hrc. cbv beta iota delta [and_object].
    eexists. split.
    + rewrite !app_assoc. reflexivity.
    + repeat (apply Forall_app; split); try assumption;
        try (apply Hkind; intros; discriminate).
      constructor; [discriminate|constructor].
  - intros k c Hin. apply summary_key_rendered; assumption.
  - intros k q Hin. rewrite <- gt_zero. apply summary_key_rendered; assumption.
  - intros row. apply summary_entries_In.
Qed.

(** The summary of the sample analysis: one key for each positive cost. *)
Lemma cost_summary_strictly_positive_witness :
  AnalysisData.success Samples.analysis = Some true
  /\ AnalysisData.rehab_costs Samples.analysis = Some Samples.rehab
  /\ List.NoDup (map fst (RehabCosts.summary Samples.rehab))
  /\ exists rows : list CostRow,
       forall k c, In (k, c) (RehabCosts.summary Samples.rehab) ->
         (In k (map cost_key rows) <-> gt c (Fin 0) = true).
Proof.
  assert (Hnd : List.NoDup (map fst (RehabCosts.summary Samples.rehab))).
  { simpl. repeat constructor; simpl; intuition discriminate. }
  split; [reflexivity|]. split; [reflexivity|]. split; [exact Hnd|].
  destruct (cost_summary_strictly_positive Samples.analysis Samples.rehab
              eq_refl eq_refl Hnd) as (rows & _ & _ & H & _).
  exists rows. exact H.
Defined.

(** ** The rent figure *)

Lemma truthy_number_false (n : number) :
  n <> NaN -> (truthy_number n = false <-> is_zero n).
Proof.
  intros Hn. destruct n as [|neg|q]; simpl.
  - contradiction.
  - split; [discriminate|]. intros (q & E & _). discriminate.
  - rewrite negb_false_iff, Qeq_bool_iff. split.
    + intros H. exists q. auto.
    + intros (q' & E & H). inversion E; subst. exact H.
Qed.

Lemma truthy_false (v : option number) :
  v <> Some NaN -> (truthy v = false <-> absent_or_zero v).
Proof.
  intros Hv. destruct v as [n|]; simpl.
  - rewrite truthy_number_false by congruence. split.
    + intros H. right. exists n. auto.
    + intros [E|(n' & E & H)]; [discriminate|]. inversion E; subst. exact H.
  - split; [left; reflexivity|reflexivity].
Qed.

Lemma rent_figure_cases (r : RentEstimate.t) :
  rent_figure r =
  if truthy (RentEstimate.monthly_rent r) then ToNumber (RentEstimate.monthly_rent r)
  else if truthy (RentEstimate.total_monthly_rent r)
       then ToNumber (RentEstimate.total_monthly_rent r)
       else Fin 0.
Proof.
  unfold rent_figure, or_else, truthy, ToNumber.
  destruct (RentEstimate.monthly_rent r) as [m|],
           (RentEstimate.total_monthly_rent r) as [t|];
    try destruct (truthy_number m) eqn:Em;
    try destruct (truthy_number t) eqn:Et;
    rewrite ?Em, ?Et; try reflexivity.
Qed.

(** C10: the monthly figure of the rental display is
    [monthly_rent || total_monthly_rent || 0], so a zero [monthly_rent]
    counts as an absent one: when [monthly_rent] is absent or zero and
    [total_monthly_rent] is present and not zero the figure displayed is
    [total_monthly_rent], and the figure is 0 exactly when both are absent
    or zero.  Both current report views display [formatCurrency] of that
    figure (the plain one inside its financial metrics block).  The fields
    come from [JSON.parse], which yields no NaN. *)
Theorem rent_fallback_zero_as_absent (d : AnalysisData.t) (r : RentEstimate.t) :
  AnalysisData.success d = Some true ->
  AnalysisData.rent_estimate d = Some r ->
  RentEstimate.monthly_rent r <> Some NaN ->
  RentEstimate.total_monthly_rent r <> Some NaN ->
  (absent_or_zero (RentEstimate.monthly_rent r) ->
   forall n, RentEstimate.total_monthly_rent r = Some n -> ~ is_zero n ->
             rent_figure r = n)
  /\ (is_zero (rent_figure r) <->
      absent_or_zero (RentEstimate.monthly_rent r)
      /\ absent_or_zero (RentEstimate.total_monthly_rent r))
  /\ (exists strategy annual,
        In (RentalPotentialCard (formatCurrency (rent_figure r)) strategy annual)
           (ReportCards.Report {| ReportCards.data := d; ReportCards.loading := false |}))
  /\ (forall fm, AnalysisData.financial_metrics d = Some fm ->
        exists roi net monthly_net annual_net,
          In (FinancialMetricsBlock roi net monthly_net annual_net
                (Some (formatCurrency (rent_figure r))))
             (ReportPlain.Report {| ReportPlain.data := d; ReportPlain.loading := false |})).
Proof.
  intros Hs Hr Hm Ht.
  pose proof (truthy_false _ Hm) as Hmz.
  pose proof (truthy_false _ Ht) as Htz.
  pose proof (rent_figure_cases r) as Hfig.
  split; [|split; [|split]].
  - intros Habs n Hn Hnz.
    apply Hmz in Habs. rewrite Habs in Hfig.
    destruct (truthy (RentEstimate.total_monthly_rent r)) eqn:Et.
    + rewrite Hfig, Hn. reflexivity.
    + exfalso. apply Hnz.
      destruct (proj1 Htz eq_refl) as [E|(n' & E & Hz)]; [congruence|].
      rewrite Hn in E. inversion E; subst. exact Hz.
  - split.
    + intros Hz. rewrite Hfig in Hz.
      destruct (truthy (RentEstimate.monthly_rent r)) eqn:Em.
      * exfalso. destruct (RentEstimate.monthly_rent r) as [m|] eqn:E; [|discriminate].
        simpl in Hz, Em. apply truthy_number_false in Hz; congruence.
      * split; [apply Hmz; reflexivity|].
        destruct (truthy (RentEstimate.total_monthly_rent r)) eqn:Et.
        -- exfalso.
           destruct (RentEstimate.total_monthly_rent r) as [t|] eqn:E; [|discriminate].
           simpl in Hz, Et. apply truthy_number_false in Hz; congruence.
        -- apply Htz. reflexivity.
    + intros [Ha Hb]. apply Hmz in Ha. apply Htz in Hb.
      rewrite Hfig, Ha, Hb. exists 0%Q. split; reflexivity.
  - unfold ReportCards.Report.
    cbv beta iota zeta delta [ReportCards.loading ReportCards.data].
    rewrite Hs, Hr. cbv beta iota delta [truthy_bool negb].
    unfold ReportCards.rental_potential_card at 1.
    do 2 eexists. rewrite !in_app_iff. right. right. right. left.
    simpl. left. reflexivity.
  - intros fm Hfm. unfold ReportPlain.Report.
    cbv beta iota zeta delta [ReportPlain.loading ReportPlain.data].
    rewrite Hs, Hfm. cbv beta iota delta [truthy_bool negb].
    unfold ReportPlain.financial_metrics_block. rewrite Hr.
    do 4 eexists. rewrite !in_app_iff. right. right. right. left.
    simpl. left. reflexivity.
Qed.

(** The sample rent estimate has a zero monthly rent and a total. *)
Lemma rent_fallback_zero_as_absent_witness :
  AnalysisData.success Samples.analysis = Some true
  /\ AnalysisData.rent_estimate Samples.analysis = Some Samples.rent
  /\ RentEstimate.monthly_rent Samples.rent <> Some NaN
  /\ RentEstimate.total_monthly_rent Samples.rent <> Some NaN
  /\ (is_zero (rent_figure Samples.rent) <->
      absent_or_zero (RentEstimate.monthly_rent Samples.rent)
      /\ absent_or_zero (RentEstimate.total_monthly_rent Samples.rent)).
Proof.
  assert (H1 : RentEstimate.monthly_rent Samples.rent <> Some NaN) by discriminate.
  assert (H2 : RentEstimate.total_monthly_rent Samples.rent <> Some NaN) by discriminate.
  split; [reflexivity|]. split; [reflexivity|]. split; [exact H1|]. split; [exact H2|].
  exact (proj1 (proj2 (rent_fallback_zero_as_absent Samples.analysis Samples.rent
                         eq_refl eq_refl H1 H2))).
Defined.

(** ** Failed analyses *)

Lemma ReportCards_mount_loading cast store :
  ReportCards.loading (ReportCards.mount cast store) = false.
Proof. reflexivity. Qed.

Lemma ReportPlain_mount_loading cast store :
  ReportPlain.loading (ReportPlain.mount cast store) = false.
Proof. reflexivity. Qed.




(** ** The submission flow *)

Import Browser.

Lemma drop_prefix_spec (p t r : list ascii) :
  drop_prefix p t = Some r <-> t = p ++ r.
Proof.
  revert t. induction p as [|a p IH]; intros t; cbn [drop_prefix app].
  - split; [intros [= ->]; reflexivity|intros ->; reflexivity].
  - destruct t as [|b t]; [split; discriminate|].
    destruct (Ascii.eqb a b) eqn:E.
    + apply Ascii.eqb_eq in E. subst b. rewrite IH. split; [intros ->|intros [= ->]]; reflexivity.
    + apply Ascii.eqb_neq in E. split; [discriminate|intros [= -> _]; contradiction].
Qed.

Section DropAll.
Variable table : list (list ascii).
Hypothesis table_nonempty : forall w, In w table -> w <> [].
Hypothesis table_prefix_free :
  forall w w' r r', In w table -> In w' table -> w ++ r = w' ++ r' -> w = w'.

Lemma drop_first_Some (t r : list ascii) :
  drop_first table t = Some r -> exists w, In w table /\ t = w ++ r.
Proof.
  clear table_nonempty table_prefix_free.
  induction table as [|w tb IH]; cbn [drop_first]; [discriminate|].
  destruct (drop_prefix w t) as [r0|] eqn:E.
  - intros [= ->]. exists w. split; [left; reflexivity|apply drop_prefix_spec, E].
  - intros H. destruct (IH H) as (w' & Hin & Ht). exists w'. split; [right|]; assumption.
Qed.

Lemma drop_first_None (t : list ascii) :
  drop_first table t = None -> forall w r, In w table -> t <> w ++ r.
Proof.
  clear table_nonempty table_prefix_free.
  induction table as [|w0 tb IH]; cbn [drop_first]; [intros _ w r []|].
  destruct (drop_prefix w0 t) as [r0|] eqn:E; [discriminate|].
  intros H w r [<-|Hin] Ht.
  - apply drop_prefix_spec in Ht. congruence.
  - exact (IH H w r Hin Ht).
Qed.

Lemma drop_first_app (w r : list ascii) :
  In w table -> drop_first table (w ++ r) = Some r.
Proof.
  intros Hw. destruct (drop_first table (w ++ r)) as [r0|] eqn:E.
  - destruct (drop_first_Some _ _ E) as (w' & Hw' & Ht).
    pose proof (table_prefix_free w w' r r0 Hw Hw' Ht) as <-.
    apply app_inv_head in Ht. subst. reflexivity.
  - exfalso. exact (drop_first_None _ E w r Hw eq_refl).
Qed.

Lemma drop_first_nil : drop_first table [] = None.
Proof.
  destruct (drop_first table []) as [r|] eqn:E; [|reflexivity].
  destruct (drop_first_Some _ _ E) as (w & Hw & Ht).
  symmetry in Ht. apply app_eq_nil in Ht as [-> _].
  exfalso. exact (table_nonempty [] Hw eq_refl).
Qed.

Lemma drop_all_spec (n : nat) (t : list ascii) :
  (length t <= n)%nat ->
  exists ws,
    Forall (fun w => In w table) ws
    /\ t = concat ws ++ drop_all n table t
    /\ drop_first table (drop_all n table t) = None.
Proof.
  revert t. induction n as [|n IH]; intros t Hn.
  - destruct t; [|cbn in Hn; lia]. exists []. cbn.
    split; [constructor|split; [reflexivity|apply drop_first_nil]].
  - cbn [drop_all]. destruct (drop_first table t) as [r|] eqn:E.
    + destruct (drop_first_Some _ _ E) as (w & Hw & ->).
      assert (Hr : (length r <= n)%nat).
      { pose proof (table_nonempty w Hw). rewrite length_app in Hn.
        destruct w; [contradiction|cbn in Hn; lia]. }
      destruct (IH r Hr) as (ws & Hws & Ht & Hnone).
      exists (w :: ws). split; [constructor; assumption|].
      split; [|exact Hnone]. cbn [concat]. rewrite <- app_assoc, <- Ht. reflexivity.
    + exists []. split; [constructor|split; [reflexivity|exact E]].
Qed.

Lemma drop_all_concat (ws : list (list ascii)) (n : nat) :
  Forall (fun w => In w table) ws ->
  (length (concat ws) <= n)%nat ->
  drop_all n table (concat ws) = [].
Proof.
  intros Hws. revert n. induction Hws as [|w ws Hw Hws IH]; intros n Hn.
  - destruct n; cbn; [reflexivity|]. rewrite drop_first_nil. reflexivity.
  - cbn [concat] in *. rewrite length_app in Hn.
    pose proof (table_nonempty w Hw) as Hne.
    destruct n as [|n]; [destruct w; [contradiction|cbn in Hn; lia]|].
    cbn [drop_all]. rewrite (drop_first_app w _ Hw). apply IH.
    destruct w; [contradiction|cbn in Hn; lia].
Qed.

End DropAll.

(** Two prefixes of one text: one is a prefix of the other. *)
Lemma prefixes_comparable (w w' r r' : list ascii) :
  w ++ r = w' ++ r' ->
  (exists x, w' = w ++ x) \/ (exists x, w = w' ++ x).
Proof.
  revert w'. induction w as [|a w IH]; intros w' H.
  - left. exists w'. reflexivity.
  - destruct w' as [|b w']; [right; exists (a :: w); reflexivity|].
    cbn in H. injection H as <- H.
    destruct (IH w' H) as [(x & ->)|(x & ->)]; [left|right]; exists x; reflexivity.
Qed.

Lemma prefix_free_spec (table : list (list ascii)) :
  prefix_free table = true ->
  forall w w' r r', In w table -> In w' table -> w ++ r = w' ++ r' -> w = w'.
Proof.
  intros Hpf w w' r r' Hw Hw' H. unfold prefix_free in Hpf.
  rewrite forallb_forall in Hpf.
  assert (Hc : forall a b, In a table -> In b table -> (exists x, b = a ++ x) -> a = b).
  { intros a b Ha Hb (x & Hx).
    pose proof (Hpf a Ha) as H1. rewrite forallb_forall in H1.
    pose proof (H1 b Hb) as H2. apply orb_true_iff in H2 as [H2|H2].
    - apply bool_decide_eq_true in H2. exact H2.
    - apply drop_prefix_spec in Hx. rewrite Hx in H2. discriminate. }
  destruct (prefixes_comparable w w' r r' H) as [Hx|Hx].
  - apply Hc; assumption.
  - symmetry. apply Hc; assumption.
Qed.

Lemma white_space_nonempty (w : list ascii) : In w white_space -> w <> [].
Proof.
  intros Hin ->.
  assert (H : forallb (fun w => negb (Nat.eqb (length w) 0)) white_space = true)
    by (vm_compute; reflexivity).
  rewrite forallb_forall in H. specialize (H [] Hin). discriminate.
Qed.

Lemma white_space_prefix_free (w w' r r' : list ascii) :
  In w white_space -> In w' white_space -> w ++ r = w' ++ r' -> w = w'.
Proof. apply prefix_free_spec. vm_compute. reflexivity. Qed.

Lemma white_space_rev_nonempty (w : list ascii) :
  In w (map (@rev ascii) white_space) -> w <> [].
Proof.
  intros Hin ->.
  assert (H : forallb (fun w => negb (Nat.eqb (length w) 0))
                      (map (@rev ascii) white_space) = true)
    by (vm_compute; reflexivity).
  rewrite forallb_forall in H. specialize (H [] Hin). discriminate.
Qed.

Lemma white_space_rev_prefix_free (w w' r r' : list ascii) :
  In w (map (@rev ascii) white_space) -> In w' (map (@rev ascii) white_space) ->
  w ++ r = w' ++ r' -> w = w'.
Proof. apply prefix_free_spec. vm_compute. reflexivity. Qed.

(** [whitespace_only] holds of the concatenations of white-space
    characters. *)
Lemma spaces_only_spec (n : nat) (t : list ascii) :
  (length t <= n)%nat ->
  spaces_only n t = true
  <-> exists ws, Forall (fun w => In w white_space) ws /\ t = concat ws.
Proof.
  revert t. induction n as [|n IH]; intros t Hn.
  - destruct t; [|cbn in Hn; lia]. cbn. split; [|reflexivity].
    intros _. exists []. split; [constructor|reflexivity].
  - destruct t as [|c t].
    { cbn. split; [|reflexivity]. intros _. exists []. split; [constructor|reflexivity]. }
    cbn [spaces_only]. rewrite existsb_exists. split.
    + intros (cp & Hcp & H).
      destruct (drop_prefix (utf8 cp) (c :: t)) as [r|] eqn:E; [|discriminate].
      apply drop_prefix_spec in E.
      assert (Hw : In (utf8 cp) white_space) by (apply in_map; exact Hcp).
      assert (Hr : (length r <= n)%nat).
      { pose proof (white_space_nonempty _ Hw).
        apply (f_equal (@length ascii)) in E. rewrite length_app in E.
        destruct (utf8 cp); [contradiction|cbn in *; lia]. }
      apply (IH r Hr) in H. destruct H as (ws & Hws & ->).
      exists (utf8 cp :: ws). split; [constructor; assumption|exact E].
    + intros (ws & Hws & Ht). destruct Hws as [|w ws Hw Hws]; [discriminate|].
      cbn [concat] in Ht. pose proof Hw as Hw'.
      apply in_map_iff in Hw' as (cp & <- & Hcp).
      exists cp. split; [exact Hcp|].
      rewrite (proj2 (drop_prefix_spec _ _ _) Ht).
      apply IH; [|exists ws; split; [exact Hws|reflexivity]].
      pose proof (white_space_nonempty _ Hw).
      apply (f_equal (@length ascii)) in Ht. rewrite length_app in Ht.
      destruct (utf8 cp); [contradiction|cbn in *; lia].
Qed.

Lemma nonempty_string_of_list (t : list ascii) :
  nonempty (string_of_list_ascii t) = false <-> t = [].
Proof. destruct t; cbn; split; intros H; try reflexivity; discriminate. Qed.

(** Trimming leaves nothing exactly when the string is white space only. *)
Lemma trim_blank (s : string) :
  nonempty (trim s) = false <-> whitespace_only s = true.
Proof.
  unfold whitespace_only. cbv zeta.
  rewrite (spaces_only_spec _ _ (le_n _)).
  unfold trim, trimStart, trimEnd. cbv zeta.
  rewrite list_ascii_of_string_of_list_ascii.
  set (t := list_ascii_of_string s).
  set (t1 := drop_all (length t) white_space t).
  rewrite nonempty_string_of_list.
  destruct (drop_all_spec white_space white_space_nonempty (length t) t (le_n _))
    as (ws & Hws & Ht & Hnone).
  fold t1 in Ht, Hnone.
  split.
  - intros H. apply (f_equal (@rev ascii)) in H. rewrite rev_involutive in H.
    cbn [rev] in H.
    destruct (drop_all_spec _ white_space_rev_nonempty (length (rev t1)) (rev t1) (le_n _))
      as (ws' & Hws' & Ht' & _).
    rewrite H, app_nil_r in Ht'.
    assert (E : t1 = []).
    { destruct ws' as [|w' ws'] using rev_ind.
      - cbn in Ht'. apply (f_equal (@rev ascii)) in Ht'.
        rewrite rev_involutive in Ht'. exact Ht'.
      - exfalso. apply Forall_app in Hws' as [_ Hw'].
        inversion Hw' as [|? ? Hin _]; subst.
        apply in_map_iff in Hin as (w & <- & Hw).
        rewrite concat_app in Ht'. cbn [concat] in Ht'. rewrite app_nil_r in Ht'.
        apply (f_equal (@rev ascii)) in Ht'.
        rewrite rev_involutive, rev_app_distr, rev_involutive in Ht'.
        exact (drop_first_None _ _ Hnone w _ Hw Ht'). }
    exists ws. split; [exact Hws|]. rewrite Ht, E, app_nil_r. reflexivity.
  - intros (ws0 & Hws0 & Ht0).
    assert (E : t1 = []).
    { unfold t1. rewrite Ht0.
      apply (drop_all_concat _ white_space_nonempty white_space_prefix_free);
        [exact Hws0|rewrite <- Ht0; apply le_n]. }
    rewrite E. reflexivity.
Qed.

(** C4: when the input is empty or white space only, submitting warns the
    user and does nothing else: no request goes out, the session store is
    as before, and so are the field, the loading flag and the route. *)
Theorem blank_submit_does_nothing (w : World) :
  whitespace_only (link w) = true ->
  requests (Home.submit w) = requests w
  /\ sessionStorage (Home.submit w) = sessionStorage w
  /\ alerts (Home.submit w) = alerts w ++ ["Please enter a property link"%string]
  /\ link (Home.submit w) = link w
  /\ loading (Home.submit w) = loading w
  /\ route (Home.submit w) = route w.
Proof.
  intros Hb. apply trim_blank in Hb.
  unfold Home.submit, Home.handleSubmit, bind, read. simpl.
  rewrite Hb. simpl. repeat split; reflexivity.
Qed.

(** A field of white space most of which is beyond ASCII. *)
Lemma blank_submit_does_nothing_witness :
  whitespace_only (link (Samples.world Samples2.wide_blank (Rejected NotAnError))) = true
  /\ requests (Home.submit (Samples.world Samples2.wide_blank (Rejected NotAnError))) = []
  /\ sessionStorage (Home.submit (Samples.world Samples2.wide_blank (Rejected NotAnError)))
     = ∅.
Proof.
  assert (Hb : whitespace_only
                 (link (Samples.world Samples2.wide_blank (Rejected NotAnError))) = true)
    by (vm_compute; reflexivity).
  split; [exact Hb|].
  pose proof (blank_submit_does_nothing
                (Samples.world Samples2.wide_blank (Rejected NotAnError)) Hb) as H.
  split; [exact (proj1 H)|exact (proj1 (proj2 H))].
Defined.

Lemma prefix_of_app (n t : string) : prefix_of n (n ++ t)%string = true.
Proof.
  induction n as [|c n IH]; [destruct t; reflexivity|].
  rewrite append_cons. simpl. rewrite Ascii.eqb_refl. exact IH.
Qed.

Lemma substring_of_app (p n t : string) :
  substring_of n (p ++ n ++ t)%string = true.
Proof.
  induction p as [|c p IH].
  - change (EmptyString ++ n ++ t)%string with (n ++ t)%string.
    destruct (n ++ t)%string eqn:E; simpl; rewrite <- E, prefix_of_app; reflexivity.
  - rewrite append_cons. simpl. rewrite IH. apply orb_true_r.
Qed.

Lemma substring_of_head (c : ascii) (n hay : string) :
  substring_of (String c n) hay = true -> occurs c hay = true.
Proof.
  induction hay as [|h hay IH]; simpl; [discriminate|].
  intros H. apply orb_true_iff in H as [H|H].
  - apply andb_true_iff in H as [H _]. rewrite H. reflexivity.
  - rewrite (IH H). apply orb_true_r.
Qed.

Lemma string_of_uint_digits (d : Decimal.uint) :
  Forall (fun c => Json.is_digit c = true)
         (list_ascii_of_string (NilEmpty.string_of_uint d)).
Proof.
  induction d; simpl; constructor; try reflexivity; assumption.
Qed.

Lemma unorm_not_Nil (d : Decimal.uint) : Decimal.unorm d <> Decimal.Nil.
Proof.
  unfold Decimal.unorm. destruct (Decimal.nzhead d); discriminate.
Qed.

Lemma nat_to_uint_not_Nil (n : nat) : Nat.to_uint n <> Decimal.Nil.
Proof.
  rewrite <- (DecimalNat.Unsigned.of_to n) at 1.
  rewrite DecimalNat.Unsigned.to_of. apply unorm_not_Nil.
Qed.

(** The decimal numeral of a status starts with a digit. *)
Lemma nat_to_string_head (n : nat) :
  exists c r, nat_to_string n = String c r /\ Json.is_digit c = true.
Proof.
  unfold nat_to_string. pose proof (nat_to_uint_not_Nil n) as Hn.
  pose proof (string_of_uint_digits (Nat.to_uint n)) as Hd.
  destruct (Nat.to_uint n); try contradiction; simpl in *;
    inversion Hd; subst; eauto.
Qed.

(** C5, as stated, fails for a network error: [fetch] rejects before there
    is any response, and the message shown carries the text of the
    rejection; no status and body are in it. *)
Lemma network_error_alert_has_no_status :
  alerts (Home.submit (Samples.world "https://www.idealista.pt/imovel/1/"
                         (Rejected (Error "Failed to fetch"))))
  = ["Failed to analyze property: Failed to fetch"%string]
  /\ forall (st : nat) (txt : string),
       substring_of (nat_to_string st ++ " " ++ txt)%string
                    "Failed to analyze property: Failed to fetch" = false.
Proof.
  split; [vm_compute; reflexivity|].
  intros st txt. apply not_true_iff_false. intros H.
  destruct (nat_to_string_head st) as (c & r & E & Hc).
  rewrite E, append_cons in H. apply substring_of_head in H.
  destruct c as [[] [] [] [] [] [] [] []]; try discriminate Hc;
    vm_compute in H; discriminate H.
Qed.

(** What [analyzeProperty] does, by the outcome of its request. *)
Lemma analyzeProperty_run (l : string) (w : World) :
  Api.analyzeProperty l w =
  let req := Api.analyze_request (Api.API_BASE w) l in
  let w' := set_requests (requests w ++ [req]) w in
  match network w req with
  | Rejected e => (Throw e, w')
  | Responded st txt =>
      if ok {| status := st; response_text := txt |} then
        match Json.parse txt with
        | Some v => (Return v, w')
        | None => (Throw (Error (syntax_error_message w txt)), w')
        end
      else
        (Throw (Error ("Failed to analyze property: "
                       ++ nat_to_string st ++ " " ++ txt)%string), w')
  end.
Proof.
  unfold Api.analyzeProperty, bind, read, fetch.
  cbv zeta.
  destruct (network w (Api.analyze_request (Api.API_BASE w) l)) as [e|st txt];
    [reflexivity|].
  destruct (ok {| status := st; response_text := txt |}) eqn:Hok.
  - cbv beta iota delta [negb]. unfold Response_json.
    cbv beta iota delta [response_text].
    destruct (Json.parse txt); reflexivity.
  - reflexivity.
Qed.

(** What the handler does once the input has passed the check. *)
Lemma submit_run (w : World) :
  nonempty (trim (link w)) = true ->
  Home.submit w =
  match Api.analyzeProperty (link w) (set_loading true w) with
  | (Return data, w1) =>
      set_route "/report"
        (set_sessionStorage
           (<["analysisData"%string := Json.stringify data]> (sessionStorage w1)) w1)
  | (Throw e, w1) =>
      set_loading false
        (set_alerts
           (alerts w1 ++ [("Failed to analyze property: " ++ Home.errorMessage e)%string])
           w1)
  end.
Proof.
  intros Hne.
  unfold Home.submit, Home.handleSubmit, bind at 1, read at 1.
  cbv beta iota. rewrite Hne. cbv beta iota delta [negb].
  unfold bind at 1, setLoading at 1, update at 1. cbv beta iota.
  unfold try_catch, bind at 1.
  destruct (Api.analyzeProperty (link w) (set_loading true w)) as [[data|e] w1];
    reflexivity.
Qed.

Lemma nonblank_trim (s : string) :
  whitespace_only s = false -> nonempty (trim s) = true.
Proof.
  intros H. destruct (nonempty (trim s)) eqn:E; [reflexivity|].
  apply trim_blank in E. congruence.
Qed.

(** C5, amended: whenever the request fails -- [fetch] rejects, or the
    response has a status outside 200-299 -- the handler shows one error
    message, sets the loading flag back to false, and leaves the text of
    the field, the session store and the route as they were; one request
    went out.  For a response with a failing status the message embeds the
    status and the text of the body; for a rejected [fetch] it embeds the
    message of the rejection. *)
Theorem failed_submit_alerts_and_resets (w : World) :
  whitespace_only (link w) = false ->
  transport_failure (network w (Api.analyze_request (Api.API_BASE w) (link w))) ->
  (forall st txt,
      network w (Api.analyze_request (Api.API_BASE w) (link w)) = Responded st txt ->
      alerts (Home.submit w)
      = alerts w ++ [("Failed to analyze property: "
                      ++ ("Failed to analyze property: "
                          ++ nat_to_string st ++ " " ++ txt))%string]
      /\ substring_of (nat_to_string st ++ " " ++ txt)%string
           ("Failed to analyze property: "
            ++ ("Failed to analyze property: "
                ++ nat_to_string st ++ " " ++ txt))%string = true)
  /\ (forall e,
      network w (Api.analyze_request (Api.API_BASE w) (link w)) = Rejected e ->
      alerts (Home.submit w)
      = alerts w ++ [("Failed to analyze property: " ++ Home.errorMessage e)%string])
  /\ loading (Home.submit w) = false
  /\ Home.submit_disabled (Home.submit w) = false
  /\ Home.submit_disabled_plain (Home.submit w) = false
  /\ link (Home.submit w) = link w
  /\ sessionStorage (Home.submit w) = sessionStorage w
  /\ route (Home.submit w) = route w
  /\ requests (Home.submit w)
     = requests w ++ [Api.analyze_request (Api.API_BASE w) (link w)].
Proof.
  intros Hnb Hfail.
  assert (Hlink : nonempty (link w) = true).
  { destruct (link w); [discriminate Hnb|reflexivity]. }
  unfold Home.submit_disabled, Home.submit_disabled_plain.
  rewrite (submit_run w (nonblank_trim _ Hnb)), analyzeProperty_run.
  cbv zeta.
  change (Api.API_BASE (set_loading true w)) with (Api.API_BASE w).
  change (link (set_loading true w)) with (link w).
  change (network (set_loading true w)) with (network w).
  destruct (network w (Api.analyze_request (Api.API_BASE w) (link w)))
    as [e|st txt] eqn:Hnet.
  - split; [intros st' txt' H; discriminate H|].
    split; [intros e' H; inversion H; subst; reflexivity|].
    cbn [link loading set_loading set_alerts set_requests].
    rewrite Hlink. repeat split; reflexivity.
  - unfold transport_failure in Hfail. rewrite Hfail.
    split.
    { intros st' txt' H. inversion H; subst. split; [reflexivity|].
      pose proof (substring_of_app
                    "Failed to analyze property: Failed to analyze property: "
                    (nat_to_string st' ++ " " ++ txt')%string EmptyString) as Hsub.
      rewrite append_empty_r in Hsub. exact Hsub. }
    split; [intros e H; discriminate H|].
    cbn [link loading set_loading set_alerts set_requests].
    rewrite Hlink. repeat split; reflexivity.
Qed.

(** A response with status 500. *)
Lemma failed_submit_alerts_and_resets_witness :
  whitespace_only (link (Samples.world "https://www.idealista.pt/imovel/1/"
                           (Responded 500 "Internal Server Error"))) = false
  /\ transport_failure (Responded 500 "Internal Server Error")
  /\ loading (Home.submit (Samples.world "https://www.idealista.pt/imovel/1/"
                             (Responded 500 "Internal Server Error"))) = false
  /\ link (Home.submit (Samples.world "https://www.idealista.pt/imovel/1/"
                          (Responded 500 "Internal Server Error")))
     = "https://www.idealista.pt/imovel/1/"%string.
Proof.
  split; [reflexivity|]. split; [reflexivity|].
  pose proof (failed_submit_alerts_and_resets
                (Samples.world "https://www.idealista.pt/imovel/1/"
                   (Responded 500 "Internal Server Error"))
                eq_refl eq_refl) as H.
  split; [exact (proj1 (proj2 (proj2 H)))|].
  exact (proj1 (proj2 (proj2 (proj2 (proj2 (proj2 H)))))).
Defined.

(** ** Currency *)

Lemma list_ascii_of_string_app (a b : string) :
  list_ascii_of_string (a ++ b)%string
  = list_ascii_of_string a ++ list_ascii_of_string b.
Proof.
  induction a as [|c a IH]; [reflexivity|].
  rewrite append_cons. simpl. rewrite IH. reflexivity.
Qed.

Lemma strip_prefix_app (p t : list ascii) : Json.strip_prefix p (p ++ t) = Some t.
Proof.
  induction p as [|c p IH]; [reflexivity|].
  simpl. rewrite Ascii.eqb_refl. exact IH.
Qed.

Lemma strip_suffix_app (suffix t : list ascii) :
  strip_suffix suffix (t ++ suffix) = Some t.
Proof.
  unfold strip_suffix. rewrite rev_app_distr, strip_prefix_app. simpl.
  rewrite rev_involutive. reflexivity.
Qed.

Lemma n_to_uint_not_Nil (n : N) : N.to_uint n <> Decimal.Nil.
Proof.
  rewrite <- (DecimalN.Unsigned.of_to n) at 1.
  rewrite DecimalN.Unsigned.to_of. apply unorm_not_Nil.
Qed.

Lemma read_digits_of_N (n : N) :
  read_digits (list_ascii_of_string (Intl.digits_of_N n)) = Some n.
Proof.
  unfold read_digits, Intl.digits_of_N.
  rewrite string_of_list_ascii_of_string, NilEmpty.usu. simpl.
  rewrite DecimalN.Unsigned.of_to.
  pose proof (n_to_uint_not_Nil n) as Hn.
  destruct (N.to_uint n); try contradiction; reflexivity.
Qed.

Lemma digit_not_in_nbsp (c : ascii) :
  Json.is_digit c = true -> occurs c Intl.nbsp = false.
Proof.
  destruct c as [[] [] [] [] [] [] [] []]; intros H; try discriminate H; reflexivity.
Qed.

(** Dropping the bytes of the separator from a grouped numeral gives the
    numeral back. *)
Lemma ungroup_group_from (ds : string) :
  Forall (fun c => Json.is_digit c = true) (list_ascii_of_string ds) ->
  List.filter (fun c => negb (occurs c Intl.nbsp))
    (list_ascii_of_string (Intl.group_from Intl.nbsp ds))
  = list_ascii_of_string ds.
Proof.
  induction ds as [|c r IH]; intros Hd; [reflexivity|].
  simpl in Hd. inversion Hd as [|? ? Hc Hr]; subst.
  cbn [Intl.group_from].
  destruct ((String.length r mod 3 =? 0)%nat && negb (String.length r =? 0)%nat).
  - cbn [list_ascii_of_string]. rewrite list_ascii_of_string_app.
    cbn [List.filter]. rewrite (digit_not_in_nbsp c Hc). cbn [negb].
    rewrite List.filter_app, (IH Hr). reflexivity.
  - cbn [list_ascii_of_string List.filter].
    rewrite (digit_not_in_nbsp c Hc). cbn [negb]. rewrite (IH Hr). reflexivity.
Qed.

Lemma ungroup_group (ds : string) :
  Forall (fun c => Json.is_digit c = true) (list_ascii_of_string ds) ->
  List.filter (fun c => negb (occurs c Intl.nbsp))
    (list_ascii_of_string (Intl.group Intl.pt_PT_EUR ds))
  = list_ascii_of_string ds.
Proof.
  intros Hd. unfold Intl.group.
  destruct (3 + Intl.minimum_grouping_digits Intl.pt_PT_EUR <=? String.length ds)%nat.
  - apply ungroup_group_from. exact Hd.
  - induction Hd as [|c l Hc Hl IH]; [reflexivity|].
    cbn [List.filter]. rewrite (digit_not_in_nbsp c Hc). cbn [negb].
    rewrite IH. reflexivity.
Qed.

Lemma digits_of_N_digits (n : N) :
  Forall (fun c => Json.is_digit c = true)
         (list_ascii_of_string (Intl.digits_of_N n)).
Proof. apply string_of_uint_digits. Qed.

(** A grouped numeral starts with the first digit of the numeral. *)
Lemma group_head (n : N) :
  exists c r, list_ascii_of_string (Intl.group Intl.pt_PT_EUR (Intl.digits_of_N n)) = c :: r
              /\ Json.is_digit c = true.
Proof.
  pose proof (digits_of_N_digits n) as Hd.
  pose proof (n_to_uint_not_Nil n) as Hn.
  unfold Intl.group, Intl.digits_of_N in *.
  destruct (NilEmpty.string_of_uint (N.to_uint n)) as [|c r] eqn:E.
  - destruct (N.to_uint n); try contradiction; discriminate E.
  - simpl in Hd. inversion Hd; subst.
    destruct (3 + Intl.minimum_grouping_digits Intl.pt_PT_EUR <=? String.length (String c r))%nat.
    + cbn [Intl.group_from].
      destruct ((String.length r mod 3 =? 0)%nat && negb (String.length r =? 0)%nat);
        cbn [list_ascii_of_string]; eauto.
    + cbn [list_ascii_of_string]; eauto.
Qed.

Lemma numeric_part_formatCurrency (q : Q) :
  numeric_part Intl.pt_PT_EUR (formatCurrency (Fin q))
  = Some (if is_negative q
          then - Z.of_N (Intl.round_half_expand q)
          else Z.of_N (Intl.round_half_expand q))%Z.
Proof.
  unfold formatCurrency, Intl.format_currency0, numeric_part.
  set (n := Intl.round_half_expand q).
  cbv zeta.
  change (Intl.currency_prefix Intl.pt_PT_EUR) with EmptyString.
  change (EmptyString ++ Intl.group Intl.pt_PT_EUR (Intl.digits_of_N n)
          ++ Intl.currency_suffix Intl.pt_PT_EUR)%string
    with (Intl.group Intl.pt_PT_EUR (Intl.digits_of_N n)
          ++ Intl.currency_suffix Intl.pt_PT_EUR)%string.
  change (Intl.group_separator Intl.pt_PT_EUR) with Intl.nbsp.
  destruct (group_head n) as (c & r & Hg & Hc).
  assert (Hrest :
    match Json.strip_prefix (list_ascii_of_string EmptyString)
            (list_ascii_of_string (Intl.group Intl.pt_PT_EUR (Intl.digits_of_N n))
             ++ list_ascii_of_string (Intl.currency_suffix Intl.pt_PT_EUR)) with
    | Some t2 =>
        match strip_suffix (list_ascii_of_string (Intl.currency_suffix Intl.pt_PT_EUR)) t2 with
        | Some t3 =>
            read_digits (List.filter (fun c => negb (occurs c Intl.nbsp)) t3)
        | None => None
        end
    | None => None
    end = Some n).
  { cbn [list_ascii_of_string Json.strip_prefix].
    rewrite strip_suffix_app, ungroup_group by apply digits_of_N_digits.
    apply read_digits_of_N. }
  destruct (is_negative q).
  - rewrite append_cons. cbn [list_ascii_of_string].
    change (EmptyString ++ Intl.group Intl.pt_PT_EUR (Intl.digits_of_N n)
            ++ Intl.currency_suffix Intl.pt_PT_EUR)%string
      with (Intl.group Intl.pt_PT_EUR (Intl.digits_of_N n)
            ++ Intl.currency_suffix Intl.pt_PT_EUR)%string.
    rewrite list_ascii_of_string_app.
    destruct (Json.strip_prefix _ _) as [t2|]; [|discriminate Hrest].
    destruct (strip_suffix _ t2) as [t3|]; [|discriminate Hrest].
    rewrite Hrest. reflexivity.
  - change (EmptyString ++ Intl.group Intl.pt_PT_EUR (Intl.digits_of_N n)
            ++ Intl.currency_suffix Intl.pt_PT_EUR)%string
      with (Intl.group Intl.pt_PT_EUR (Intl.digits_of_N n)
            ++ Intl.currency_suffix Intl.pt_PT_EUR)%string.
    rewrite list_ascii_of_string_app.
    assert (Hsign :
      forall t : list ascii,
        match (c :: r) ++ t with "-"%char :: _ => true | _ => false end = false
        /\ match (c :: r) ++ t with "-"%char :: r' => r' | _ => (c :: r) ++ t end
           = (c :: r) ++ t).
    { intros t. clear -Hc.
      destruct c as [[] [] [] [] [] [] [] []]; try discriminate Hc; split; reflexivity. }
    rewrite Hg in *.
    destruct (Hsign (list_ascii_of_string (Intl.currency_suffix Intl.pt_PT_EUR)))
      as [-> ->].
    destruct (Json.strip_prefix _ _) as [t2|]; [|discriminate Hrest].
    destruct (strip_suffix _ t2) as [t3|]; [|discriminate Hrest].
    rewrite Hrest. reflexivity.
Qed.

(** Rounding half away from zero lands within one half of the amount. *)
Lemma round_half_expand_nearest (q : Q) :
  (Qabs (q - inject_Z (if is_negative q
                       then - Z.of_N (Intl.round_half_expand q)
                       else Z.of_N (Intl.round_half_expand q))) <= 1 # 2)%Q.
Proof.
  unfold Intl.round_half_expand, is_negative.
  destruct q as [num den].
  assert (Hm : (0 <= (2 * Z.abs num + Z.pos den) / (2 * Z.pos den))%Z).
  { apply Z.div_pos; lia. }
  cbn [Qabs Qnum Qden].
  rewrite Z2N.id by exact Hm.
  pose proof (Z.mul_div_le (2 * Z.abs num + Z.pos den) (2 * Z.pos den) ltac:(lia)) as Hlo.
  pose proof (Z.mul_succ_div_gt (2 * Z.abs num + Z.pos den) (2 * Z.pos den) ltac:(lia)) as Hhi.
  set (m := ((2 * Z.abs num + Z.pos den) / (2 * Z.pos den))%Z) in *.
  destruct (Qle_bool 0 (num # den)) eqn:Hs; cbn [negb].
  - apply Qle_bool_iff in Hs. unfold Qle in Hs. cbn in Hs.
    apply Qabs_Qle_condition. unfold Qle, Qminus, Qplus, Qopp, inject_Z. cbn.
    split; nia.
  - apply not_true_iff_false in Hs. rewrite Qle_bool_iff in Hs.
    apply Qnot_le_lt in Hs. unfold Qlt in Hs. cbn in Hs.
    apply Qabs_Qle_condition. unfold Qle, Qminus, Qplus, Qopp, inject_Z. cbn.
    split; nia.
Qed.

(** C7: for every finite amount, [formatCurrency] returns a string in the
    pt-PT form of a EUR amount without fraction digits: an optional minus
    sign, the digits of an integer in groups, a no-break space and the
    euro sign; the integer spelled is the amount rounded to the nearest
    integer (it is within one half of the amount).  [formatCurrency(1234.6)]
    shows 1235 followed by the euro sign. *)
Theorem formatCurrency_rounds_to_integer (q : Q) :
  exists n : Z,
    numeric_part Intl.pt_PT_EUR (formatCurrency (Fin q)) = Some n
    /\ (Qabs (q - inject_Z n) <= 1 # 2)%Q
    /\ formatCurrency (Fin 1234.6) = ("1235" ++ Intl.nbsp ++ Intl.euro)%string
    /\ numeric_part Intl.pt_PT_EUR (formatCurrency (Fin 1234.6)) = Some 1235%Z
    /\ formatCurrency (Fin 12345.5)
       = ("12" ++ Intl.nbsp ++ "346" ++ Intl.nbsp ++ Intl.euro)%string.
Proof.
  eexists. split; [apply numeric_part_formatCurrency|].
  split; [apply round_half_expand_nearest|].
  repeat split; vm_compute; reflexivity.
Qed.

(** ** JSON: numbers *)

Import Json.

Lemma ends_value_follows_number (t : text) :
  ends_value t = true -> follows_number t.
Proof.
  destruct t as [|c t]; [constructor|]. simpl.
  destruct c as [[] [] [] [] [] [] [] []]; intros H; try discriminate H;
    repeat split; discriminate.
Qed.

Lemma span_digits_app (ds rest : text) :
  Forall (fun c => is_digit c = true) ds ->
  match rest with [] => True | c :: _ => is_digit c = false end ->
  span_digits (ds ++ rest) = (ds, rest).
Proof.
  intros Hd Hr. induction Hd as [|c ds Hc Hds IH]; simpl.
  - destruct rest as [|c r]; [reflexivity|]. simpl. rewrite Hr. reflexivity.
  - rewrite Hc, IH. reflexivity.
Qed.

Lemma N_of_digits_of_N (n : N) : N_of_digits (digits_of_N n) = n.
Proof.
  unfold N_of_digits, digits_of_N.
  rewrite string_of_list_ascii_of_string, NilEmpty.usu.
  apply DecimalN.Unsigned.of_to.
Qed.

Lemma digits_of_N_all_digits (n : N) :
  Forall (fun c => is_digit c = true) (digits_of_N n).
Proof. apply string_of_uint_digits. Qed.

Lemma digits_of_N_not_nil (n : N) : digits_of_N n <> [].
Proof.
  unfold digits_of_N. pose proof (n_to_uint_not_Nil n) as Hn.
  destruct (N.to_uint n); try contradiction; discriminate.
Qed.

Lemma repeat_zero_digits (k : nat) :
  Forall (fun c => is_digit c = true) (repeat "0"%char k).
Proof. induction k; simpl; constructor; [reflexivity|assumption]. Qed.

(** The parts of [canonical]. *)
Lemma canonical_inv (ds : text) :
  canonical ds = true ->
  Forall (fun c => is_digit c = true) ds
  /\ (exists c r, ds = c :: r /\ is_zero_digit c = false)
  /\ (exists r c, ds = r ++ [c] /\ is_zero_digit c = false).
Proof.
  unfold canonical. intros H.
  apply andb_true_iff in H as [H Hlast]. apply andb_true_iff in H as [Hall Hfirst].
  split; [apply List.Forall_forall; intros c Hc;
          exact (proj1 (forallb_forall _ _) Hall c Hc)|].
  split.
  - destruct ds as [|c r]; [discriminate|]. exists c, r.
    split; [reflexivity|]. now apply negb_true_iff.
  - destruct (rev ds) as [|c r] eqn:E; [discriminate|].
    exists (rev r), c. split; [|now apply negb_true_iff].
    rewrite <- (rev_involutive ds), E. reflexivity.
Qed.

Lemma strip_leading_zeros_nonzero (c : ascii) (r : text) :
  is_zero_digit c = false -> strip_leading_zeros (c :: r) = c :: r.
Proof. intros H. simpl. rewrite H. reflexivity. Qed.

Lemma strip_leading_zeros_repeat (k : nat) (t : text) :
  strip_leading_zeros (repeat "0"%char k ++ t) = strip_leading_zeros t.
Proof. induction k; simpl; [reflexivity|assumption]. Qed.

Lemma strip_trailing_zeros_last (r : text) (c : ascii) :
  is_zero_digit c = false -> strip_trailing_zeros (r ++ [c]) = r ++ [c].
Proof.
  intros H. induction r as [|d r IH]; simpl.
  - rewrite H. reflexivity.
  - rewrite IH. destruct (r ++ [c]) eqn:E; [|reflexivity].
    destruct r; discriminate E.
Qed.

Lemma strip_trailing_zeros_repeat (k : nat) :
  strip_trailing_zeros (repeat "0"%char k) = [].
Proof. induction k; simpl; [reflexivity|]. rewrite IHk. reflexivity. Qed.

Lemma strip_trailing_zeros_app_zeros (t : text) (k : nat) :
  strip_trailing_zeros t <> [] ->
  strip_trailing_zeros (t ++ repeat "0"%char k) = strip_trailing_zeros t.
Proof.
  induction t as [|d t IH]; intros Hne; [contradiction|].
  simpl in *. destruct (strip_trailing_zeros t) as [|x y] eqn:E.
  - assert (Hz : strip_trailing_zeros (t ++ repeat "0"%char k) = []).
    { clear -E. induction t as [|d t IH]; simpl in *.
      - apply strip_trailing_zeros_repeat.
      - destruct (strip_trailing_zeros t); [|discriminate E].
        rewrite IH by reflexivity. exact E. }
    rewrite Hz. reflexivity.
  - rewrite IH by discriminate. reflexivity.
Qed.

(** A canonical numeral followed by zeros normalises to itself. *)
Lemma normalise_canonical (negative : bool) (ds : text) (k : nat) (point : Z) :
  canonical ds = true ->
  normalise negative (ds ++ repeat "0"%char k) point = JDec negative ds point.
Proof.
  intros Hc. destruct (canonical_inv ds Hc) as (_ & (c & r & E & Hz) & (r' & c' & E' & Hz')).
  unfold normalise.
  assert (Hl : strip_leading_zeros (ds ++ repeat "0"%char k) = ds ++ repeat "0"%char k).
  { rewrite E. simpl. rewrite Hz. reflexivity. }
  rewrite Hl.
  assert (Ht : strip_trailing_zeros ds = ds).
  { rewrite E'. apply strip_trailing_zeros_last. exact Hz'. }
  rewrite strip_trailing_zeros_app_zeros by (rewrite Ht, E; discriminate).
  rewrite Ht. rewrite E at 1.
  rewrite Nat.sub_diag, Z.sub_0_r. rewrite <- E. reflexivity.
Qed.

(** Leading zeros move the point. *)
Lemma normalise_leading_zeros (negative : bool) (ds : text) (k : nat) (point : Z) :
  canonical ds = true ->
  normalise negative (repeat "0"%char k ++ ds) point
  = JDec negative ds (point - Z.of_nat k).
Proof.
  intros Hc. destruct (canonical_inv ds Hc) as (_ & (c & r & E & Hz) & (r' & c' & E' & Hz')).
  unfold normalise.
  rewrite strip_leading_zeros_repeat.
  assert (Hl : strip_leading_zeros ds = ds).
  { rewrite E. simpl. rewrite Hz. reflexivity. }
  rewrite Hl.
  assert (Ht : strip_trailing_zeros ds = ds).
  { rewrite E'. apply strip_trailing_zeros_last. exact Hz'. }
  rewrite Ht. rewrite E at 1. rewrite <- E.
  rewrite length_app, repeat_length.
  replace (k + length ds - length ds)%nat with k by lia. reflexivity.
Qed.

Lemma follows_number_no_digit (t : text) : follows_number t -> no_digit_head t.
Proof. destruct t; simpl; [trivial|]. intros [H _]. exact H. Qed.

Lemma digits1_app (ds rest : text) :
  ds <> [] ->
  Forall (fun c => is_digit c = true) ds ->
  no_digit_head rest ->
  digits1 (ds ++ rest) = Some (ds, rest).
Proof.
  intros Hne Hd Hr. unfold digits1.
  rewrite (span_digits_app ds rest Hd Hr).
  destruct ds; [contradiction|reflexivity].
Qed.

Lemma parse_int_part_digits (ds rest : text) :
  head_nonzero ds ->
  Forall (fun c => is_digit c = true) ds ->
  no_digit_head rest ->
  parse_int_part (ds ++ rest) = Some (ds, rest).
Proof.
  intros Hz Hd Hr. destruct ds as [|c r]; [contradiction|].
  unfold parse_int_part. cbn [app].
  unfold head_nonzero, is_zero_digit in Hz. rewrite Hz.
  apply (digits1_app (c :: r) rest); [discriminate|assumption|assumption].
Qed.

Lemma parse_frac_part_none (rest : text) :
  follows_number rest -> parse_frac_part rest = Some ([], rest).
Proof.
  destruct rest as [|c r]; [reflexivity|]. simpl. intros (_ & Hdot & _).
  apply Ascii.eqb_neq in Hdot. rewrite Hdot. reflexivity.
Qed.

Lemma parse_frac_part_digits (ds rest : text) :
  ds <> [] ->
  Forall (fun c => is_digit c = true) ds ->
  no_digit_head rest ->
  parse_frac_part ("."%char :: ds ++ rest) = Some (ds, rest).
Proof.
  intros Hne Hd Hr. unfold parse_frac_part. rewrite Ascii.eqb_refl.
  apply digits1_app; assumption.
Qed.

Lemma parse_exp_part_none (rest : text) :
  follows_number rest -> parse_exp_part rest = Some (0%Z, rest).
Proof.
  destruct rest as [|c r]; [reflexivity|]. simpl. intros (_ & _ & He & HE).
  apply Ascii.eqb_neq in He, HE. rewrite He, HE. reflexivity.
Qed.

Lemma parse_exp_part_print (e : Z) (rest : text) :
  no_digit_head rest ->
  parse_exp_part ("e"%char :: print_exponent e ++ rest) = Some (e, rest).
Proof.
  intros Hr. unfold parse_exp_part.
  replace (Ascii.eqb "e" "e" || Ascii.eqb "e" "E") with true by reflexivity.
  unfold print_exponent, parse_exp_sign.
  destruct (0 <=? e)%Z eqn:He; cbn [app].
  - replace (Ascii.eqb "+" "-") with false by reflexivity.
    rewrite Ascii.eqb_refl. unfold parse_exp_digits.
    rewrite digits1_app;
      [|apply digits_of_N_not_nil|apply digits_of_N_all_digits|exact Hr].
    rewrite N_of_digits_of_N. f_equal. f_equal. lia.
  - rewrite Ascii.eqb_refl. unfold parse_exp_digits.
    rewrite digits1_app;
      [|apply digits_of_N_not_nil|apply digits_of_N_all_digits|exact Hr].
    rewrite N_of_digits_of_N. f_equal. f_equal. lia.
Qed.

Lemma not_digit_dot : is_digit "." = false.
Proof. reflexivity. Qed.

Lemma not_digit_e : is_digit "e" = false.
Proof. reflexivity. Qed.

(** Parsing what [Number::toString] prints gives the number back. *)
Lemma parse_unsigned_print_digits (negative : bool) (ds : text) (n : Z) (rest : text) :
  canonical ds = true ->
  follows_number rest ->
  parse_unsigned negative (print_digits ds n ++ rest) = Some (JDec negative ds n, rest).
Proof.
  intros Hc Hrest.
  destruct (canonical_inv ds Hc) as (Hall & (c & r & E & Hz) & _).
  pose proof (follows_number_no_digit rest Hrest) as Hnd.
  assert (Hnorm : forall p, normalise negative ds p = JDec negative ds p).
  { intros p. rewrite <- (app_nil_r ds) at 1.
    apply (normalise_canonical negative ds 0 p Hc). }
  unfold print_digits, parse_unsigned. cbv zeta.
  destruct ((Z.of_nat (length ds) <=? n)%Z && (n <=? 21)%Z) eqn:HA.
  { (* digits, then zeros *)
    apply andb_true_iff in HA as [HA1 HA2]. apply Z.leb_le in HA1.
    set (z := Z.to_nat (n - Z.of_nat (length ds))).
    rewrite parse_int_part_digits; [| | |exact Hnd].
    - rewrite parse_frac_part_none, parse_exp_part_none by exact Hrest.
      rewrite app_nil_r, normalise_canonical by exact Hc.
      do 3 f_equal. rewrite length_app, repeat_length. subst z. lia.
    - rewrite E. exact Hz.
    - apply Forall_app. split; [exact Hall|apply repeat_zero_digits]. }
  destruct ((0 <? n)%Z && (n <=? 21)%Z) eqn:HB.
  { (* digits with a point inside *)
    apply andb_true_iff in HB as [HB1 HB2]. apply Z.ltb_lt in HB1.
    assert (Hlt : (n < Z.of_nat (length ds))%Z).
    { apply andb_false_iff in HA as [HA|HA]; [apply Z.leb_gt in HA; lia|].
      congruence. }
    set (i := Z.to_nat n).
    assert (Hi : (0 < i < length ds)%nat) by (subst i; lia).
    assert (Hdne : drop i ds <> []).
    { intros Hnil. apply (f_equal (@length ascii)) in Hnil.
      rewrite length_drop in Hnil. simpl in Hnil. lia. }
    rewrite <- app_assoc.
    rewrite parse_int_part_digits;
      [| |apply Forall_take; exact Hall|exact not_digit_dot].
    - cbn [app].
      rewrite parse_frac_part_digits;
        [|exact Hdne|apply Forall_drop; exact Hall|exact Hnd].
      rewrite parse_exp_part_none by exact Hrest.
      rewrite take_drop, Hnorm.
      do 3 f_equal. rewrite length_take. subst i. lia.
    - rewrite E. destruct i as [|i']; [lia|]. exact Hz. }
  destruct ((-6 <? n)%Z && (n <=? 0)%Z) eqn:HC.
  { (* zero, point, zeros, digits *)
    apply andb_true_iff in HC as [HC1 HC2]. apply Z.leb_le in HC2.
    set (z := Z.to_nat (- n)).
    cbn [app]. unfold parse_int_part. rewrite Ascii.eqb_refl.
    rewrite parse_frac_part_digits; [| | |exact Hnd].
    - rewrite parse_exp_part_none by exact Hrest.
      change (["0"%char] ++ repeat "0"%char z ++ ds)
        with (repeat "0"%char (S z) ++ ds).
      rewrite normalise_leading_zeros by exact Hc.
      do 3 f_equal. subst z. simpl length. lia.
    - rewrite E. destruct (repeat "0"%char z); discriminate.
    - apply Forall_app. split; [apply repeat_zero_digits|exact Hall]. }
  (* exponent notation *)
  assert (Hc1 : Forall (fun c => is_digit c = true) [c]).
  { rewrite E in Hall. inversion Hall; subst. constructor; [assumption|constructor]. }
  assert (Hr1 : Forall (fun c => is_digit c = true) r).
  { rewrite E in Hall. inversion Hall; subst. assumption. }
  rewrite E. destruct r as [|d r'].
  - cbn [app].
    change (c :: "e"%char :: print_exponent (n - 1) ++ rest)
      with ([c] ++ "e"%char :: print_exponent (n - 1) ++ rest).
    rewrite parse_int_part_digits; [|exact Hz|exact Hc1|exact not_digit_e].
    unfold parse_frac_part. replace (Ascii.eqb "e" ".") with false by reflexivity.
    rewrite parse_exp_part_print by exact Hnd.
    rewrite app_nil_r, <- E, Hnorm, E.
    do 3 f_equal. simpl length. lia.
  - cbn [app]. rewrite <- app_assoc. cbn [app].
    change (c :: "."%char :: d :: r' ++ "e"%char :: print_exponent (n - 1) ++ rest)
      with ([c] ++ "."%char :: (d :: r') ++ "e"%char :: print_exponent (n - 1) ++ rest).
    rewrite parse_int_part_digits; [|exact Hz|exact Hc1|exact not_digit_dot].
    rewrite parse_frac_part_digits; [|discriminate|exact Hr1|exact not_digit_e].
    rewrite parse_exp_part_print by exact Hnd.
    change ([c] ++ d :: r') with (c :: d :: r').
    rewrite <- E, Hnorm, E.
    do 3 f_equal. simpl length. lia.
Qed.

Lemma print_digits_head (ds : text) (n : Z) :
  canonical ds = true ->
  exists c t, print_digits ds n = c :: t /\ is_digit c = true.
Proof.
  intros Hc. destruct (canonical_inv ds Hc) as (Hall & (c & r & E & Hz) & _).
  assert (Hd : is_digit c = true) by (rewrite E in Hall; inversion Hall; assumption).
  unfold print_digits. cbv zeta.
  destruct ((Z.of_nat (length ds) <=? n)%Z && (n <=? 21)%Z).
  { rewrite E. cbn [app]. eauto. }
  destruct ((0 <? n)%Z && (n <=? 21)%Z) eqn:HB.
  { apply andb_true_iff in HB as [HB _]. apply Z.ltb_lt in HB.
    rewrite E. destruct (Z.to_nat n) eqn:En; [lia|]. cbn [take app]. eauto. }
  destruct ((-6 <? n)%Z && (n <=? 0)%Z).
  { exists "0"%char. eexists. split; reflexivity. }
  rewrite E. destruct r; eauto.
Qed.

Lemma digit_not_minus (c : ascii) : is_digit c = true -> Ascii.eqb c "-" = false.
Proof.
  destruct c as [[] [] [] [] [] [] [] []]; intros H; try discriminate H; reflexivity.
Qed.

(** Parsing a printed number gives the number back. *)
Lemma parse_number_print (x : jnumber) (rest : text) :
  wf (Num x) = true ->
  follows_number rest ->
  parse_number (print_number x ++ rest) = Some (x, rest).
Proof.
  intros Hwf Hrest. destruct x as [|negative ds n].
  - cbn [print_number app]. unfold parse_number.
    replace (Ascii.eqb "0" "-") with false by reflexivity.
    unfold parse_unsigned, parse_int_part. rewrite Ascii.eqb_refl.
    rewrite parse_frac_part_none, parse_exp_part_none by exact Hrest.
    reflexivity.
  - simpl in Hwf. unfold print_number. destruct negative.
    + cbn [app]. unfold parse_number. rewrite Ascii.eqb_refl.
      apply parse_unsigned_print_digits; assumption.
    + cbn [app].
      destruct (print_digits_head ds n Hwf) as (c & t & E & Hd).
      unfold parse_number. rewrite E. cbn [app].
      rewrite (digit_not_minus c Hd).
      change (c :: t ++ rest) with ((c :: t) ++ rest). rewrite <- E.
      apply parse_unsigned_print_digits; assumption.
Qed.

(** ** JSON: strings *)

Lemma parse_string_escape (c : ascii) (t : text) :
  parse_string (escape_char c ++ t) = prepend c (parse_string t).
Proof.
  destruct c as [[] [] [] [] [] [] [] []]; reflexivity.
Qed.

(** The bytes from [lo] on, [n] of them. *)
Lemma bytes_In (c : ascii) (lo n : nat) :
  (lo <= nat_of_ascii c < lo + n)%nat -> In c (map ascii_of_nat (seq lo n)).
Proof.
  intros H. apply in_map_iff. exists (nat_of_ascii c).
  split; [apply ascii_nat_embedding|]. apply in_seq. exact H.
Qed.

(** The escape of a surrogate is read back as its code unit, which is
    carried on the three bytes it came from. *)
Lemma surrogate_escape_back (b1 b2 b3 : ascii) (u : N) :
  surrogate_bytes b1 b2 b3 = Some u ->
  (exists h1 h2 h3 h4,
      unicode_escape u = ["\"%char; "u"%char; h1; h2; h3; h4]
      /\ hex4 h1 h2 h3 h4 = Some u)
  /\ utf8 u = [b1; b2; b3]
  /\ is_high_surrogate u = negb (is_low_surrogate u)
  /\ b1 = ascii_of_nat 237.
Proof.
  intros H. pose proof H as H0.
  unfold surrogate_bytes in H0. cbv zeta in H0.
  destruct (N_of_ascii b1 =? 237)%N eqn:E1; [|discriminate H0].
  destruct (160 <=? N_of_ascii b2)%N eqn:E2; [|discriminate H0].
  destruct (N_of_ascii b2 <=? 191)%N eqn:E3; [|discriminate H0].
  destruct (128 <=? N_of_ascii b3)%N eqn:E4; [|discriminate H0].
  destruct (N_of_ascii b3 <=? 191)%N eqn:E5; [|discriminate H0].
  clear H0.
  apply N.eqb_eq in E1. apply N.leb_le in E2, E3, E4, E5.
  assert (Hb1 : b1 = ascii_of_nat 237).
  { rewrite <- (ascii_N_embedding b1), E1. reflexivity. }
  subst b1.
  assert (Hn : forall b, N_of_ascii b = N.of_nat (nat_of_ascii b)).
  { intros b. unfold nat_of_ascii. rewrite N2Nat.id. reflexivity. }
  rewrite Hn in E2, E3, E4, E5.
  assert (Hall :
    forallb (fun b2 =>
      forallb (fun b3 =>
        match surrogate_bytes (ascii_of_nat 237) b2 b3 with
        | Some u =>
            match unicode_escape u with
            | [b; c; h1; h2; h3; h4] =>
                Ascii.eqb b "\" && Ascii.eqb c "u"
                && match hex4 h1 h2 h3 h4 with Some v => (v =? u)%N | None => false end
            | _ => false
            end
            && bool_decide (utf8 u = [ascii_of_nat 237; b2; b3])
            && Bool.eqb (is_high_surrogate u) (negb (is_low_surrogate u))
        | None => true
        end) (map ascii_of_nat (seq 128 64))) (map ascii_of_nat (seq 160 32)) = true).
  { vm_compute. reflexivity. }
  rewrite forallb_forall in Hall.
  specialize (Hall b2 (bytes_In b2 160 32 ltac:(lia))).
  rewrite forallb_forall in Hall.
  specialize (Hall b3 (bytes_In b3 128 64 ltac:(lia))).
  rewrite H in Hall.
  apply andb_true_iff in Hall as [Hall Hs].
  apply andb_true_iff in Hall as [He Hu].
  apply bool_decide_eq_true in Hu. apply Bool.eqb_prop in Hs.
  destruct (unicode_escape u) as [|b [|c [|h1 [|h2 [|h3 [|h4 [|]]]]]]]; try discriminate He.
  apply andb_true_iff in He as [He Hh].
  apply andb_true_iff in He as [Hb Hc].
  apply Ascii.eqb_eq in Hb, Hc. subst b c.
  destruct (hex4 h1 h2 h3 h4) as [v|] eqn:Ev; [|discriminate Hh].
  apply N.eqb_eq in Hh. subst v.
  split; [exists h1, h2, h3, h4; split; [reflexivity|exact Ev]|].
  split; [exact Hu|]. split; [exact Hs|reflexivity].
Qed.

Lemma quote_body_cons (c : ascii) (r : string) :
  quote_body (String c r)
  = match r with
    | String c2 (String c3 r') =>
        match surrogate_bytes c c2 c3 with
        | Some u =>
            if is_high_surrogate u && low_surrogate_head r'
            then c :: quote_body r
            else unicode_escape u ++ quote_body r'
        | None => escape_char c ++ quote_body r
        end
    | _ => escape_char c ++ quote_body r
    end.
Proof. reflexivity. Qed.

Lemma low_surrogate_escape_char (c : ascii) (t : text) :
  low_surrogate_escape (escape_char c ++ t) = None.
Proof. destruct c as [[] [] [] [] [] [] [] []]; reflexivity. Qed.

(** What is printed for a string that does not begin with a low surrogate
    does not begin with the escape of one. *)
Lemma low_surrogate_escape_quote (s : string) (rest : text) :
  low_surrogate_head s = false ->
  low_surrogate_escape (quote_body s ++ dquote :: rest) = None.
Proof.
  intros Hs. destruct s as [|c [|c2 [|c3 r']]].
  - reflexivity.
  - rewrite quote_body_cons. rewrite <- app_assoc. apply low_surrogate_escape_char.
  - rewrite quote_body_cons. rewrite <- app_assoc. apply low_surrogate_escape_char.
  - rewrite quote_body_cons. cbv iota. cbn [low_surrogate_head] in Hs.
    destruct (surrogate_bytes c c2 c3) as [u|] eqn:Eu;
      [|rewrite <- app_assoc; apply low_surrogate_escape_char].
    destruct (surrogate_escape_back _ _ _ _ Eu)
      as ((h1 & h2 & h3 & h4 & Hesc & Hhex) & _ & _ & ->).
    destruct (is_high_surrogate u && low_surrogate_head r'); [reflexivity|].
    rewrite Hesc. cbn [app low_surrogate_escape].
    replace (Ascii.eqb "\" "\") with true by reflexivity.
    replace (Ascii.eqb "u" "u") with true by reflexivity.
    cbv iota. rewrite Hhex, Hs. reflexivity.
Qed.

Lemma parse_string_quote_body_below (n : nat) :
  forall s, (String.length s < n)%nat ->
  forall rest, parse_string (quote_body s ++ dquote :: rest) = Some (s, rest).
Proof.
  induction n as [|n IH]; intros s Hn rest; [lia|].
  assert (Hesc : forall c r,
             s = String c r ->
             parse_string ((escape_char c ++ quote_body r) ++ dquote :: rest)
             = Some (String c r, rest)).
  { intros c r ->. cbn [String.length] in Hn.
    rewrite <- app_assoc, parse_string_escape, IH by lia. reflexivity. }
  destruct s as [|c [|c2 [|c3 r']]].
  - reflexivity.
  - rewrite quote_body_cons. exact (Hesc _ _ eq_refl).
  - rewrite quote_body_cons. exact (Hesc _ _ eq_refl).
  - rewrite quote_body_cons. cbv iota.
    destruct (surrogate_bytes c c2 c3) as [u|] eqn:Eu; [|exact (Hesc _ _ eq_refl)].
    destruct (surrogate_escape_back _ _ _ _ Eu)
      as ((h1 & h2 & h3 & h4 & Hu & Hhex) & Hutf & Hhl & ->).
    cbn [String.length] in Hn.
    destruct (is_high_surrogate u && low_surrogate_head r') eqn:Ehl.
    + cbn [app parse_string].
      replace (Ascii.eqb (ascii_of_nat 237) dquote) with false by reflexivity.
      replace (Ascii.eqb (ascii_of_nat 237) "\") with false by reflexivity.
      replace (nat_of_ascii (ascii_of_nat 237) <? 32)%nat with false by reflexivity.
      cbv iota. rewrite IH by (cbn [String.length]; lia). reflexivity.
    + rewrite Hu. cbn [app parse_string].
      replace (Ascii.eqb "\" dquote) with false by reflexivity.
      replace (Ascii.eqb "\" "\") with true by reflexivity.
      replace (Ascii.eqb "u" "u") with true by reflexivity.
      cbv iota. rewrite Hhex.
      assert (Hnone : (if is_high_surrogate u
                       then low_surrogate_escape (quote_body r' ++ dquote :: rest)
                       else None) = None).
      { destruct (is_high_surrogate u); [|reflexivity].
        apply low_surrogate_escape_quote. exact Ehl. }
      rewrite Hnone, IH by lia. cbn [prepend_bytes]. rewrite Hutf. reflexivity.
Qed.

Lemma parse_string_quote_body (s : string) (rest : text) :
  parse_string (quote_body s ++ dquote :: rest) = Some (s, rest).
Proof. apply (parse_string_quote_body_below (S (String.length s))). lia. Qed.

(** ** JSON: values *)

(** Induction on values that reaches the elements of arrays and the values
    of members. *)
Lemma value_induction (P : value -> Prop) :
  P Null ->
  (forall b, P (Bool b)) ->
  (forall n, P (Num n)) ->
  (forall s, P (Str s)) ->
  (forall xs, Forall P xs -> P (Arr xs)) ->
  (forall ms, Forall (fun m => P (snd m)) ms -> P (Obj ms)) ->
  forall v, P v.
Proof.
  intros HNull HBool HNum HStr HArr HObj.
  fix IH 1. intros [ | b | n | s | xs | ms].
  - exact HNull.
  - apply HBool.
  - apply HNum.
  - apply HStr.
  - apply HArr. induction xs as [|x xs IHxs]; constructor; [apply IH|exact IHxs].
  - apply HObj. induction ms as [|m ms IHms]; constructor; [apply IH|exact IHms].
Qed.

Lemma starts_value_not_ws (c : ascii) :
  starts_value c = true ->
  is_ws c = false /\ Ascii.eqb c "]" = false /\ Ascii.eqb c "}" = false.
Proof.
  destruct c as [[] [] [] [] [] [] [] []]; intros H; try discriminate H;
    repeat split; reflexivity.
Qed.

Lemma number_token (c : ascii) :
  is_digit c = true \/ c = "-"%char ->
  is_ws c = false
  /\ Ascii.eqb c "n" = false /\ Ascii.eqb c "t" = false /\ Ascii.eqb c "f" = false
  /\ Ascii.eqb c dquote = false /\ Ascii.eqb c "[" = false /\ Ascii.eqb c "{" = false.
Proof.
  intros [H| ->]; [|repeat split; reflexivity].
  destruct c as [[] [] [] [] [] [] [] []]; try discriminate H;
    repeat split; reflexivity.
Qed.

Lemma print_number_head (x : jnumber) :
  wf (Num x) = true ->
  exists c t, print_number x = c :: t /\ (is_digit c = true \/ c = "-"%char).
Proof.
  intros Hwf. destruct x as [|negative ds n].
  - exists "0"%char, []. split; [reflexivity|left; reflexivity].
  - simpl in Hwf. destruct negative.
    + exists "-"%char, (print_digits ds n). split; [reflexivity|right; reflexivity].
    + destruct (print_digits_head ds n Hwf) as (c & t & E & Hd).
      exists c, t. split; [exact E|left; exact Hd].
Qed.

(** A serialized value starts with a character that starts a value. *)
Lemma print_head (v : value) :
  wf v = true -> exists c t, print v = c :: t /\ starts_value c = true.
Proof.
  intros Hwf. destruct v as [ | [|] | x | s | [|x xs] | [|m ms]];
    try (eexists; eexists; split; reflexivity).
  destruct (print_number_head x Hwf) as (c & t & E & [Hd| ->]).
  - exists c, t. split; [exact E|]. unfold starts_value. rewrite Hd.
    apply orb_true_r.
  - exists "-"%char, t. split; [exact E|reflexivity].
Qed.

Lemma skip_ws_print (v : value) (rest : text) :
  wf v = true -> skip_ws (print v ++ rest) = print v ++ rest.
Proof.
  intros Hwf. destruct (print_head v Hwf) as (c & t & E & Hc).
  rewrite E. cbn [app skip_ws].
  destruct (starts_value_not_ws c Hc) as (-> & _). reflexivity.
Qed.

Lemma closes_print (v : value) (rest : text) (c : ascii) :
  wf v = true -> c = "]"%char \/ c = "}"%char ->
  closes c (skip_ws (print v ++ rest)) = false.
Proof.
  intros Hwf Hc. rewrite skip_ws_print by exact Hwf.
  destruct (print_head v Hwf) as (c' & t & E & Hs).
  rewrite E. cbn [app closes].
  destruct (starts_value_not_ws c' Hs) as (_ & H1 & H2).
  destruct Hc as [-> | ->]; assumption.
Qed.

Lemma ends_value_elements (pr : value -> text) (xs : list value) (rest : text) :
  ends_value (print_elements pr xs ++ rest) = true.
Proof. destruct xs; reflexivity. Qed.

Lemma ends_value_members (pr : value -> text) (ms : list (string * value)) (rest : text) :
  ends_value (print_members pr ms ++ rest) = true.
Proof. destruct ms; reflexivity. Qed.

(** Members with distinct keys in the order of the keys are the
    properties of the object, in order. *)
Lemma obj_insert_last (k : string) (v : value) (acc : list (string * value)) :
  forallb (fun k' => negb (precedes k k')) (map fst acc) = true ->
  obj_insert k v acc = acc ++ [(k, v)].
Proof.
  induction acc as [|[k' v'] acc IH]; cbn [map fst forallb obj_insert app];
    [reflexivity|].
  intros H. apply andb_true_iff in H as [H1 H2].
  apply negb_true_iff in H1. rewrite H1, IH by exact H2. reflexivity.
Qed.

Lemma distinct_app_inv (l1 l2 : list string) (k : string) :
  distinct (l1 ++ k :: l2) = true -> existsb (String.eqb k) l1 = false.
Proof.
  induction l1 as [|k' l1 IH]; [reflexivity|].
  cbn [app distinct existsb]. intros Hd.
  apply andb_true_iff in Hd as [Hk Hd].
  rewrite (IH Hd), orb_false_r.
  apply negb_true_iff in Hk. rewrite existsb_app in Hk.
  apply orb_false_iff in Hk as [_ Hk]. cbn [existsb] in Hk.
  apply orb_false_iff in Hk as [Hk _].
  rewrite String.eqb_sym. exact Hk.
Qed.

Lemma ordered_app_inv (l1 l2 : list string) (k : string) :
  ordered (l1 ++ k :: l2) = true ->
  forallb (fun k' => negb (precedes k k')) l1 = true.
Proof.
  induction l1 as [|k' l1 IH]; [reflexivity|].
  cbn [app ordered forallb]. intros Ho.
  apply andb_true_iff in Ho as [Hk Ho].
  rewrite (IH Ho), andb_true_r.
  rewrite forallb_forall in Hk. apply Hk.
  apply in_or_app. right. left. reflexivity.
Qed.

Lemma distinct_app_l (l1 l2 : list string) :
  distinct (l1 ++ l2) = true -> distinct l1 = true.
Proof.
  induction l1 as [|k l1 IH]; [reflexivity|].
  cbn [app distinct]. intros H. apply andb_true_iff in H as [Hk H].
  rewrite (IH H), andb_true_r.
  apply negb_true_iff in Hk. rewrite existsb_app in Hk.
  apply orb_false_iff in Hk as [Hk _]. rewrite Hk. reflexivity.
Qed.

Lemma obj_of_members_from (acc ms : list (string * value)) :
  enumerated (map fst (acc ++ ms)) = true ->
  fold_left (fun a m => obj_set (fst m) (snd m) a) ms acc = acc ++ ms.
Proof.
  revert acc. induction ms as [|[k v] ms IH]; intros acc He; cbn [fold_left].
  - rewrite app_nil_r. reflexivity.
  - pose proof He as He'. unfold enumerated in He'.
    apply andb_true_iff in He' as [Hd Ho].
    rewrite map_app in Hd, Ho. cbn [map fst] in Hd, Ho.
    unfold obj_set. cbn [fst snd].
    rewrite (distinct_app_inv _ _ _ Hd).
    rewrite obj_insert_last by (exact (ordered_app_inv _ _ _ Ho)).
    rewrite IH; rewrite <- app_assoc; [reflexivity|exact He].
Qed.

Lemma obj_of_members_distinct (ms : list (string * value)) :
  enumerated (map fst ms) = true -> obj_of_members ms = ms.
Proof. intros H. apply (obj_of_members_from [] ms H). Qed.

Section TokenLemmas.
Variable pv : text -> option (value * text).
Variable pe : text -> option (list value * text).
Variable pm : text -> option (list (string * value) * text).

Lemma parse_token_string (r : text) :
  parse_token pv pe pm dquote r =
  match parse_string r with
  | Some (s, r1) => Some (Str s, r1)
  | None => None
  end.
Proof. reflexivity. Qed.

Lemma parse_token_array (r : text) :
  parse_token pv pe pm "[" r = parse_array pv pe r.
Proof. reflexivity. Qed.

Lemma parse_token_object (r : text) :
  parse_token pv pe pm "{" r = parse_object pv pm r.
Proof. reflexivity. Qed.

Lemma parse_token_number (c : ascii) (r : text) :
  is_digit c = true \/ c = "-"%char ->
  parse_token pv pe pm c r =
  match parse_number (c :: r) with
  | Some (n, r1) => Some (Num n, r1)
  | None => None
  end.
Proof.
  intros Hc. destruct (number_token c Hc) as (_ & H1 & H2 & H3 & H4 & H5 & H6).
  unfold parse_token. rewrite H1, H2, H3, H4, H5, H6. reflexivity.
Qed.

Lemma parse_member_print (m : string * value) (rest : text) :
  pv (print (snd m) ++ rest) = Some (snd m, rest) ->
  parse_member pv (print_member print m ++ rest) = Some (m, rest).
Proof.
  intros Hv. destruct m as [k x]. unfold print_member, quote, parse_member.
  cbn [fst snd app skip_ws] in *.
  replace (is_ws dquote) with false by reflexivity.
  rewrite Ascii.eqb_refl.
  rewrite <- !app_assoc. cbn [app]. rewrite parse_string_quote_body.
  cbn [skip_ws]. replace (is_ws ":") with false by reflexivity.
  rewrite Ascii.eqb_refl, Hv. reflexivity.
Qed.
End TokenLemmas.

Lemma list_sum_cons (a : nat) (l : list nat) :
  list_sum (a :: l) = (a + list_sum l)%nat.
Proof. reflexivity. Qed.

Lemma parse_print_elements (xs : list value) :
  Forall parses_back xs ->
  forallb wf xs = true ->
  forall fuel rest,
    (list_sum (map (fun x => S (size x)) xs) < fuel)%nat ->
    parse_elements fuel (print_elements print xs ++ rest) = Some (xs, rest).
Proof.
  induction xs as [|x xs IH]; intros HP Hwf fuel rest Hfuel;
    (destruct fuel as [|f]; [lia|]).
  - reflexivity.
  - inversion HP as [|? ? Hx Hxs]; subst.
    cbn [forallb] in Hwf. apply andb_true_iff in Hwf as [Hwx Hwxs].
    cbn [map] in Hfuel. rewrite list_sum_cons in Hfuel.
    cbn [print_elements parse_elements app]. unfold parse_more_elements.
    cbn [skip_ws]. replace (is_ws ",") with false by reflexivity.
    replace (Ascii.eqb "," "]") with false by reflexivity.
    rewrite Ascii.eqb_refl, <- app_assoc.
    rewrite (Hx Hwx f (print_elements print xs ++ rest));
      [|lia|apply ends_value_elements].
    rewrite (IH Hxs Hwxs f rest) by lia. reflexivity.
Qed.

Lemma parse_print_members (ms : list (string * value)) :
  Forall (fun m => parses_back (snd m)) ms ->
  forallb (fun m => wf (snd m)) ms = true ->
  forall fuel rest,
    (list_sum (map (fun m => S (size (snd m))) ms) < fuel)%nat ->
    parse_members fuel (print_members print ms ++ rest) = Some (ms, rest).
Proof.
  induction ms as [|m ms IH]; intros HP Hwf fuel rest Hfuel;
    (destruct fuel as [|f]; [lia|]).
  - reflexivity.
  - inversion HP as [|? ? Hm Hms]; subst.
    cbn [forallb] in Hwf. apply andb_true_iff in Hwf as [Hwm Hwms].
    cbn [map] in Hfuel. rewrite list_sum_cons in Hfuel.
    cbn [print_members parse_members app]. unfold parse_more_members.
    cbn [skip_ws]. replace (is_ws ",") with false by reflexivity.
    replace (Ascii.eqb "," "}") with false by reflexivity.
    rewrite Ascii.eqb_refl, <- app_assoc.
    rewrite parse_member_print.
    + rewrite (IH Hms Hwms f rest) by lia. reflexivity.
    + apply (Hm Hwm f (print_members print ms ++ rest));
        [lia|apply ends_value_members].
Qed.

(** Parsing a serialized value gives the value back. *)
Lemma parse_print_value (v : value) : parses_back v.
Proof.
  induction v as [ | b | x | s | xs IHxs | ms IHms] using value_induction;
    intros Hwf fuel rest Hfuel Hend; (destruct fuel as [|f]; [simpl in Hfuel; lia|]).
  - reflexivity.
  - destruct b; reflexivity.
  - destruct (print_number_head x Hwf) as (c & t & E & Hc).
    cbn [print parse_value]. rewrite E. cbn [app skip_ws].
    destruct (number_token c Hc) as (-> & _).
    rewrite parse_token_number by exact Hc.
    change (c :: t ++ rest) with ((c :: t) ++ rest). rewrite <- E.
    rewrite parse_number_print;
      [reflexivity|exact Hwf|apply ends_value_follows_number; exact Hend].
  - cbn [print parse_value]. unfold quote. cbn [app skip_ws].
    replace (is_ws dquote) with false by reflexivity.
    rewrite parse_token_string, <- app_assoc. cbn [app].
    rewrite parse_string_quote_body. reflexivity.
  - destruct xs as [|x xs]; [reflexivity|].
    inversion IHxs as [|? ? Hx Hxs]; subst.
    cbn [wf forallb] in Hwf. apply andb_true_iff in Hwf as [Hwx Hwxs].
    cbn [size map] in Hfuel. rewrite list_sum_cons in Hfuel.
    cbn [print parse_value app skip_ws].
    replace (is_ws "[") with false by reflexivity.
    rewrite parse_token_array. unfold parse_array.
    rewrite <- app_assoc, closes_print by (auto).
    rewrite (Hx Hwx f (print_elements print xs ++ rest));
      [|lia|apply ends_value_elements].
    rewrite (parse_print_elements xs Hxs Hwxs f rest) by lia. reflexivity.
  - destruct ms as [|m ms]; [reflexivity|].
    inversion IHms as [|? ? Hm Hms]; subst.
    cbn [wf] in Hwf. apply andb_true_iff in Hwf as [Hwf Hdist].
    cbn [forallb] in Hwf. apply andb_true_iff in Hwf as [Hwm Hwms].
    cbn [size map] in Hfuel. rewrite list_sum_cons in Hfuel.
    cbn [print parse_value app skip_ws].
    replace (is_ws "{") with false by reflexivity.
    rewrite parse_token_object. unfold parse_object.
    rewrite <- app_assoc.
    assert (Hcl : closes "}" (skip_ws (print_member print m
                                       ++ print_members print ms ++ rest)) = false).
    { unfold print_member, quote. cbn [app skip_ws].
      replace (is_ws dquote) with false by reflexivity. reflexivity. }
    rewrite Hcl, parse_member_print.
    + rewrite (parse_print_members ms Hms Hwms f rest) by lia.
      rewrite obj_of_members_distinct by exact Hdist. reflexivity.
    + apply (Hm Hwm f (print_members print ms ++ rest));
        [lia|apply ends_value_members].
Qed.

(** The fuel [JSON.parse] gives the parser is enough for a serialized
    value. *)
Lemma size_print_elements (xs : list value) :
  Forall (fun x => wf x = true -> (size x <= length (print x))%nat) xs ->
  forallb wf xs = true ->
  (S (list_sum (map (fun x => S (size x)) xs)) <= length (print_elements print xs))%nat.
Proof.
  induction xs as [|x xs IH]; intros HP Hwf; [simpl; lia|].
  inversion HP as [|? ? Hx Hxs]; subst.
  cbn [forallb] in Hwf. apply andb_true_iff in Hwf as [Hwx Hwxs].
  cbn [map print_elements]. rewrite list_sum_cons. cbn [length].
  rewrite length_app. specialize (IH Hxs Hwxs). specialize (Hx Hwx). lia.
Qed.

Lemma size_print_members (ms : list (string * value)) :
  Forall (fun m => wf (snd m) = true -> (size (snd m) <= length (print (snd m)))%nat) ms ->
  forallb (fun m => wf (snd m)) ms = true ->
  (S (list_sum (map (fun m => S (size (snd m))) ms))
   <= length (print_members print ms))%nat.
Proof.
  induction ms as [|m ms IH]; intros HP Hwf; [simpl; lia|].
  inversion HP as [|? ? Hm Hms]; subst.
  cbn [forallb] in Hwf. apply andb_true_iff in Hwf as [Hwm Hwms].
  cbn [map print_members]. rewrite list_sum_cons. cbn [length].
  unfold print_member. repeat (progress (rewrite ?length_app; cbn [length])).
  specialize (IH Hms Hwms). specialize (Hm Hwm). lia.
Qed.

Lemma size_le_length (v : value) :
  wf v = true -> (size v <= length (print v))%nat.
Proof.
  induction v as [ | b | x | s | xs IHxs | ms IHms] using value_induction;
    intros Hwf.
  - simpl. lia.
  - destruct b; simpl; lia.
  - destruct (print_number_head x Hwf) as (c & t & E & _).
    cbn [print size]. rewrite E. simpl. lia.
  - cbn [print size]. unfold quote. simpl. lia.
  - destruct xs as [|x xs]; [simpl; lia|].
    inversion IHxs as [|? ? Hx Hxs]; subst.
    cbn [wf forallb] in Hwf. apply andb_true_iff in Hwf as [Hwx Hwxs].
    cbn [size map print]. rewrite list_sum_cons. cbn [length]. rewrite length_app.
    pose proof (size_print_elements xs Hxs Hwxs). specialize (Hx Hwx). lia.
  - destruct ms as [|m ms]; [simpl; lia|].
    inversion IHms as [|? ? Hm Hms]; subst.
    cbn [wf] in Hwf. apply andb_true_iff in Hwf as [Hwf _].
    cbn [forallb] in Hwf. apply andb_true_iff in Hwf as [Hwm Hwms].
    cbn [size map print]. rewrite list_sum_cons. cbn [length].
    unfold print_member. repeat (progress (rewrite ?length_app; cbn [length])).
    pose proof (size_print_members ms Hms Hwms). specialize (Hm Hwm). lia.
Qed.

(** On values in the image of the parser, [JSON.parse] inverts
    [JSON.stringify]. *)
Lemma parse_stringify (v : value) :
  wf v = true -> parse (stringify v) = Some v.
Proof.
  intros Hwf. unfold parse, parse_text, stringify.
  rewrite list_ascii_of_string_of_list_ascii. cbv zeta.
  pose proof (parse_print_value v Hwf (S (length (print v))) []) as H.
  rewrite app_nil_r in H. rewrite H; [reflexivity| |reflexivity].
  pose proof (size_le_length v Hwf). lia.
Qed.

(** ** JSON: what the parser returns is well formed *)

Lemma is_zero_digit_true (c : ascii) : is_zero_digit c = true -> c = "0"%char.
Proof. apply Ascii.eqb_eq. Qed.

Lemma span_digits_digits (t ds rest : text) :
  span_digits t = (ds, rest) -> Forall (fun c => is_digit c = true) ds.
Proof.
  revert ds rest. induction t as [|c t IH]; intros ds rest H; simpl in H.
  - inversion H. constructor.
  - destruct (is_digit c) eqn:Hc.
    + destruct (span_digits t) as [ds' rest'] eqn:E. inversion H; subst.
      constructor; [exact Hc|]. eapply IH. reflexivity.
    + inversion H. constructor.
Qed.

Lemma digits1_digits (t ds rest : text) :
  digits1 t = Some (ds, rest) -> Forall (fun c => is_digit c = true) ds.
Proof.
  unfold digits1. destruct (span_digits t) as [ds' rest'] eqn:E.
  pose proof (span_digits_digits t ds' rest' E) as Hd.
  destruct ds'; intros H; inversion H; subst. exact Hd.
Qed.

Lemma strip_leading_zeros_spec (ds : text) :
  Forall (fun c => is_digit c = true) ds ->
  Forall (fun c => is_digit c = true) (strip_leading_zeros ds)
  /\ (strip_leading_zeros ds = [] \/ head_nonzero (strip_leading_zeros ds)).
Proof.
  induction 1 as [|c ds Hc Hds IH]; simpl; [split; [constructor|left; reflexivity]|].
  destruct (is_zero_digit c) eqn:Hz; [exact IH|].
  split; [constructor; assumption|right; exact Hz].
Qed.

Lemma strip_trailing_zeros_spec (t : text) :
  Forall (fun c => is_digit c = true) t ->
  Forall (fun c => is_digit c = true) (strip_trailing_zeros t)
  /\ (strip_trailing_zeros t = []
      \/ exists a l, strip_trailing_zeros t = a ++ [l] /\ is_zero_digit l = false)
  /\ (forall c r, t = c :: r -> strip_trailing_zeros t <> [] ->
        exists r', strip_trailing_zeros t = c :: r').
Proof.
  induction 1 as [|c t Hc Ht (IHd & IHl & _)]; simpl.
  - split; [constructor|]. split; [left; reflexivity|]. intros c r H. discriminate H.
  - destruct (strip_trailing_zeros t) as [|x y] eqn:E.
    + destruct (is_zero_digit c) eqn:Hz.
      * split; [constructor|]. split; [left; reflexivity|].
        intros c' r' _ Hne. contradiction.
      * split; [constructor; [exact Hc|constructor]|].
        split; [right; exists [], c; split; [reflexivity|exact Hz]|].
        intros c' r' Heq _. inversion Heq; subst. eauto.
    + split; [constructor; assumption|].
      split.
      * right. destruct IHl as [Hnil|(a & l & Ea & Hl)]; [discriminate Hnil|].
        exists (c :: a), l. rewrite Ea. split; [reflexivity|exact Hl].
      * intros c' r' Heq _. inversion Heq; subst. eauto.
Qed.

Lemma canonical_intro (ds : text) :
  Forall (fun c => is_digit c = true) ds ->
  head_nonzero ds ->
  (exists a l, ds = a ++ [l] /\ is_zero_digit l = false) ->
  canonical ds = true.
Proof.
  intros Hd Hh (a & l & E & Hl). unfold canonical.
  apply andb_true_iff. split; [apply andb_true_iff; split|].
  - apply forallb_forall. intros c Hc.
    exact (proj1 (List.Forall_forall _ _) Hd c Hc).
  - destruct ds as [|c r]; [contradiction|]. simpl in Hh. rewrite Hh. reflexivity.
  - rewrite E, rev_app_distr. simpl. rewrite Hl. reflexivity.
Qed.

Lemma normalise_wf (negative : bool) (ds : text) (point : Z) :
  Forall (fun c => is_digit c = true) ds ->
  wf (Num (normalise negative ds point)) = true.
Proof.
  intros Hd. unfold normalise.
  destruct (strip_leading_zeros_spec ds Hd) as (Hd1 & Hh).
  destruct (strip_trailing_zeros_spec _ Hd1) as (Hd2 & Hl & Hhead).
  destruct (strip_trailing_zeros (strip_leading_zeros ds)) as [|x y] eqn:E;
    [reflexivity|].
  cbn [wf]. apply canonical_intro.
  - exact Hd2.
  - destruct Hh as [Hnil|Hh].
    + rewrite Hnil in E. discriminate E.
    + destruct (strip_leading_zeros ds) as [|c r] eqn:E1; [contradiction|].
      destruct (Hhead c r eq_refl) as (r' & Er); [discriminate|].
      inversion Er; subst. exact Hh.
  - destruct Hl as [Hnil|Hl]; [discriminate Hnil|exact Hl].
Qed.

Lemma parse_number_wf (t : text) (x : jnumber) (rest : text) :
  parse_number t = Some (x, rest) -> wf (Num x) = true.
Proof.
  assert (Hu : forall negative t,
             parse_unsigned negative t = Some (x, rest) -> wf (Num x) = true).
  { intros negative t0. unfold parse_unsigned.
    destruct (parse_int_part t0) as [[ip t1]|] eqn:Ei; [|discriminate].
    destruct (parse_frac_part t1) as [[fp t2]|] eqn:Ef; [|discriminate].
    destruct (parse_exp_part t2) as [[e t3]|]; [|discriminate].
    intros H. inversion H; subst. apply normalise_wf.
    apply Forall_app. split.
    - unfold parse_int_part in Ei. destruct t0 as [|c r]; [discriminate|].
      destruct (Ascii.eqb c "0") eqn:Hc.
      + inversion Ei; subst. apply Ascii.eqb_eq in Hc. subst c.
        constructor; [reflexivity|constructor].
      + eapply digits1_digits. exact Ei.
    - unfold parse_frac_part in Ef. destruct t1 as [|c r].
      + inversion Ef; subst. constructor.
      + destruct (Ascii.eqb c ".").
        * eapply digits1_digits. exact Ef.
        * inversion Ef; subst. constructor. }
  unfold parse_number. destruct t as [|c r]; [discriminate|].
  destruct (Ascii.eqb c "-"); apply Hu.
Qed.

Lemma existsb_eqb_In (k : string) (keys : list string) :
  existsb (String.eqb k) keys = true <-> In k keys.
Proof.
  rewrite existsb_exists. split.
  - intros (k' & Hin & E). apply String.eqb_eq in E. subst. exact Hin.
  - intros Hin. exists k. split; [exact Hin|apply String.eqb_refl].
Qed.

Lemma precedes_asym (a b : string) : precedes a b = true -> precedes b a = false.
Proof.
  unfold precedes. destruct (array_index a) as [i|], (array_index b) as [j|];
    try discriminate; [|reflexivity].
  intros H. apply N.ltb_lt in H. apply N.ltb_ge. lia.
Qed.

Lemma precedes_trans (a b c : string) :
  precedes a b = true -> precedes b c = true -> precedes a c = true.
Proof.
  unfold precedes.
  destruct (array_index a) as [i|], (array_index b) as [j|], (array_index c) as [l|];
    try discriminate; try reflexivity.
  intros H1 H2. apply N.ltb_lt in H1, H2. apply N.ltb_lt. lia.
Qed.

Lemma obj_replace_keys (k : string) (v : value) (acc : list (string * value)) :
  map fst (obj_replace k v acc) = map fst acc.
Proof.
  induction acc as [|[k' v'] acc IH]; [reflexivity|].
  cbn [obj_replace]. destruct (String.eqb k k') eqn:E; cbn [map fst].
  - apply String.eqb_eq in E. subst. reflexivity.
  - rewrite IH. reflexivity.
Qed.

Lemma obj_insert_keys (k : string) (v : value) (acc : list (string * value)) :
  exists l1 l2,
    map fst acc = l1 ++ l2
    /\ map fst (obj_insert k v acc) = l1 ++ k :: l2
    /\ forallb (fun k' => negb (precedes k k')) l1 = true
    /\ match l2 with [] => True | k' :: _ => precedes k k' = true end.
Proof.
  induction acc as [|[k' v'] acc (l1 & l2 & H1 & H2 & H3 & H4)].
  - exists [], []. repeat split.
  - cbn [obj_insert]. destruct (precedes k k') eqn:E.
    + exists [], (k' :: map fst acc). repeat split. exact E.
    + exists (k' :: l1), l2. cbn [map fst app forallb].
      rewrite H1, H2, H3, E. repeat split. exact H4.
Qed.

Lemma existsb_app_cons (k x : string) (l1 l2 : list string) :
  existsb (String.eqb k) (l1 ++ x :: l2)
  = String.eqb k x || existsb (String.eqb k) (l1 ++ l2).
Proof.
  rewrite !existsb_app. cbn [existsb].
  destruct (existsb (String.eqb k) l1), (String.eqb k x); reflexivity.
Qed.

Lemma distinct_insert (k : string) (l1 l2 : list string) :
  distinct (l1 ++ l2) = true ->
  existsb (String.eqb k) (l1 ++ l2) = false ->
  distinct (l1 ++ k :: l2) = true.
Proof.
  induction l1 as [|x l1 IH]; cbn [app distinct existsb]; intros Hd Hf.
  - rewrite Hf, Hd. reflexivity.
  - apply andb_true_iff in Hd as [Hx Hd].
    apply orb_false_iff in Hf as [Hkx Hf].
    rewrite (IH Hd Hf), andb_true_r, existsb_app_cons.
    apply negb_true_iff in Hx. rewrite Hx, orb_false_r.
    rewrite String.eqb_sym, Hkx. reflexivity.
Qed.

Lemma ordered_insert (k : string) (l1 l2 : list string) :
  ordered (l1 ++ l2) = true ->
  forallb (fun k' => negb (precedes k k')) l1 = true ->
  match l2 with [] => True | k' :: _ => precedes k k' = true end ->
  ordered (l1 ++ k :: l2) = true.
Proof.
  induction l1 as [|x l1 IH]; cbn [app ordered forallb]; intros Ho H1 H2.
  - rewrite Ho, andb_true_r. apply forallb_forall. intros y Hy.
    destruct l2 as [|k' l2]; [destruct Hy|].
    apply negb_true_iff.
    destruct Hy as [<-|Hy]; [apply precedes_asym; exact H2|].
    cbn [ordered] in Ho. apply andb_true_iff in Ho as [Hk' _].
    rewrite forallb_forall in Hk'. specialize (Hk' y Hy).
    apply negb_true_iff in Hk'.
    destruct (precedes y k) eqn:E; [|reflexivity].
    rewrite (precedes_trans y k k' E H2) in Hk'. discriminate.
  - apply andb_true_iff in Ho as [Hx Ho].
    apply andb_true_iff in H1 as [Hkx H1].
    rewrite (IH Ho H1 H2), andb_true_r.
    rewrite forallb_forall in Hx. apply forallb_forall. intros y Hy.
    apply in_app_or in Hy as [Hy|[<-|Hy]].
    + apply Hx. apply in_or_app. left. exact Hy.
    + exact Hkx.
    + apply Hx. apply in_or_app. right. exact Hy.
Qed.

Lemma obj_set_wf (k : string) (v : value) (acc : list (string * value)) :
  wf v = true ->
  forallb (fun m => wf (snd m)) acc = true ->
  enumerated (map fst acc) = true ->
  forallb (fun m => wf (snd m)) (obj_set k v acc) = true
  /\ enumerated (map fst (obj_set k v acc)) = true.
Proof.
  intros Hv Hw He. unfold obj_set.
  destruct (existsb (String.eqb k) (map fst acc)) eqn:Ex.
  - split; [|rewrite obj_replace_keys; exact He].
    clear He Ex. induction acc as [|[k' v'] acc IH]; [reflexivity|].
    cbn [forallb snd] in Hw. apply andb_true_iff in Hw as [Hw1 Hw2].
    cbn [obj_replace]. destruct (String.eqb k k'); cbn [forallb snd].
    + rewrite Hv, Hw2. reflexivity.
    + rewrite Hw1, (IH Hw2). reflexivity.
  - split.
    + clear He Ex. induction acc as [|[k' v'] acc IH]; cbn [obj_insert forallb snd].
      * rewrite Hv. reflexivity.
      * cbn [forallb snd] in Hw. apply andb_true_iff in Hw as [Hw1 Hw2].
        destruct (precedes k k'); cbn [forallb snd].
        -- rewrite Hv, Hw1, Hw2. reflexivity.
        -- rewrite Hw1, (IH Hw2). reflexivity.
    + destruct (obj_insert_keys k v acc) as (l1 & l2 & H1 & H2 & H3 & H4).
      rewrite H2. rewrite H1 in He, Ex.
      unfold enumerated in *. apply andb_true_iff in He as [Hd Ho].
      rewrite (distinct_insert k l1 l2 Hd Ex), (ordered_insert k l1 l2 Ho H3 H4).
      reflexivity.
Qed.

Lemma obj_of_members_wf (ms : list (string * value)) :
  forallb (fun m => wf (snd m)) ms = true ->
  wf (Obj (obj_of_members ms)) = true.
Proof.
  intros Hw. unfold obj_of_members.
  assert (H : forall acc,
             forallb (fun m => wf (snd m)) acc = true ->
             enumerated (map fst acc) = true ->
             wf (Obj (fold_left (fun a m => obj_set (fst m) (snd m) a) ms acc)) = true).
  { induction ms as [|m ms IH]; intros acc Ha Hd.
    - simpl. rewrite Ha, Hd. reflexivity.
    - cbn [forallb] in Hw. apply andb_true_iff in Hw as [Hm Hms].
      cbn [fold_left].
      destruct (obj_set_wf (fst m) (snd m) acc Hm Ha Hd) as [Ha' Hd'].
      apply IH; assumption. }
  apply H; reflexivity.
Qed.

Section GrammarWf.
Variable pv : text -> option (value * text).
Variable pe : text -> option (list value * text).
Variable pm : text -> option (list (string * value) * text).
Hypothesis pv_wf : forall t v r, pv t = Some (v, r) -> wf v = true.
Hypothesis pe_wf : forall t xs r, pe t = Some (xs, r) -> forallb wf xs = true.
Hypothesis pm_wf :
  forall t ms r, pm t = Some (ms, r) -> forallb (fun m => wf (snd m)) ms = true.

Lemma parse_member_wf (t : text) (m : string * value) (r : text) :
  parse_member pv t = Some (m, r) -> wf (snd m) = true.
Proof.
  unfold parse_member. destruct (skip_ws t) as [|c t1]; [discriminate|].
  destruct (Ascii.eqb c dquote); [|discriminate].
  destruct (parse_string t1) as [[k t2]|]; [|discriminate].
  destruct (skip_ws t2) as [|c2 t3]; [discriminate|].
  destruct (Ascii.eqb c2 ":"); [|discriminate].
  destruct (pv t3) as [[v t4]|] eqn:E; [|discriminate].
  intros H. inversion H; subst. simpl. eapply pv_wf. exact E.
Qed.

Lemma parse_token_wf (c : ascii) (t : text) (v : value) (r : text) :
  parse_token pv pe pm c t = Some (v, r) -> wf v = true.
Proof.
  unfold parse_token, keyword.
  destruct (Ascii.eqb c "n").
  { destruct (strip_prefix _ _); intros H; inversion H; reflexivity. }
  destruct (Ascii.eqb c "t").
  { destruct (strip_prefix _ _); intros H; inversion H; reflexivity. }
  destruct (Ascii.eqb c "f").
  { destruct (strip_prefix _ _); intros H; inversion H; reflexivity. }
  destruct (Ascii.eqb c dquote).
  { destruct (parse_string t) as [[s r1]|]; intros H; inversion H; reflexivity. }
  destruct (Ascii.eqb c "[").
  { unfold parse_array. destruct (closes "]" (skip_ws t)).
    - intros H. inversion H. reflexivity.
    - destruct (pv t) as [[x r1]|] eqn:Ex; [|discriminate].
      destruct (pe r1) as [[xs r2]|] eqn:Exs; [|discriminate].
      intros H. inversion H; subst. cbn [wf forallb].
      rewrite (pv_wf _ _ _ Ex), (pe_wf _ _ _ Exs). reflexivity. }
  destruct (Ascii.eqb c "{").
  { unfold parse_object. destruct (closes "}" (skip_ws t)).
    - intros H. inversion H. reflexivity.
    - destruct (parse_member pv t) as [[m r1]|] eqn:Em; [|discriminate].
      destruct (pm r1) as [[ms r2]|] eqn:Ems; [|discriminate].
      intros H. inversion H; subst. apply obj_of_members_wf.
      cbn [forallb]. rewrite (parse_member_wf _ _ _ Em), (pm_wf _ _ _ Ems).
      reflexivity. }
  destruct (parse_number (c :: t)) as [[n r1]|] eqn:En; [|discriminate].
  intros H. inversion H; subst. eapply parse_number_wf. exact En.
Qed.

Lemma parse_more_elements_wf (t : text) (xs : list value) (r : text) :
  parse_more_elements pv pe t = Some (xs, r) -> forallb wf xs = true.
Proof.
  unfold parse_more_elements. destruct (skip_ws t) as [|c t1]; [discriminate|].
  destruct (Ascii.eqb c "]"); [intros H; inversion H; reflexivity|].
  destruct (Ascii.eqb c ","); [|discriminate].
  destruct (pv t1) as [[x r1]|] eqn:Ex; [|discriminate].
  destruct (pe r1) as [[xs' r2]|] eqn:Exs; [|discriminate].
  intros H. inversion H; subst. cbn [forallb].
  rewrite (pv_wf _ _ _ Ex), (pe_wf _ _ _ Exs). reflexivity.
Qed.

Lemma parse_more_members_wf (t : text) (ms : list (string * value)) (r : text) :
  parse_more_members pv pm t = Some (ms, r) ->
  forallb (fun m => wf (snd m)) ms = true.
Proof.
  unfold parse_more_members. destruct (skip_ws t) as [|c t1]; [discriminate|].
  destruct (Ascii.eqb c "}"); [intros H; inversion H; reflexivity|].
  destruct (Ascii.eqb c ","); [|discriminate].
  destruct (parse_member pv t1) as [[m r1]|] eqn:Em; [|discriminate].
  destruct (pm r1) as [[ms' r2]|] eqn:Ems; [|discriminate].
  intros H. inversion H; subst. cbn [forallb].
  rewrite (parse_member_wf _ _ _ Em), (pm_wf _ _ _ Ems). reflexivity.
Qed.
End GrammarWf.

Lemma parse_value_wf (fuel : nat) :
  (forall t v r, parse_value fuel t = Some (v, r) -> wf v = true)
  /\ (forall t xs r, parse_elements fuel t = Some (xs, r) -> forallb wf xs = true)
  /\ (forall t ms r, parse_members fuel t = Some (ms, r) ->
        forallb (fun m => wf (snd m)) ms = true).
Proof.
  induction fuel as [|f (IHv & IHe & IHm)].
  - repeat split; intros; discriminate.
  - split; [|split].
    + intros t v r. cbn [parse_value].
      destruct (skip_ws t) as [|c t1]; [discriminate|].
      apply parse_token_wf; assumption.
    + intros t xs r. cbn [parse_elements].
      apply parse_more_elements_wf; assumption.
    + intros t ms r. cbn [parse_members].
      apply parse_more_members_wf; assumption.
Qed.

(** Every value [JSON.parse] returns is well formed. *)
Lemma parse_wf (s : string) (v : value) : parse s = Some v -> wf v = true.
Proof.
  unfold parse, parse_text. cbv zeta.
  destruct (parse_value _ _) as [[v' rest]|] eqn:E; [|discriminate].
  destruct (skip_ws rest); [|discriminate].
  intros H. inversion H; subst.
  eapply (proj1 (parse_value_wf _)). exact E.
Qed.

(** Serializing a parsed value and parsing it again gives the same value:
    [JSON.parse (JSON.stringify (JSON.parse s)) = JSON.parse s]. *)
Lemma parse_stringify_parse (s : string) (v : value) :
  parse s = Some v -> parse (stringify v) = Some v.
Proof. intros H. apply parse_stringify. eapply parse_wf. exact H. Qed.

(** ** JSON: the fuel of the parser is never the reason of a failure *)

Lemma skip_ws_length (t : text) : (length (skip_ws t) <= length t)%nat.
Proof.
  induction t as [|c t IH]; simpl; [lia|].
  destruct (is_ws c); simpl; lia.
Qed.

Lemma span_digits_length (t ds rest : text) :
  span_digits t = (ds, rest) -> length t = (length ds + length rest)%nat.
Proof.
  revert ds rest. induction t as [|c t IH]; intros ds rest H; simpl in H.
  - inversion H. reflexivity.
  - destruct (is_digit c).
    + destruct (span_digits t) as [ds' rest'] eqn:E. inversion H; subst.
      simpl. rewrite (IH ds' rest eq_refl). reflexivity.
    + inversion H. reflexivity.
Qed.

Lemma digits1_length (t ds rest : text) :
  digits1 t = Some (ds, rest) -> (length rest < length t)%nat.
Proof.
  unfold digits1. destruct (span_digits t) as [ds' rest'] eqn:E.
  apply span_digits_length in E.
  destruct ds'; intros H; inversion H; subst. simpl in E. lia.
Qed.

Lemma parse_number_length (t : text) (x : jnumber) (rest : text) :
  parse_number t = Some (x, rest) -> (length rest < length t)%nat.
Proof.
  assert (Hu : forall negative t0,
             parse_unsigned negative t0 = Some (x, rest) ->
             (length rest < length t0)%nat).
  { intros negative t0. unfold parse_unsigned.
    destruct (parse_int_part t0) as [[ip t1]|] eqn:Ei; [|discriminate].
    destruct (parse_frac_part t1) as [[fp t2]|] eqn:Ef; [|discriminate].
    destruct (parse_exp_part t2) as [[e t3]|] eqn:Ee; [|discriminate].
    intros H. inversion H; subst.
    assert (H1 : (length t1 < length t0)%nat).
    { unfold parse_int_part in Ei. destruct t0 as [|c r]; [discriminate|].
      destruct (Ascii.eqb c "0").
      - inversion Ei; subst. simpl. lia.
      - apply digits1_length in Ei. exact Ei. }
    assert (H2 : (length t2 <= length t1)%nat).
    { unfold parse_frac_part in Ef. destruct t1 as [|c r].
      - inversion Ef; subst. simpl. lia.
      - destruct (Ascii.eqb c ".").
        + apply digits1_length in Ef. simpl. lia.
        + inversion Ef; subst. simpl. lia. }
    assert (H3 : (length rest <= length t2)%nat).
    { assert (Hd : forall neg u, parse_exp_digits neg u = Some (e, rest) ->
                                 (length rest < length u)%nat).
      { intros neg u. unfold parse_exp_digits.
        destruct (digits1 u) as [[ds r']|] eqn:Ed; [|discriminate].
        intros Hx. inversion Hx; subst. eapply digits1_length. exact Ed. }
      assert (Hs : forall u, parse_exp_sign u = Some (e, rest) ->
                             (length rest < length u)%nat).
      { intros u. unfold parse_exp_sign. destruct u as [|c r]; [discriminate|].
        destruct (Ascii.eqb c "-"); [intros Hx; apply Hd in Hx; simpl; lia|].
        destruct (Ascii.eqb c "+"); [intros Hx; apply Hd in Hx; simpl; lia|].
        apply Hd. }
      unfold parse_exp_part in Ee. destruct t2 as [|c r].
      - inversion Ee; subst. simpl. lia.
      - destruct (Ascii.eqb c "e" || Ascii.eqb c "E").
        + apply Hs in Ee. simpl. lia.
        + inversion Ee; subst. simpl. lia. }
    lia. }
  unfold parse_number. destruct t as [|c r]; [discriminate|].
  destruct (Ascii.eqb c "-"); intros H; apply Hu in H; simpl in *; lia.
Qed.

Lemma prepend_length (c : ascii) (o : option (string * text)) (s : string)
    (rest : text) (n : nat) :
  (forall s' r', o = Some (s', r') -> (length r' < n)%nat) ->
  prepend c o = Some (s, rest) -> (length rest < n)%nat.
Proof.
  intros Ho H. destruct o as [[s' r']|]; [|discriminate].
  simpl in H. inversion H; subst. apply (Ho s' rest). reflexivity.
Qed.

Lemma prepend_bytes_length (bs : list ascii) (o : option (string * text)) (s : string)
    (rest : text) (n : nat) :
  (forall s' r', o = Some (s', r') -> (length r' < n)%nat) ->
  prepend_bytes bs o = Some (s, rest) -> (length rest < n)%nat.
Proof.
  intros Ho H. destruct o as [[s' r']|]; [|discriminate].
  simpl in H. inversion H; subst. apply (Ho s' rest). reflexivity.
Qed.

Lemma parse_string_length_below (n : nat) :
  forall t, (length t < n)%nat ->
  forall s rest, parse_string t = Some (s, rest) -> (length rest < length t)%nat.
Proof.
  induction n as [|n IH]; intros t Hn s rest; [lia|].
  destruct t as [|c r]; [discriminate|].
  cbn [parse_string]. simpl in Hn.
  destruct (Ascii.eqb c dquote).
  { intros H. inversion H; subst. simpl. lia. }
  destruct (Ascii.eqb c "\").
  - destruct r as [|e r1]; [discriminate|].
    destruct (Ascii.eqb e "u").
    + destruct r1 as [|h1 [|h2 [|h3 [|h4 r2]]]]; try discriminate.
      destruct (hex4 h1 h2 h3 h4) as [code|]; [|discriminate].
      assert (Hplain : forall bs,
                 prepend_bytes bs (parse_string r2) = Some (s, rest) ->
                 (length rest < length (c :: e :: h1 :: h2 :: h3 :: h4 :: r2))%nat).
      { intros bs H. apply (prepend_bytes_length _ _ _ _ (length r2)) in H.
        - simpl. lia.
        - intros s' r' E. apply IH in E; [exact E|simpl in Hn; lia]. }
      destruct (if is_high_surrogate code then low_surrogate_escape r2 else None)
        as [low|]; [|apply Hplain].
      destruct r2 as [|x1 [|x2 [|x3 [|x4 [|x5 [|x6 r3]]]]]]; try apply Hplain.
      intros H. apply (prepend_bytes_length _ _ _ _ (length r3)) in H.
      * simpl. lia.
      * intros s' r' E. apply IH in E; [exact E|simpl in Hn; lia].
    + destruct (unescape e); [|discriminate].
      intros H. apply (prepend_length _ _ _ _ (length r1)) in H.
      * simpl. lia.
      * intros s' r' E. apply IH in E; [exact E|simpl in Hn; lia].
  - destruct (nat_of_ascii c <? 32)%nat; [discriminate|].
    intros H. apply (prepend_length _ _ _ _ (length r)) in H.
    + simpl. lia.
    + intros s' r' E. apply IH in E; [exact E|lia].
Qed.

Lemma parse_string_length (t : text) (s : string) (rest : text) :
  parse_string t = Some (s, rest) -> (length rest < length t)%nat.
Proof. apply (parse_string_length_below (S (length t))). lia. Qed.

Lemma strip_prefix_length (p t rest : text) :
  strip_prefix p t = Some rest -> (length rest <= length t)%nat.
Proof.
  revert t. induction p as [|a p IH]; intros t H.
  - inversion H. lia.
  - destruct t as [|b t]; [discriminate|]. simpl in H.
    destruct (Ascii.eqb a b); [|discriminate]. apply IH in H. simpl. lia.
Qed.

Lemma skip_ws_cons_length (t : text) (c : ascii) (r : text) :
  skip_ws t = c :: r -> (length r < length t)%nat.
Proof.
  intros H. pose proof (skip_ws_length t) as Hl. rewrite H in Hl. simpl in Hl. lia.
Qed.

Section GrammarLength.
Variable pv : text -> option (value * text).
Variable pe : text -> option (list value * text).
Variable pm : text -> option (list (string * value) * text).
Hypothesis pv_length : forall t v r, pv t = Some (v, r) -> (length r < length t)%nat.
Hypothesis pe_length : forall t xs r, pe t = Some (xs, r) -> (length r < length t)%nat.
Hypothesis pm_length : forall t ms r, pm t = Some (ms, r) -> (length r < length t)%nat.

Lemma parse_member_length (t : text) (m : string * value) (r : text) :
  parse_member pv t = Some (m, r) -> (length r < length t)%nat.
Proof.
  unfold parse_member. destruct (skip_ws t) as [|c t1] eqn:E1; [discriminate|].
  apply skip_ws_cons_length in E1.
  destruct (Ascii.eqb c dquote); [|discriminate].
  destruct (parse_string t1) as [[k t2]|] eqn:E2; [|discriminate].
  apply parse_string_length in E2.
  destruct (skip_ws t2) as [|c2 t3] eqn:E3; [discriminate|].
  apply skip_ws_cons_length in E3.
  destruct (Ascii.eqb c2 ":"); [|discriminate].
  destruct (pv t3) as [[v t4]|] eqn:E4; [|discriminate].
  apply pv_length in E4. intros H. inversion H; subst. lia.
Qed.

Lemma parse_token_length (c : ascii) (t : text) (v : value) (r : text) :
  parse_token pv pe pm c t = Some (v, r) -> (length r <= length t)%nat.
Proof.
  assert (Hk : forall w x, keyword w x (c :: t) = Some (v, r) ->
                           w <> EmptyString -> (length r <= length t)%nat).
  { intros w x. unfold keyword. destruct w as [|a w]; [congruence|].
    cbn [list_ascii_of_string strip_prefix].
    destruct (Ascii.eqb a c); [|discriminate].
    destruct (strip_prefix (list_ascii_of_string w) t) as [rest|] eqn:E; [|discriminate].
    intros H _. inversion H; subst. eapply strip_prefix_length. exact E. }
  unfold parse_token.
  destruct (Ascii.eqb c "n"); [intros H; apply Hk in H; [exact H|discriminate]|].
  destruct (Ascii.eqb c "t"); [intros H; apply Hk in H; [exact H|discriminate]|].
  destruct (Ascii.eqb c "f"); [intros H; apply Hk in H; [exact H|discriminate]|].
  destruct (Ascii.eqb c dquote).
  { destruct (parse_string t) as [[s r1]|] eqn:E; [|discriminate].
    apply parse_string_length in E. intros H. inversion H; subst. lia. }
  destruct (Ascii.eqb c "[").
  { unfold parse_array. destruct (closes "]" (skip_ws t)).
    - intros H. inversion H; subst. pose proof (skip_ws_length t).
      destruct (skip_ws t); simpl in *; lia.
    - destruct (pv t) as [[x r1]|] eqn:Ex; [|discriminate].
      destruct (pe r1) as [[xs r2]|] eqn:Exs; [|discriminate].
      apply pv_length in Ex. apply pe_length in Exs.
      intros H. inversion H; subst. lia. }
  destruct (Ascii.eqb c "{").
  { unfold parse_object. destruct (closes "}" (skip_ws t)).
    - intros H. inversion H; subst. pose proof (skip_ws_length t).
      destruct (skip_ws t); simpl in *; lia.
    - destruct (parse_member pv t) as [[m r1]|] eqn:Em; [|discriminate].
      destruct (pm r1) as [[ms r2]|] eqn:Ems; [|discriminate].
      apply parse_member_length in Em. apply pm_length in Ems.
      intros H. inversion H; subst. lia. }
  destruct (parse_number (c :: t)) as [[n r1]|] eqn:En; [|discriminate].
  apply parse_number_length in En. intros H. inversion H; subst. simpl in En. lia.
Qed.

Lemma parse_more_elements_length (t : text) (xs : list value) (r : text) :
  parse_more_elements pv pe t = Some (xs, r) -> (length r < length t)%nat.
Proof.
  unfold parse_more_elements. destruct (skip_ws t) as [|c t1] eqn:E1; [discriminate|].
  apply skip_ws_cons_length in E1.
  destruct (Ascii.eqb c "]"); [intros H; inversion H; subst; exact E1|].
  destruct (Ascii.eqb c ","); [|discriminate].
  destruct (pv t1) as [[x r1]|] eqn:Ex; [|discriminate].
  destruct (pe r1) as [[xs' r2]|] eqn:Exs; [|discriminate].
  apply pv_length in Ex. apply pe_length in Exs.
  intros H. inversion H; subst. lia.
Qed.

Lemma parse_more_members_length (t : text) (ms : list (string * value)) (r : text) :
  parse_more_members pv pm t = Some (ms, r) -> (length r < length t)%nat.
Proof.
  unfold parse_more_members. destruct (skip_ws t) as [|c t1] eqn:E1; [discriminate|].
  apply skip_ws_cons_length in E1.
  destruct (Ascii.eqb c "}"); [intros H; inversion H; subst; exact E1|].
  destruct (Ascii.eqb c ","); [|discriminate].
  destruct (parse_member pv t1) as [[m r1]|] eqn:Em; [|discriminate].
  destruct (pm r1) as [[ms' r2]|] eqn:Ems; [|discriminate].
  apply parse_member_length in Em. apply pm_length in Ems.
  intros H. inversion H; subst. lia.
Qed.
End GrammarLength.

(** Every parser consumes at least one character. *)
Lemma parse_value_length (fuel : nat) :
  (forall t v r, parse_value fuel t = Some (v, r) -> (length r < length t)%nat)
  /\ (forall t xs r, parse_elements fuel t = Some (xs, r) -> (length r < length t)%nat)
  /\ (forall t ms r, parse_members fuel t = Some (ms, r) -> (length r < length t)%nat).
Proof.
  induction fuel as [|f (IHv & IHe & IHm)].
  - repeat split; intros; discriminate.
  - split; [|split].
    + intros t v r. cbn [parse_value].
      destruct (skip_ws t) as [|c t1] eqn:E; [discriminate|].
      apply skip_ws_cons_length in E. intros H.
      apply parse_token_length in H; [lia|assumption..].
    + intros t xs r. cbn [parse_elements].
      apply parse_more_elements_length; assumption.
    + intros t ms r. cbn [parse_members].
      apply parse_more_members_length; assumption.
Qed.

Section GrammarAgree.
Variable pv pv' : text -> option (value * text).
Variable pe pe' : text -> option (list value * text).
Variable pm pm' : text -> option (list (string * value) * text).
Variable n : nat.
Hypothesis pv_agree : forall t, (length t < n)%nat -> pv t = pv' t.
Hypothesis pe_agree : forall t, (length t < n)%nat -> pe t = pe' t.
Hypothesis pm_agree : forall t, (length t < n)%nat -> pm t = pm' t.
Hypothesis pv_length : forall t v r, pv t = Some (v, r) -> (length r < length t)%nat.

Lemma parse_member_agree (t : text) :
  (length t <= n)%nat -> parse_member pv t = parse_member pv' t.
Proof.
  intros Ht. unfold parse_member.
  destruct (skip_ws t) as [|c t1] eqn:E1; [reflexivity|].
  apply skip_ws_cons_length in E1.
  destruct (Ascii.eqb c dquote); [|reflexivity].
  destruct (parse_string t1) as [[k t2]|] eqn:E2; [|reflexivity].
  apply parse_string_length in E2.
  destruct (skip_ws t2) as [|c2 t3] eqn:E3; [reflexivity|].
  apply skip_ws_cons_length in E3.
  destruct (Ascii.eqb c2 ":"); [|reflexivity].
  rewrite pv_agree by lia. reflexivity.
Qed.

Lemma parse_token_agree (c : ascii) (t : text) :
  (length t < n)%nat ->
  parse_token pv pe pm c t = parse_token pv' pe' pm' c t.
Proof.
  intros Ht. unfold parse_token, parse_array, parse_object.
  destruct (Ascii.eqb c "n"); [reflexivity|].
  destruct (Ascii.eqb c "t"); [reflexivity|].
  destruct (Ascii.eqb c "f"); [reflexivity|].
  destruct (Ascii.eqb c dquote); [reflexivity|].
  destruct (Ascii.eqb c "[").
  { destruct (closes "]" (skip_ws t)); [reflexivity|].
    rewrite <- pv_agree by exact Ht.
    destruct (pv t) as [[x r1]|] eqn:Ex; [|reflexivity].
    apply pv_length in Ex. rewrite pe_agree by lia. reflexivity. }
  destruct (Ascii.eqb c "{"); [|reflexivity].
  destruct (closes "}" (skip_ws t)); [reflexivity|].
  rewrite <- parse_member_agree by lia.
  destruct (parse_member pv t) as [[m r1]|] eqn:Em; [|reflexivity].
  apply (parse_member_length pv pv_length) in Em.
  rewrite pm_agree by lia. reflexivity.
Qed.

Lemma parse_more_elements_agree (t : text) :
  (length t <= n)%nat ->
  parse_more_elements pv pe t = parse_more_elements pv' pe' t.
Proof.
  intros Ht. unfold parse_more_elements.
  destruct (skip_ws t) as [|c t1] eqn:E1; [reflexivity|].
  apply skip_ws_cons_length in E1.
  destruct (Ascii.eqb c "]"); [reflexivity|].
  destruct (Ascii.eqb c ","); [|reflexivity].
  rewrite <- pv_agree by lia.
  destruct (pv t1) as [[x r1]|] eqn:Ex; [|reflexivity].
  apply pv_length in Ex. rewrite pe_agree by lia. reflexivity.
Qed.

Lemma parse_more_members_agree (t : text) :
  (length t <= n)%nat ->
  parse_more_members pv pm t = parse_more_members pv' pm' t.
Proof.
  intros Ht. unfold parse_more_members.
  destruct (skip_ws t) as [|c t1] eqn:E1; [reflexivity|].
  apply skip_ws_cons_length in E1.
  destruct (Ascii.eqb c "}"); [reflexivity|].
  destruct (Ascii.eqb c ","); [|reflexivity].
  rewrite <- parse_member_agree by lia.
  destruct (parse_member pv t1) as [[m r1]|] eqn:Em; [|reflexivity].
  apply (parse_member_length pv pv_length) in Em.
  rewrite pm_agree by lia. reflexivity.
Qed.
End GrammarAgree.

(** One more unit of fuel changes nothing once there is more fuel than
    text. *)
Lemma parse_value_more_fuel (fuel : nat) :
  (forall t, (length t < fuel)%nat -> parse_value fuel t = parse_value (S fuel) t)
  /\ (forall t, (length t < fuel)%nat -> parse_elements fuel t = parse_elements (S fuel) t)
  /\ (forall t, (length t < fuel)%nat -> parse_members fuel t = parse_members (S fuel) t).
Proof.
  induction fuel as [|f (IHv & IHe & IHm)].
  - repeat split; intros; lia.
  - destruct (parse_value_length f) as (Lv & _ & _).
    split; [|split].
    + intros t Ht. cbn [parse_value].
      destruct (skip_ws t) as [|c t1] eqn:E; [reflexivity|].
      apply skip_ws_cons_length in E.
      apply (parse_token_agree _ _ _ _ _ _ f); try assumption. lia.
    + intros t Ht. cbn [parse_elements].
      apply (parse_more_elements_agree _ _ _ _ f); try assumption. lia.
    + intros t Ht. cbn [parse_members].
      apply (parse_more_members_agree _ _ _ _ f); try assumption. lia.
Qed.

(** [JSON.parse] gives the same result with any larger amount of fuel: the
    bound on the recursion never makes a text fail to parse. *)
Lemma parse_fuel_adequate (s : string) (extra : nat) :
  parse_text (S (length (list_ascii_of_string s)) + extra) (list_ascii_of_string s)
  = parse s.
Proof.
  unfold parse, parse_text. cbv zeta.
  set (t := list_ascii_of_string s).
  assert (H : parse_value (S (length t) + extra) t = parse_value (S (length t)) t).
  { induction extra as [|k IH]; [f_equal; lia|].
    rewrite <- IH. replace (S (length t) + S k)%nat with (S (S (length t) + k)) by lia.
    symmetry. apply (proj1 (parse_value_more_fuel _)). lia. }
  rewrite H. reflexivity.
Qed.

(** ** The stored snapshot *)

Lemma stringify_nonempty (v : value) : wf v = true -> nonempty (stringify v) = true.
Proof.
  intros Hwf. destruct (print_head v Hwf) as (c & t & E & _).
  unfold stringify. rewrite E. reflexivity.
Qed.

(** C2, as stated, fails: the text stored is the serialization of the parsed
    body, not the body as received; a body with a space after a colon is
    stored without the space, and a number spelled 85.0 is stored as 85. *)
Lemma stored_text_is_not_response_text :
  sessionStorage
    (Home.submit (Samples.world "https://www.idealista.pt/imovel/1/"
                    (Responded 200 Samples.spaced_body)))
  !! "analysisData"%string = Some Samples.compact_body
  /\ Samples.compact_body <> Samples.spaced_body
  /\ option_map stringify (parse Samples.spaced_body) = Some Samples.compact_body
  /\ option_map stringify (parse Samples.float_body) = Some Samples.float_body_stored
  /\ Samples.float_body_stored <> Samples.float_body.
Proof.
  split; [|split; [|split; [|split]]]; [| | |vm_compute; reflexivity|vm_compute; discriminate].
  - rewrite submit_run by reflexivity. rewrite analyzeProperty_run.
    cbv zeta. cbn [network Samples.world set_loading].
    replace (ok {| status := 200; response_text := Samples.spaced_body |})
      with true by reflexivity.
    replace (parse Samples.spaced_body)
      with (Some (Obj [("success"%string, Bool true)])) by (vm_compute; reflexivity).
    cbn [sessionStorage set_route set_sessionStorage set_requests].
    rewrite lookup_insert_eq. reflexivity.
  - vm_compute. discriminate.
  - vm_compute. reflexivity.
Qed.

(** C2, amended: for every successful response whose body parses and
    holds no number that the run time would change (more than 15
    significant digits, or out of the range of the doubles), the value
    written to session storage under "analysisData" is [JSON.stringify] of
    the parsed body -- the body re-serialized, which is the response text
    only when that text is already in serialized form -- and it is exactly
    the string the report view reads on its next mount; parsing it gives
    the value the handler received, so the state of the view gets that
    value (write-then-read round-trips, parse-after-stringify is the
    identity on parsed values and stringify-after-parse is the identity on
    serialized texts).  The one body for which the view gets no state of
    the type of the payload is null.  No other key changes. *)
Theorem successful_submit_stores_serialization
    (w : World) (st : nat) (body : string) (data : value) :
  whitespace_only (link w) = false ->
  network w (Api.analyze_request (Api.API_BASE w) (link w)) = Responded st body ->
  ok {| status := st; response_text := body |} = true ->
  parse body = Some data ->
  plain data = true ->
  sessionStorage_getItem (sessionStorage (Home.submit w)) "analysisData"
  = Some (stringify data)
  /\ parse (stringify data) = Some data
  /\ option_map stringify (parse (stringify data)) = Some (stringify data)
  /\ (forall cast,
        data <> Null ->
        ReportCards.data (ReportCards.mount cast (sessionStorage (Home.submit w)))
        = cast data)
  /\ (forall cast,
        data <> Null ->
        ReportPlain.data (ReportPlain.mount cast (sessionStorage (Home.submit w)))
        = cast data)
  /\ (forall cast,
        data <> Null ->
        ReportLegacy.data (ReportLegacy.mount cast (sessionStorage (Home.submit w)))
        = cast data)
  /\ (data = Null <-> null_snapshot (sessionStorage (Home.submit w)) = true)
  /\ (forall key, key <> "analysisData"%string ->
        sessionStorage (Home.submit w) !! key = sessionStorage w !! key)
  /\ route (Home.submit w) = "/report"%string.
Proof.
  intros Hnb Hnet Hok Hparse _.
  pose proof (parse_stringify_parse body data Hparse) as Hback.
  pose proof (stringify_nonempty data (parse_wf body data Hparse)) as Hne.
  assert (Hrun : Home.submit w =
    set_route "/report"
      (set_sessionStorage
         (<["analysisData"%string := stringify data]> (sessionStorage w))
         (set_requests
            (requests w ++ [Api.analyze_request (Api.API_BASE w) (link w)])
            (set_loading true w)))).
  { rewrite (submit_run w (nonblank_trim _ Hnb)), analyzeProperty_run.
    cbv zeta.
    change (Api.API_BASE (set_loading true w)) with (Api.API_BASE w).
    change (link (set_loading true w)) with (link w).
    change (network (set_loading true w)) with (network w).
    rewrite Hnet, Hok, Hparse. reflexivity. }
  rewrite Hrun. cbn [sessionStorage set_route set_sessionStorage route].
  assert (Hget : sessionStorage_getItem
                   (<["analysisData"%string := stringify data]> (sessionStorage w))
                   "analysisData" = Some (stringify data)).
  { unfold sessionStorage_getItem. apply lookup_insert_eq. }
  split; [exact Hget|]. split; [exact Hback|].
  split; [rewrite Hback; reflexivity|].
  split; [|split; [|split; [|split; [|split]]]].
  - intros cast _. unfold ReportCards.mount, ReportCards.useEffect.
    cbv zeta. rewrite Hget, Hne, Hback. reflexivity.
  - intros cast _. unfold ReportPlain.mount, ReportPlain.useEffect.
    cbv zeta. rewrite Hget, Hne, Hback. reflexivity.
  - intros cast _. unfold ReportLegacy.mount, ReportLegacy.useEffect.
    cbv zeta. rewrite Hget, Hne, Hback. reflexivity.
  - unfold null_snapshot. rewrite Hget, Hne, Hback.
    destruct data; split; intros H; try reflexivity; discriminate H.
  - intros key Hkey. apply lookup_insert_ne. congruence.
  - reflexivity.
Qed.

(** A response with status 200 and the spaced body. *)
Lemma successful_submit_stores_serialization_witness :
  whitespace_only "https://www.idealista.pt/imovel/1/" = false
  /\ ok {| status := 200; response_text := Samples.spaced_body |} = true
  /\ parse Samples.spaced_body = Some (Obj [("success"%string, Bool true)])
  /\ plain (Obj [("success"%string, Bool true)]) = true
  /\ sessionStorage_getItem
       (sessionStorage
          (Home.submit (Samples.world "https://www.idealista.pt/imovel/1/"
                          (Responded 200 Samples.spaced_body))))
       "analysisData"
     = Some (stringify (Obj [("success"%string, Bool true)])).
Proof.
  assert (Hp : parse Samples.spaced_body = Some (Obj [("success"%string, Bool true)]))
    by (vm_compute; reflexivity).
  split; [reflexivity|]. split; [reflexivity|]. split; [exact Hp|].
  split; [reflexivity|].
  exact (proj1 (successful_submit_stores_serialization
                  (Samples.world "https://www.idealista.pt/imovel/1/"
                     (Responded 200 Samples.spaced_body))
                  200 Samples.spaced_body (Obj [("success"%string, Bool true)])
                  eq_refl eq_refl eq_refl Hp eq_refl)).
Defined.

(* ===================================================================== *)
(** * Further properties of the code                                     *)
(* ===================================================================== *)

(** ** Condition tiers, again *)

Import Reference2.

Lemma ge_Fin_true_inv (v t : Q) : ge (Fin v) (Fin t) = true -> (t <= v)%Q.
Proof.
  unfold ge, lt. rewrite negb_involutive. apply Qle_bool_imp_le.
Qed.

Lemma ge_Fin_false_inv (v t : Q) : ge (Fin v) (Fin t) = false -> (v < t)%Q.
Proof.
  unfold ge, lt. rewrite negb_involutive. intros H.
  apply Qnot_le_lt. intros Hle. apply Qle_bool_iff in Hle. congruence.
Qed.

Lemma getConditionColor_label (condition : option number) :
  getConditionColor condition = colour_of_label (getConditionLabel condition).
Proof.
  unfold getConditionColor, getConditionLabel.
  destruct (truthy condition); [|reflexivity]. cbn [negb].
  destruct (ge (ToNumber condition) (Fin 3.5)); [reflexivity|].
  destruct (ge (ToNumber condition) (Fin 2.5)); [reflexivity|].
  destruct (ge (ToNumber condition) (Fin 1.5)); reflexivity.
Qed.

(** X2: for every rating, absent, [NaN] and the infinities included, the
    colour is the one that goes with the label: green with "Excellent",
    yellow with "Good", grey with "N/A", and red with both "Fair" and
    "Poor". *)
Theorem colour_agrees_with_label (condition : option number) :
  getConditionColor condition = colour_of_label (getConditionLabel condition)
  /\ (getConditionLabel condition = "Fair"%string
      \/ getConditionLabel condition = "Poor"%string
      <-> getConditionColor condition = "text-red-600"%string).
Proof.
  split; [apply getConditionColor_label|].
  unfold getConditionColor, getConditionLabel.
  destruct (truthy condition); cbn [negb];
    [|split; [intros [H|H]; discriminate H|discriminate]].
  destruct (ge (ToNumber condition) (Fin 3.5));
    [split; [intros [H|H]; discriminate H|discriminate]|].
  destruct (ge (ToNumber condition) (Fin 2.5));
    [split; [intros [H|H]; discriminate H|discriminate]|].
  destruct (ge (ToNumber condition) (Fin 1.5)); split; auto.
Qed.

(** X3: among the ratings other than zero, a higher rating never gets a
    worse label. *)
Theorem label_monotone (v w : Q) :
  ~ (v == 0)%Q -> ~ (w == 0)%Q -> (v <= w)%Q ->
  (rank (getConditionLabel (Some (Fin v))) <= rank (getConditionLabel (Some (Fin w))))%nat.
Proof.
  intros Hv Hw Hle.
  apply truthy_Fin_true in Hv. apply truthy_Fin_true in Hw.
  unfold getConditionLabel. rewrite Hv, Hw. cbn [negb ToNumber].
  assert (Hup : forall t : Q, ge (Fin v) (Fin t) = true -> ge (Fin w) (Fin t) = true).
  { intros t H. apply ge_Fin. apply ge_Fin_true_inv in H.
    eapply Qle_trans; eassumption. }
  destruct (ge (Fin v) (Fin 3.5)) eqn:E1.
  { rewrite (Hup _ E1). reflexivity. }
  destruct (ge (Fin v) (Fin 2.5)) eqn:E2.
  { rewrite (Hup _ E2). destruct (ge (Fin w) (Fin 3.5)); vm_compute; lia. }
  destruct (ge (Fin v) (Fin 1.5)) eqn:E3.
  { rewrite (Hup _ E3).
    destruct (ge (Fin w) (Fin 3.5)); [vm_compute; lia|].
    destruct (ge (Fin w) (Fin 2.5)); vm_compute; lia. }
  destruct (ge (Fin w) (Fin 3.5)); [vm_compute; lia|].
  destruct (ge (Fin w) (Fin 2.5)); [vm_compute; lia|].
  destruct (ge (Fin w) (Fin 1.5)); vm_compute; lia.
Qed.

Lemma label_monotone_witness :
  ~ (1.4 == 0)%Q /\ ~ (2.5 == 0)%Q /\ (1.4 <= 2.5)%Q
  /\ (rank (getConditionLabel (Some (Fin 1.4)))
      <= rank (getConditionLabel (Some (Fin 2.5))))%nat.
Proof.
  assert (H1 : ~ (1.4 == 0)%Q) by discriminate.
  assert (H2 : ~ (2.5 == 0)%Q) by discriminate.
  assert (H3 : (1.4 <= 2.5)%Q) by discriminate.
  split; [exact H1|]. split; [exact H2|]. split; [exact H3|].
  exact (label_monotone 1.4 2.5 H1 H2 H3).
Defined.

(** ** Labels, character by character *)

Lemma join_cons (sep x : string) (l : list string) :
  join sep (x :: l)
  = (x ++ match l with [] => EmptyString | _ :: _ => sep ++ join sep l end)%string.
Proof. destruct l; [symmetry; apply append_empty_r|reflexivity]. Qed.

Lemma label_chars_split (s : string) :
  exists w ws,
    split "_" s = w :: ws
    /\ label_chars false s
       = (w ++ match ws with
               | [] => EmptyString
               | _ :: _ => " " ++ join " " (map capitalize ws)
               end)%string
    /\ label_chars true s
       = (capitalize w ++ match ws with
                          | [] => EmptyString
                          | _ :: _ => " " ++ join " " (map capitalize ws)
                          end)%string.
Proof.
  induction s as [|c r (w & ws & Hs & Hf & Ht)].
  - exists EmptyString, []. repeat split; reflexivity.
  - cbn [split label_chars]. destruct (Ascii.eqb c "_") eqn:Hc.
    + exists EmptyString, (w :: ws). split; [rewrite Hs; reflexivity|].
      cbn [map]. rewrite join_cons, Ht. split; destruct ws; reflexivity.
    + rewrite Hs. exists (String c w), ws. split; [reflexivity|].
      rewrite Hf. split; reflexivity.
Qed.

Lemma formatRoomType_label_chars (s : string) :
  formatRoomType s = label_chars true s.
Proof.
  destruct (label_chars_split s) as (w & ws & Hs & _ & Ht).
  unfold formatRoomType. rewrite Ht, Hs.
  rewrite (map_ext _ _ capitalize_word). cbn [map]. rewrite join_cons.
  destruct ws; reflexivity.
Qed.

Lemma upper_char_not_underscore (c : ascii) :
  Ascii.eqb c "_" = false -> Ascii.eqb (upper_char c) "_" = false.
Proof. destruct c as [[] [] [] [] [] [] [] []]; intros H; vm_compute in *; congruence. Qed.

Lemma upper_char_idempotent (c : ascii) : upper_char (upper_char c) = upper_char c.
Proof. destruct c as [[] [] [] [] [] [] [] []]; vm_compute; reflexivity. Qed.

Lemma label_chars_length (b : bool) (s : string) :
  String.length (label_chars b s) = String.length s.
Proof.
  revert b. induction s as [|c r IH]; intros b; [reflexivity|].
  cbn [label_chars]. destruct (Ascii.eqb c "_"); cbn [String.length]; rewrite IH; reflexivity.
Qed.

Lemma label_chars_no_underscore (b : bool) (s : string) :
  occurs "_" (label_chars b s) = false.
Proof.
  revert b. induction s as [|c r IH]; intros b; [reflexivity|].
  cbn [label_chars]. destruct (Ascii.eqb c "_") eqn:Hc; cbn [occurs].
  - rewrite IH. reflexivity.
  - rewrite IH, orb_false_r. rewrite Ascii.eqb_sym.
    destruct b; [apply upper_char_not_underscore|]; exact Hc.
Qed.

Lemma label_chars_fixed (s : string) :
  occurs "_" s = false -> label_chars false s = s.
Proof.
  induction s as [|c r IH]; [reflexivity|].
  cbn [occurs label_chars]. rewrite Ascii.eqb_sym. intros H.
  apply orb_false_iff in H. destruct H as [Hc Hr].
  rewrite Hc, (IH Hr). reflexivity.
Qed.

(** X4: on every input whose tokens between underscores start with an
    ASCII character (or are empty), [formatRoomType] and
    [formatCategoryName] work character by character: every underscore
    becomes one space, a character that starts the string or follows an
    underscore goes to upper case, and every other character is kept.  So
    the result is as long as the input and holds no underscore. *)
Theorem format_label_charwise (s : string) :
  ascii_initials s = true ->
  formatRoomType s = label_chars true s
  /\ formatCategoryName s = label_chars true s
  /\ String.length (formatRoomType s) = String.length s
  /\ occurs "_" (formatRoomType s) = false.
Proof.
  intros _. pose proof (formatRoomType_label_chars s) as H.
  split; [exact H|]. split; [exact H|].
  rewrite H. split; [apply label_chars_length|apply label_chars_no_underscore].
Qed.

Lemma format_label_charwise_witness :
  ascii_initials "living_room" = true
  /\ formatRoomType "living_room" = label_chars true "living_room"
  /\ String.length (formatRoomType "living_room") = String.length "living_room".
Proof.
  split; [reflexivity|].
  pose proof (format_label_charwise "living_room" eq_refl) as H.
  split; [exact (proj1 H)|exact (proj1 (proj2 (proj2 H)))].
Defined.

(** X5: formatting a label that is already formatted changes nothing. *)
Theorem formatRoomType_idempotent (s : string) :
  formatRoomType (formatRoomType s) = formatRoomType s.
Proof.
  rewrite !formatRoomType_label_chars.
  pose proof (label_chars_no_underscore true s) as Hno.
  destruct s as [|c r]; [reflexivity|].
  cbn [label_chars] in *. destruct (Ascii.eqb c "_") eqn:Hc.
  - cbn [label_chars occurs] in *.
    replace (Ascii.eqb " " "_") with false by reflexivity.
    replace (upper_char " ") with " "%char by reflexivity.
    rewrite label_chars_fixed; [reflexivity|].
    cbn [occurs] in Hno. apply orb_false_iff in Hno. apply Hno.
  - cbn [label_chars occurs] in *.
    rewrite (upper_char_not_underscore _ Hc).
    rewrite upper_char_idempotent.
    rewrite label_chars_fixed; [reflexivity|].
    apply orb_false_iff in Hno. apply Hno.
Qed.

(** ** Amounts, again *)

Lemma round_half_expand_integer (z : Z) :
  Intl.round_half_expand (inject_Z z) = Z.to_N (Z.abs z).
Proof.
  unfold Intl.round_half_expand, inject_Z. cbn [Qabs Qnum Qden].
  f_equal. rewrite Z.mul_comm, Z.mul_1_r.
  replace (Z.abs z * 2 + 1)%Z with (1 + Z.abs z * 2)%Z by lia.
  rewrite Z.div_add by lia. reflexivity.
Qed.

(** X6: an amount in whole euros is shown exactly: what [formatCurrency]
    prints for an integer spells that integer, zero and the negative ones
    included. *)
Theorem formatCurrency_integer_exact (z : Z) :
  numeric_part Intl.pt_PT_EUR (formatCurrency (Fin (inject_Z z))) = Some z.
Proof.
  rewrite numeric_part_formatCurrency, round_half_expand_integer.
  rewrite Z2N.id by lia. f_equal.
  unfold is_negative, inject_Z, Qle_bool. cbn [Qnum Qden negb].
  change (0 * 1)%Z with 0%Z. replace (z * 1)%Z with z by lia.
  destruct (Z.leb_spec 0 z); cbn [negb]; lia.
Qed.

(** X7: a negative amount is printed as a minus sign followed by what is
    printed for the amount without its sign; rounding is on the magnitude,
    so an amount between -0.5 and 0 is shown as minus zero euros. *)
Theorem formatCurrency_negative_mirror (q : Q) :
  (0 < q)%Q ->
  formatCurrency (Fin (- q)) = ("-" ++ formatCurrency (Fin q))%string.
Proof.
  intros Hq. unfold formatCurrency, Intl.format_currency0.
  assert (Hneg : is_negative (- q) = true).
  { unfold is_negative. apply negb_true_iff, not_true_iff_false.
    rewrite Qle_bool_iff. intros H.
    apply (Qopp_le_compat 0 (- q)) in H. rewrite Qopp_involutive in H.
    exact (Qlt_not_le _ _ Hq H). }
  assert (Hpos : is_negative q = false).
  { unfold is_negative. apply negb_false_iff, Qle_bool_iff, Qlt_le_weak, Hq. }
  assert (Hr : Intl.round_half_expand (- q) = Intl.round_half_expand q).
  { unfold Intl.round_half_expand. destruct q as [n d].
    cbn [Qabs Qopp Qnum Qden]. rewrite Z.abs_opp. reflexivity. }
  rewrite Hneg, Hpos, Hr. reflexivity.
Qed.

Lemma formatCurrency_negative_mirror_witness :
  (0 < 0.4)%Q
  /\ formatCurrency (Fin (- 0.4)) = ("-0" ++ Intl.nbsp ++ Intl.euro)%string.
Proof.
  assert (H : (0 < 0.4)%Q) by reflexivity.
  split; [exact H|].
  exact (eq_trans (formatCurrency_negative_mirror 0.4 H) eq_refl).
Defined.

(** ** Percentages *)

Import Percent.

Lemma N_of_digits_zero (ds : text) :
  N_of_digits ("0"%char :: ds) = N_of_digits ds.
Proof.
  unfold N_of_digits. cbn [string_of_list_ascii NilEmpty.uint_of_string].
  destruct (NilEmpty.uint_of_string (string_of_list_ascii ds)); reflexivity.
Qed.

Lemma N_of_digits_zeros (k : nat) (ds : text) :
  N_of_digits (repeat "0"%char k ++ ds) = N_of_digits ds.
Proof.
  induction k as [|k IH]; [reflexivity|].
  cbn [repeat app]. rewrite N_of_digits_zero. exact IH.
Qed.

Lemma forallb_digits (ds : text) :
  Forall (fun c => is_digit c = true) ds -> forallb is_digit ds = true.
Proof. intros H. apply forallb_forall. apply List.Forall_forall. exact H. Qed.

Lemma pad_zeros_spec (f : nat) (m : text) :
  Forall (fun c => is_digit c = true) m ->
  Forall (fun c => is_digit c = true) (pad_zeros f m)
  /\ (f < length (pad_zeros f m))%nat
  /\ N_of_digits (pad_zeros f m) = N_of_digits m.
Proof.
  intros Hm. unfold pad_zeros. split; [|split].
  - apply Forall_app. split; [apply repeat_zero_digits|exact Hm].
  - rewrite length_app, repeat_length. lia.
  - apply N_of_digits_zeros.
Qed.

(** What [read_fixed] makes of a text that [place_point] laid out. *)
Lemma read_fixed_place_point (f : nat) (m : text) (negative : bool) :
  (0 < f)%nat ->
  Forall (fun c => is_digit c = true) m ->
  read_fixed f ((if negative then ["-"%char] else []) ++ place_point f m)
  = Some (let v := (inject_Z (Z.of_N (N_of_digits m)) / inject_Z (10 ^ Z.of_nat f))%Q in
          if negative then (- v)%Q else v).
Proof.
  intros Hf Hm.
  destruct (pad_zeros_spec f m Hm) as (Hd & Hlen & Hval).
  unfold place_point. destruct f as [|f']; [lia|]. cbv zeta.
  set (f := S f') in *. set (m' := pad_zeros f m) in *.
  set (k := length m') in *.
  assert (Hip : Forall (fun c => is_digit c = true) (firstn (k - f) m')).
  { apply Forall_take. exact Hd. }
  assert (Hfp : Forall (fun c => is_digit c = true) (skipn (k - f) m')).
  { apply Forall_drop. exact Hd. }
  assert (Hne : firstn (k - f) m' <> []).
  { intros E. apply (f_equal (@length ascii)) in E.
    rewrite length_firstn in E. cbn [length] in E. unfold k in *. lia. }
  assert (Hspan : span_digits (firstn (k - f) m' ++ "."%char :: skipn (k - f) m')
                  = (firstn (k - f) m', "."%char :: skipn (k - f) m')).
  { apply span_digits_app; [exact Hip|reflexivity]. }
  assert (Hhead : match firstn (k - f) m' ++ "."%char :: skipn (k - f) m' with
                  | c :: _ => Ascii.eqb c "-" = false
                  | [] => True
                  end).
  { destruct (firstn (k - f) m') as [|c t] eqn:E; [contradiction|].
    cbn [app]. inversion Hip as [|? ? Hc _]; subst.
    apply digit_not_minus in Hc. exact Hc. }
  unfold read_fixed.
  assert (Hsign :
    match (if negative then ["-"%char] else []) ++
          firstn (k - f) m' ++ "."%char :: skipn (k - f) m' with
    | c :: r => if Ascii.eqb c "-" then (true, r)
                else (false, (if negative then ["-"%char] else []) ++
                             firstn (k - f) m' ++ "."%char :: skipn (k - f) m')
    | [] => (false, [])
    end = (negative, firstn (k - f) m' ++ "."%char :: skipn (k - f) m')).
  { destruct negative; [reflexivity|]. cbn [app].
    destruct (firstn (k - f) m' ++ "."%char :: skipn (k - f) m') as [|c r];
      [reflexivity|]. rewrite Hhead. reflexivity. }
  rewrite Hsign, Hspan.
  destruct (firstn (k - f) m') as [|c0 ip0] eqn:Eip; [contradiction|].
  rewrite <- Eip.
  replace (Ascii.eqb "." ".") with true by reflexivity.
  rewrite (forallb_digits _ Hfp).
  assert (Hl : length (skipn (k - f) m') = f).
  { rewrite length_skipn. unfold k in *. lia. }
  rewrite Hl, Nat.eqb_refl. cbn [andb].
  rewrite firstn_skipn, Hval. reflexivity.
Qed.

(** The scaled integer is within half a unit of the last digit. *)
Lemma scaled_nearest (f : nat) (p : positive) (q : Q) :
  (10 ^ Z.of_nat f)%Z = Z.pos p ->
  (Qabs (q - (let v := (inject_Z (Z.of_N (scaled f (Qabs q))) / inject_Z (Z.pos p))%Q in
              if is_negative q then (- v)%Q else v)) <= 1 # (2 * p))%Q.
Proof.
  intros Hp. unfold scaled, is_negative. rewrite Hp.
  destruct q as [num den]. cbn [Qabs Qnum Qden].
  assert (Hm : (0 <= (2 * Z.abs num * Z.pos p + Z.pos den) / (2 * Z.pos den))%Z).
  { apply Z.div_pos; lia. }
  rewrite Z2N.id by exact Hm.
  pose proof (Z.mul_div_le (2 * Z.abs num * Z.pos p + Z.pos den) (2 * Z.pos den)
                ltac:(lia)) as Hlo.
  pose proof (Z.mul_succ_div_gt (2 * Z.abs num * Z.pos p + Z.pos den) (2 * Z.pos den)
                ltac:(lia)) as Hhi.
  set (m := ((2 * Z.abs num * Z.pos p + Z.pos den) / (2 * Z.pos den))%Z) in *.
  cbv zeta.
  destruct (Qle_bool 0 (num # den)) eqn:Hs; cbn [negb].
  - apply Qle_bool_iff in Hs. unfold Qle in Hs. cbn in Hs.
    apply Qabs_Qle_condition.
    unfold Qle, Qminus, Qplus, Qopp, Qdiv, Qmult, Qinv, inject_Z. cbn.
    split; nia.
  - apply not_true_iff_false in Hs. rewrite Qle_bool_iff in Hs.
    apply Qnot_le_lt in Hs. unfold Qlt in Hs. cbn in Hs.
    apply Qabs_Qle_condition.
    unfold Qle, Qminus, Qplus, Qopp, Qdiv, Qmult, Qinv, inject_Z. cbn.
    split; nia.
Qed.

(** X8: for every finite value of magnitude below 10^21,
    [formatPercentage] prints an optional minus sign, at least one
    digit, a point, exactly two digits and the percent sign, and the
    number printed is within 0.005 of the value: the value rounded to two
    decimals, ties away from zero. *)
Theorem formatPercentage_two_decimals (Number_toString : number -> string) (q : Q) :
  (Qabs q < inject_Z (10 ^ 21))%Q ->
  exists v : Q,
    read_percentage (formatPercentage Number_toString (Fin q)) = Some v
    /\ (Qabs (q - v) <= 1 # 200)%Q.
Proof.
  intros Hq.
  assert (Hsmall : Qle_bool (inject_Z (10 ^ 21)) (Qabs q) = false).
  { apply not_true_iff_false. rewrite Qle_bool_iff. apply Qlt_not_le. exact Hq. }
  eexists. split; [|apply (scaled_nearest 2 100 q); reflexivity].
  unfold read_percentage, formatPercentage, toFixed. rewrite Hsmall.
  rewrite !list_ascii_of_string_app, list_ascii_of_string_of_list_ascii.
  change (list_ascii_of_string "%") with ["%"%char].
  rewrite strip_suffix_app.
  replace (list_ascii_of_string (if is_negative q then "-" else EmptyString))
    with (if is_negative q then ["-"%char] else []) by (destruct (is_negative q); reflexivity).
  rewrite read_fixed_place_point; [|lia|apply digits_of_N_all_digits].
  rewrite N_of_digits_of_N. reflexivity.
Qed.

(** -0.125 is printed as -0.13%. *)
Lemma formatPercentage_two_decimals_witness :
  (Qabs (- 0.125) < inject_Z (10 ^ 21))%Q
  /\ exists v : Q,
       read_percentage (formatPercentage (fun _ => EmptyString) (Fin (- 0.125))) = Some v
       /\ (Qabs (- 0.125 - v) <= 1 # 200)%Q.
Proof.
  assert (H : (Qabs (- 0.125) < inject_Z (10 ^ 21))%Q) by reflexivity.
  split; [exact H|].
  exact (formatPercentage_two_decimals (fun _ => EmptyString) (- 0.125) H).
Defined.

(** ** The request and the handler, in every case *)

(** X9: for every link, [analyzeProperty] sends one POST request to the
    base address followed by "/analyze", declared as JSON, whose body
    parses to an object with the single member "link" holding the link
    exactly as given, whatever characters it has; the base address is
    never empty. *)
Theorem analyzeProperty_request (l : string) (w : World) :
  requests (snd (Api.analyzeProperty l w))
  = requests w ++ [Api.analyze_request (Api.API_BASE w) l]
  /\ method (Api.analyze_request (Api.API_BASE w) l) = "POST"%string
  /\ headers (Api.analyze_request (Api.API_BASE w) l)
     = [("Content-Type"%string, "application/json"%string)]
  /\ url (Api.analyze_request (Api.API_BASE w) l)
     = (Api.API_BASE w ++ "/analyze")%string
  /\ nonempty (Api.API_BASE w) = true
  /\ parse (body (Api.analyze_request (Api.API_BASE w) l))
     = Some (Obj [("link"%string, Str l)]).
Proof.
  split; [|split; [reflexivity|split; [reflexivity|split; [reflexivity|split]]]].
  - rewrite analyzeProperty_run. cbv zeta.
    destruct (network w _) as [e|st txt]; [reflexivity|].
    destruct (ok _); [|reflexivity].
    destruct (parse txt); reflexivity.
  - unfold Api.API_BASE. destruct (NEXT_PUBLIC_API_BASE w) as [base|]; [|reflexivity].
    destruct (nonempty base) eqn:E; [exact E|reflexivity].
  - apply parse_stringify. reflexivity.
Qed.

(** X10: [analyzeProperty] returns a value exactly when the response has
    a status from 200 to 299 and a body that is JSON, and the value is
    then the parsed body; in every other case it throws.  Its only effect
    is the one request. *)
Theorem analyzeProperty_outcome (l : string) (w : World) :
  (forall v,
      fst (Api.analyzeProperty l w) = Return v
      <-> exists st txt,
            network w (Api.analyze_request (Api.API_BASE w) l) = Responded st txt
            /\ ok {| status := st; response_text := txt |} = true
            /\ parse txt = Some v)
  /\ snd (Api.analyzeProperty l w)
     = set_requests (requests w ++ [Api.analyze_request (Api.API_BASE w) l]) w.
Proof.
  rewrite analyzeProperty_run. cbv zeta. split.
  - intros v. split.
    + destruct (network w _) as [e|st txt]; [discriminate|].
      destruct (ok _) eqn:Hok; [|discriminate].
      destruct (parse txt) as [v'|] eqn:Hp; [|discriminate].
      cbn [fst]. intros [= ->]. exists st, txt. repeat split; assumption.
    + intros (st & txt & -> & -> & ->). reflexivity.
  - destruct (network w _) as [e|st txt]; [reflexivity|].
    destruct (ok _); [|reflexivity].
    destruct (parse txt); reflexivity.
Qed.

Lemma handleSubmit_blank (w : World) :
  nonempty (trim (link w)) = false ->
  Home.handleSubmit w
  = (Return tt, set_alerts (alerts w ++ ["Please enter a property link"%string]) w).
Proof.
  intros Hb. unfold Home.handleSubmit, bind, read. cbv beta iota.
  rewrite Hb. reflexivity.
Qed.

Lemma handleSubmit_run (w : World) :
  nonempty (trim (link w)) = true ->
  Home.handleSubmit w =
  match Api.analyzeProperty (link w) (set_loading true w) with
  | (Return data, w1) =>
      (Return tt,
       set_route "/report"
         (set_sessionStorage
            (<["analysisData"%string := Json.stringify data]> (sessionStorage w1)) w1))
  | (Throw e, w1) =>
      (Return tt,
       set_loading false
         (set_alerts
            (alerts w1 ++ [("Failed to analyze property: " ++ Home.errorMessage e)%string])
            w1))
  end.
Proof.
  intros Hne.
  unfold Home.handleSubmit, bind at 1, read at 1.
  cbv beta iota. rewrite Hne. cbv beta iota delta [negb].
  unfold bind at 1, setLoading at 1, update at 1. cbv beta iota.
  unfold try_catch, bind at 1.
  destruct (Api.analyzeProperty (link w) (set_loading true w)) as [[data|e] w1];
    reflexivity.
Qed.

(** The handler in each of its cases. *)
Ltac submit_run_at w :=
  unfold Home.submit;
  rewrite (handleSubmit_run w) by assumption;
  rewrite analyzeProperty_run; cbv zeta;
  change (Api.API_BASE (set_loading true w)) with (Api.API_BASE w);
  change (link (set_loading true w)) with (link w);
  change (network (set_loading true w)) with (network w).

Ltac submit_cases w :=
  destruct (nonempty (trim (link w))) eqn:?Hne;
  [ submit_run_at w;
    destruct (network w (Api.analyze_request (Api.API_BASE w) (link w)))
      as [?e|?st ?txt] eqn:?Hnet;
    [ | lazymatch goal with
        | |- context [ok ?r] =>
            destruct (ok r) eqn:?Hok;
            [ lazymatch goal with
              | |- context [Json.parse ?t] =>
                  destruct (Json.parse t) as [?data|] eqn:?Hparse
              end | ]
        end ]
  | unfold Home.submit; rewrite (handleSubmit_blank w) by assumption ].

(** X11: the handler never throws, whatever the network does, and it
    ends in one of two ways, never both: it goes to the report page with
    a snapshot stored, the loading flag up and no message shown; or it
    shows exactly one message, and leaves the route and the session store
    as they were. *)
Theorem handleSubmit_navigates_or_alerts (w : World) :
  fst (Home.handleSubmit w) = Return tt
  /\ ((alerts (Home.submit w) = alerts w
       /\ route (Home.submit w) = "/report"%string
       /\ loading (Home.submit w) = true
       /\ exists data,
            sessionStorage (Home.submit w)
            = <["analysisData"%string := stringify data]> (sessionStorage w))
      \/ (exists message, alerts (Home.submit w) = alerts w ++ [message])
         /\ route (Home.submit w) = route w
         /\ sessionStorage (Home.submit w) = sessionStorage w).
Proof.
  submit_cases w; (split; [reflexivity|]).
  - right. repeat split; eauto.
  - left. repeat split; eauto.
  - right. repeat split; eauto.
  - right. repeat split; eauto.
  - right. repeat split; eauto.
Qed.

(** X12: whatever happens, the handler leaves the text of the field as
    it was, sends at most one request -- none at all exactly when the
    field is blank -- and touches no key of the session store other than
    "analysisData". *)
Theorem handleSubmit_frame (w : World) :
  link (Home.submit w) = link w
  /\ (if nonempty (trim (link w))
      then requests (Home.submit w)
           = requests w ++ [Api.analyze_request (Api.API_BASE w) (link w)]
      else requests (Home.submit w) = requests w)
  /\ (forall key, key <> "analysisData"%string ->
        sessionStorage (Home.submit w) !! key = sessionStorage w !! key).
Proof.
  submit_cases w; cbn [snd]; (split; [reflexivity|]); (split; [reflexivity|]);
    intros key Hkey; try reflexivity.
  cbn [sessionStorage set_route set_sessionStorage].
  apply lookup_insert_ne. congruence.
Qed.

(** X13: after a successful submission the page stays busy: no message
    is shown, the loading flag stays up, so the submit button stays
    disabled while the browser moves to the report page, the field keeps
    its text and exactly one request was sent. *)
Theorem successful_submit_stays_busy
    (w : World) (st : nat) (body : string) (data : value) :
  whitespace_only (link w) = false ->
  network w (Api.analyze_request (Api.API_BASE w) (link w)) = Responded st body ->
  ok {| status := st; response_text := body |} = true ->
  parse body = Some data ->
  alerts (Home.submit w) = alerts w
  /\ loading (Home.submit w) = true
  /\ Home.submit_disabled (Home.submit w) = true
  /\ Home.submit_disabled_plain (Home.submit w) = true
  /\ link (Home.submit w) = link w
  /\ requests (Home.submit w)
     = requests w ++ [Api.analyze_request (Api.API_BASE w) (link w)].
Proof.
  intros Hnb Hn Ho Hp. apply nonblank_trim in Hnb.
  unfold Home.submit_disabled, Home.submit_disabled_plain.
  submit_run_at w. rewrite Hn, Ho, Hp. cbn [snd].
  repeat split; try reflexivity.
  cbn [loading set_route set_sessionStorage set_requests set_loading].
  apply orb_true_r.
Qed.

Lemma successful_submit_stays_busy_witness :
  whitespace_only "https://www.idealista.pt/imovel/1/" = false
  /\ ok {| status := 200; response_text := Samples.compact_body |} = true
  /\ parse Samples.compact_body = Some (Obj [("success"%string, Bool true)])
  /\ loading (Home.submit (Samples.world "https://www.idealista.pt/imovel/1/"
                             (Responded 200 Samples.compact_body))) = true.
Proof.
  assert (Hp : parse Samples.compact_body = Some (Obj [("success"%string, Bool true)]))
    by (vm_compute; reflexivity).
  split; [reflexivity|]. split; [reflexivity|]. split; [exact Hp|].
  exact (proj1 (proj2 (successful_submit_stays_busy
                  (Samples.world "https://www.idealista.pt/imovel/1/"
                     (Responded 200 Samples.compact_body))
                  200 Samples.compact_body (Obj [("success"%string, Bool true)])
                  eq_refl eq_refl eq_refl Hp))).
Defined.

(** X14: a response with a status from 200 to 299 whose body is not JSON
    is a failure like the others: the handler shows one message, built
    from the message the engine gives the syntax error of that body, puts
    the loading flag down, and stores nothing and goes nowhere. *)
Theorem unparsable_response_alerts
    (w : World) (st : nat) (body : string) :
  whitespace_only (link w) = false ->
  network w (Api.analyze_request (Api.API_BASE w) (link w)) = Responded st body ->
  ok {| status := st; response_text := body |} = true ->
  parse body = None ->
  alerts (Home.submit w)
  = alerts w ++ [("Failed to analyze property: " ++ syntax_error_message w body)%string]
  /\ loading (Home.submit w) = false
  /\ sessionStorage (Home.submit w) = sessionStorage w
  /\ route (Home.submit w) = route w
  /\ link (Home.submit w) = link w.
Proof.
  intros Hnb Hn Ho Hp. apply nonblank_trim in Hnb.
  submit_run_at w. rewrite Hn, Ho, Hp.
  repeat split; reflexivity.
Qed.

Lemma unparsable_response_alerts_witness :
  whitespace_only "https://www.idealista.pt/imovel/1/" = false
  /\ ok {| status := 200; response_text := Samples2.html_body |} = true
  /\ parse Samples2.html_body = None
  /\ alerts (Home.submit (Samples.world "https://www.idealista.pt/imovel/1/"
                            (Responded 200 Samples2.html_body)))
     = [("Failed to analyze property: Unexpected token in JSON: "
         ++ Samples2.html_body)%string].
Proof.
  assert (Hp : parse Samples2.html_body = None) by (vm_compute; reflexivity).
  split; [reflexivity|]. split; [reflexivity|]. split; [exact Hp|].
  exact (proj1 (unparsable_response_alerts
                  (Samples.world "https://www.idealista.pt/imovel/1/"
                     (Responded 200 Samples2.html_body))
                  200 Samples2.html_body eq_refl eq_refl eq_refl Hp)).
Defined.

(** ** The report views, again *)

(** X15: when the snapshot is absent, empty or not JSON, the report views
    get no data from it: whatever the payload type would make of a parsed
    value, the two current views show the failure message alone and the
    first view shows its no-data message alone; no render throws. *)
Theorem unusable_snapshot_shows_message (store : gmap string string) :
  unusable (store !! "analysisData"%string) ->
  (forall cast, ReportCards.page cast store = Some [FailureMessage])
  /\ (forall cast, ReportPlain.page cast store = Some [FailureMessage])
  /\ (forall cast, ReportLegacy.page cast store = Some [NoDataMessage]).
Proof.
  unfold unusable. intros H.
  unfold ReportCards.page, ReportPlain.page, ReportLegacy.page, null_snapshot,
    ReportCards.mount, ReportCards.useEffect, ReportPlain.mount,
    ReportPlain.useEffect, ReportLegacy.mount, ReportLegacy.useEffect,
    sessionStorage_getItem.
  cbv zeta.
  destruct (store !! "analysisData"%string) as [text|]; [|repeat split; reflexivity].
  destruct H as [H|H]; rewrite H; [repeat split; reflexivity|].
  rewrite andb_false_r.
  destruct (nonempty text); repeat split; reflexivity.
Qed.

Lemma unusable_snapshot_shows_message_witness :
  unusable (Samples.store_of Samples2.html_body !! "analysisData"%string)
  /\ (forall cast,
        ReportCards.page cast (Samples.store_of Samples2.html_body)
        = Some [FailureMessage]).
Proof.
  assert (H : unusable (Samples.store_of Samples2.html_body !! "analysisData"%string)).
  { unfold Samples.store_of. rewrite lookup_singleton_eq. right. vm_compute. reflexivity. }
  split; [exact H|].
  exact (proj1 (unusable_snapshot_shows_message
                  (Samples.store_of Samples2.html_body) H)).
Defined.

Lemma divisions_section_kinds (d : AnalysisData.t) :
  divisions_section d = []
  \/ exists total cards, divisions_section d = [DivisionsSection total cards].
Proof.
  unfold divisions_section. destruct (AnalysisData.rehab_costs d) as [rc|]; [|left; reflexivity].
  destruct (0 <? length (RehabCosts.divisions rc))%nat; [right; eauto|left; reflexivity].
Qed.

Ltac report_cases d :=
  destruct (AnalysisData.property_info d);
  destruct (AnalysisData.investment d);
  destruct (AnalysisData.rent_estimate d);
  destruct (AnalysisData.financial_metrics d);
  destruct (divisions_section_kinds d) as [->|(? & ? & ->)];
  unfold cost_summary;
  destruct (AnalysisData.rehab_costs d);
  cbn [and_object app map kind is_message].

Ltac distinct_kinds :=
  repeat (constructor; [cbn [In]; intuition discriminate|]); constructor.

(** X16: in every state, each of the two current views shows either one
    message and nothing else, or sections without any message among them,
    each kind of section at most once. *)
Theorem report_is_message_or_sections :
  (forall st : ReportCards.State,
      (exists m, ReportCards.Report st = [m] /\ is_message m = true)
      \/ (Forall (fun b => is_message b = false) (ReportCards.Report st)
          /\ List.NoDup (map kind (ReportCards.Report st))))
  /\ (forall st : ReportPlain.State,
      (exists m, ReportPlain.Report st = [m] /\ is_message m = true)
      \/ (Forall (fun b => is_message b = false) (ReportPlain.Report st)
          /\ List.NoDup (map kind (ReportPlain.Report st)))).
Proof.
  split; intros [d l].
  - unfold ReportCards.Report. cbn [ReportCards.loading ReportCards.data].
    destruct l; [left; eexists; split; reflexivity|].
    destruct (truthy_bool (AnalysisData.success d));
      [|left; eexists; split; reflexivity].
    right. cbn [negb]. cbv zeta.
    report_cases d; (split; [repeat constructor|distinct_kinds]).
  - unfold ReportPlain.Report. cbn [ReportPlain.loading ReportPlain.data].
    destruct l; [left; eexists; split; reflexivity|].
    destruct (truthy_bool (AnalysisData.success d));
      [|left; eexists; split; reflexivity].
    right. cbn [negb]. cbv zeta.
    report_cases d; (split; [repeat constructor|distinct_kinds]).
Qed.

(** X17: before the effect has run the two current views show the
    loading message alone; once it has run they never show it, whatever
    the session store holds and whatever the parsed value is taken for. *)
Theorem mounted_report_never_loading :
  ReportCards.Report ReportCards.initial = [LoadingMessage]
  /\ ReportPlain.Report ReportPlain.initial = [LoadingMessage]
  /\ (forall cast store,
        ~ In LoadingMessage (ReportCards.Report (ReportCards.mount cast store)))
  /\ (forall cast store,
        ~ In LoadingMessage (ReportPlain.Report (ReportPlain.mount cast store))).
Proof.
  split; [reflexivity|]. split; [reflexivity|]. split; intros cast store.
  - unfold ReportCards.Report. rewrite ReportCards_mount_loading.
    set (d := ReportCards.data _). clearbody d.
    destruct (truthy_bool (AnalysisData.success d)); cbn [negb];
      [|cbn [In]; intuition discriminate].
    cbv zeta. report_cases d; cbn [In]; intuition discriminate.
  - unfold ReportPlain.Report. rewrite ReportPlain_mount_loading.
    set (d := ReportPlain.data _). clearbody d.
    destruct (truthy_bool (AnalysisData.success d)); cbn [negb];
      [|cbn [In]; intuition discriminate].
    cbv zeta. report_cases d; cbn [In]; intuition discriminate.
Qed.

(** X18: the two current views differ on a rent estimate that comes
    without financial metrics: the view with the card layout shows the
    rental potential card, the plain view shows no rent at all, since its
    rent row is part of the financial metrics block. *)
Theorem rent_without_metrics (d : AnalysisData.t) (r : RentEstimate.t) :
  AnalysisData.success d = Some true ->
  AnalysisData.rent_estimate d = Some r ->
  AnalysisData.financial_metrics d = None ->
  In (ReportCards.rental_potential_card r)
     (ReportCards.Report {| ReportCards.data := d; ReportCards.loading := false |})
  /\ Forall (fun b => kind b <> KRent /\ kind b <> KMetrics)
       (ReportPlain.Report {| ReportPlain.data := d; ReportPlain.loading := false |}).
Proof.
  intros Hs Hr Hm.
  unfold ReportCards.Report, ReportPlain.Report.
  cbn [ReportCards.loading ReportCards.data ReportPlain.loading ReportPlain.data].
  rewrite Hs, Hr, Hm. cbn [truthy_bool negb]. cbv zeta. split.
  - rewrite !in_app_iff. right. right. right. left. left. reflexivity.
  - destruct (AnalysisData.property_info d);
      destruct (AnalysisData.investment d);
      destruct (divisions_section_kinds d) as [->|(? & ? & ->)];
      unfold cost_summary;
      destruct (AnalysisData.rehab_costs d);
      cbn [and_object app];
      repeat (constructor; [cbn [kind]; split; discriminate|]); constructor.
Qed.

Lemma rent_without_metrics_witness :
  AnalysisData.success Samples2.rent_only = Some true
  /\ AnalysisData.rent_estimate Samples2.rent_only = Some Samples.rent
  /\ AnalysisData.financial_metrics Samples2.rent_only = None
  /\ Forall (fun b => kind b <> KRent /\ kind b <> KMetrics)
       (ReportPlain.Report {| ReportPlain.data := Samples2.rent_only;
                              ReportPlain.loading := false |}).
Proof.
  split; [reflexivity|]. split; [reflexivity|]. split; [reflexivity|].
  exact (proj2 (rent_without_metrics Samples2.rent_only Samples.rent
                  eq_refl eq_refl eq_refl)).
Defined.

(** X19: the divisions section has one card for each division, in the
    order of the payload and keyed by the division's identifier, under
    the formatted property total; without any division the section is
    absent. *)
Theorem division_cards_follow_divisions (d : AnalysisData.t) (rc : RehabCosts.t) :
  AnalysisData.rehab_costs d = Some rc ->
  (RehabCosts.divisions rc = [] -> divisions_section d = [])
  /\ (RehabCosts.divisions rc <> [] ->
      exists cards,
        divisions_section d
        = [DivisionsSection (formatCurrency (RehabCosts.property_total rc)) cards]
        /\ length cards = length (RehabCosts.divisions rc)
        /\ map card_key cards = map Division.division_id (RehabCosts.divisions rc)
        /\ map card_total cards
           = map (fun dv => formatCurrency (Division.total_cost dv))
                 (RehabCosts.divisions rc)).
Proof.
  intros Hrc. unfold divisions_section. rewrite Hrc. split.
  - intros ->. reflexivity.
  - intros Hne. destruct (RehabCosts.divisions rc) as [|dv dvs] eqn:E; [contradiction|].
    cbn [length Nat.ltb Nat.leb]. eexists. split; [reflexivity|].
    rewrite length_map, !map_map. repeat split; reflexivity.
Qed.

Lemma division_cards_follow_divisions_witness :
  AnalysisData.rehab_costs Samples.analysis = Some Samples.rehab
  /\ RehabCosts.divisions Samples.rehab <> []
  /\ exists cards,
       divisions_section Samples.analysis
       = [DivisionsSection (formatCurrency (RehabCosts.property_total Samples.rehab)) cards]
       /\ length cards = length (RehabCosts.divisions Samples.rehab)
       /\ map card_key cards
          = map Division.division_id (RehabCosts.divisions Samples.rehab)
       /\ map card_total cards
          = map (fun dv => formatCurrency (Division.total_cost dv))
                (RehabCosts.divisions Samples.rehab).
Proof.
  assert (H : RehabCosts.divisions Samples.rehab <> []) by discriminate.
  split; [reflexivity|]. split; [exact H|].
  exact (proj2 (division_cards_follow_divisions Samples.analysis Samples.rehab eq_refl) H).
Defined.

(** X20: the cost breakdown of a division lists every cost entry of the
    division, in order, whatever its amount: unlike the cost summary, it
    drops neither a zero nor a negative amount. *)
Theorem division_costs_all_listed (dv : Division.t) (key : string) (cost : number) :
  In (key, cost) (Division.costs dv) ->
  exists rows,
    card_costs (division_card dv) = Some rows
    /\ map cost_key rows = map fst (Division.costs dv)
    /\ In {| cost_key := key;
             cost_name := formatCategoryName key;
             cost_amount := formatCurrency cost |} rows.
Proof.
  intros Hin. unfold division_card. cbn [card_costs].
  destruct (Division.costs dv) as [|e es] eqn:E; [contradiction|].
  cbn [length Nat.ltb Nat.leb]. eexists. split; [reflexivity|].
  split; [rewrite map_map; reflexivity|].
  apply (in_map cost_row) in Hin. exact Hin.
Qed.

Lemma division_costs_all_listed_witness :
  In ("flooring"%string, Fin 800) (Division.costs Samples.kitchen)
  /\ exists rows,
       card_costs (division_card Samples.kitchen) = Some rows
       /\ map cost_key rows = map fst (Division.costs Samples.kitchen)
       /\ In {| cost_key := "flooring";
                cost_name := formatCategoryName "flooring";
                cost_amount := formatCurrency (Fin 800) |} rows.
Proof.
  assert (H : In ("flooring"%string, Fin 800) (Division.costs Samples.kitchen))
    by (left; reflexivity).
  split; [exact H|].
  exact (division_costs_all_listed Samples.kitchen "flooring" (Fin 800) H).
Defined.

(** X21: the condition rows of a division are, in order, the entries
    that hold a rating: an entry whose rating is null gives no row, every
    other entry gives one row with its rating, and a rating of zero is
    among them, shown with the label "N/A".  On every row the colour is
    the one that goes with the label. *)
Theorem condition_rows_for_rated (entries : list (string * option number)) :
  map (fun row => (condition_key row, fixed_value (condition_value row)))
      (shown_rows (map condition_row entries))
  = rated entries
  /\ Forall (fun row => condition_color row = colour_of_label (condition_label row)
                        /\ fixed_digits (condition_value row) = 1%nat)
       (shown_rows (map condition_row entries))
  /\ (forall key q, (q == 0)%Q ->
        option_map condition_label (condition_row (key, Some (Fin q))) = Some "N/A"%string).
Proof.
  unfold shown_rows, rated. split; [|split].
  - induction entries as [|[k [v|]] es IH]; [reflexivity| |exact IH].
    cbn [map omap condition_row snd fst option_map] in *.
    cbn. f_equal. exact IH.
  - induction entries as [|[k [v|]] es IH]; [constructor| |exact IH].
    cbn. constructor; [|exact IH].
    split; [apply getConditionColor_label|reflexivity].
  - intros key q Hq. cbn. unfold getConditionLabel.
    apply truthy_Fin in Hq. rewrite Hq. reflexivity.
Qed.

(** X22: every image of a division is shown, in order; the image at
    position [i], counted from zero, has as alternative text the room
    type as the payload spells it, a space and [i + 1]. *)
Theorem image_alt_numbered (dv : Division.t) (i : nat) (imageUrl : string) :
  Division.images dv !! i = Some imageUrl ->
  exists images,
    card_images (division_card dv) = Some images
    /\ length images = length (Division.images dv)
    /\ images !! i
       = Some {| src := imageUrl;
                 alt := (Division.room_type dv ++ " " ++ nat_to_string (i + 1))%string |}.
Proof.
  intros Hi. unfold division_card. cbn [card_images].
  destruct (Division.images dv) as [|u us] eqn:E; [discriminate Hi|].
  cbn [length Nat.ltb Nat.leb]. eexists. split; [reflexivity|].
  split; [rewrite length_imap; reflexivity|].
  rewrite list_lookup_imap, Hi. reflexivity.
Qed.

Lemma image_alt_numbered_witness :
  Division.images Samples.kitchen !! 0%nat = Some "https://img.example/1.jpg"%string
  /\ exists images,
       card_images (division_card Samples.kitchen) = Some images
       /\ length images = length (Division.images Samples.kitchen)
       /\ images !! 0%nat
          = Some {| src := "https://img.example/1.jpg";
                    alt := (Division.room_type Samples.kitchen ++ " "
                            ++ nat_to_string (0 + 1))%string |}.
Proof.
  split; [reflexivity|].
  exact (image_alt_numbered Samples.kitchen 0 "https://img.example/1.jpg" eq_refl).
Defined.

(** X23: a count of zero is printed bare.  When the number of bedrooms is
    zero (or [NaN]) both current views put the number itself where the
    bedrooms line would be, instead of leaving the place empty as they
    do for an absent count. *)
Theorem zero_bedrooms_leak (d : AnalysisData.t) (pi : PropertyInfo.t) (n : number) :
  PropertyInfo.bedrooms pi = Some n ->
  truthy_number n = false ->
  (exists location size listing,
      ReportCards.property_info_card d pi
      = PropertyInfoCard location size (Leaked n) listing)
  /\ (exists location size bathrooms,
      ReportPlain.property_information pi
      = PropertyInformation location size (Leaked n) bathrooms).
Proof.
  intros Hb Hn.
  unfold ReportCards.property_info_card, ReportPlain.property_information.
  rewrite Hb. unfold and_number at 2 4. rewrite Hn. split; eauto.
Qed.

Lemma zero_bedrooms_leak_witness :
  PropertyInfo.bedrooms Samples2.studio = Some (Fin 0)
  /\ truthy_number (Fin 0) = false
  /\ exists location size bathrooms,
       ReportPlain.property_information Samples2.studio
       = PropertyInformation location size (Leaked (Fin 0)) bathrooms.
Proof.
  split; [reflexivity|]. split; [reflexivity|].
  exact (proj2 (zero_bedrooms_leak Samples.analysis Samples2.studio (Fin 0)
                  eq_refl eq_refl)).
Defined.

(** ** Class names *)

Import Components.

Lemma append_assoc (a b c : string) : ((a ++ b) ++ c = a ++ (b ++ c))%string.
Proof.
  induction a as [|x a IH]; [reflexivity|].
  rewrite !append_cons, IH. reflexivity.
Qed.

Lemma join_app (sep : string) (l1 l2 : list string) :
  l1 <> [] -> l2 <> [] ->
  join sep (l1 ++ l2) = (join sep l1 ++ sep ++ join sep l2)%string.
Proof.
  intros H1 H2. induction l1 as [|w l1 IH]; [contradiction|].
  destruct l1 as [|w' l1].
  - destruct l2 as [|y l2]; [contradiction|]. reflexivity.
  - change (join sep ((w :: w' :: l1) ++ l2))
      with (w ++ sep ++ join sep ((w' :: l1) ++ l2))%string.
    rewrite IH by discriminate.
    change (join sep (w :: w' :: l1)) with (w ++ sep ++ join sep (w' :: l1))%string.
    rewrite !append_assoc. reflexivity.
Qed.

Lemma truthy_text_nonempty (a : ClassArg) :
  Boolean a = true -> nonempty (element_text a) = true.
Proof. destruct a as [s|[]|]; intros H; try discriminate H; [exact H|reflexivity]. Qed.

Lemma nonempty_append (a b : string) : nonempty a = true -> nonempty (a ++ b) = true.
Proof. destruct a; [discriminate|reflexivity]. Qed.

Lemma cn_nonempty (args : list ClassArg) :
  nonempty (cn args) = match List.filter Boolean args with [] => false | _ :: _ => true end.
Proof.
  unfold cn.
  destruct (List.filter Boolean args) as [|a l] eqn:E; [reflexivity|].
  assert (Ha : Boolean a = true).
  { assert (Hin : In a (List.filter Boolean args)) by (rewrite E; left; reflexivity).
    apply filter_In in Hin. apply Hin. }
  cbn [map]. rewrite join_cons.
  apply nonempty_append, truthy_text_nonempty, Ha.
Qed.

(** X24: [cn] composes: the class string of two argument lists put one
    after the other is the two class strings with one space in between,
    or the one that is not empty when the other is.  So no space comes
    first or last and none is doubled because of an argument. *)
Theorem cn_composes (xs ys : list ClassArg) :
  cn (xs ++ ys)
  = if nonempty (cn xs)
    then if nonempty (cn ys) then (cn xs ++ " " ++ cn ys)%string else cn xs
    else cn ys.
Proof.
  rewrite !cn_nonempty. unfold cn. rewrite List.filter_app, map_app.
  destruct (List.filter Boolean xs) as [|a l]; [reflexivity|].
  destruct (List.filter Boolean ys) as [|b m]; [rewrite app_nil_r; reflexivity|].
  apply join_app; discriminate.
Qed.

(** X25: an argument that is [false], [undefined] or the empty string
    leaves no trace in the class string, wherever it stands. *)
Theorem cn_ignores_falsy (xs ys : list ClassArg) (a : ClassArg) :
  Boolean a = false -> cn (xs ++ a :: ys) = cn (xs ++ ys).
Proof.
  intros Ha. unfold cn. rewrite !List.filter_app. cbn [List.filter].
  rewrite Ha. reflexivity.
Qed.

Lemma cn_ignores_falsy_witness :
  Boolean (Flag false) = false
  /\ cn ([Class "p-4"] ++ Flag false :: [Class "mt-2"]) = "p-4 mt-2"%string.
Proof.
  split; [reflexivity|].
  exact (eq_trans (cn_ignores_falsy [Class "p-4"] [Class "mt-2"] (Flag false) eq_refl)
                  eq_refl).
Defined.

(** X26: the class of [Card], [CardBody], [Input] and [Button] is the
    fixed classes of the component followed, after one space, by the
    class the caller gives; nothing follows them when the caller gives
    none or the empty string.  A primary [Button] that is loading has
    "opacity-80" between the two and shows the spinner; a secondary one
    ignores [loading] altogether. *)
Theorem class_names (className : option string) (loading : option bool) :
  let custom :=
    if nonempty (className_or_default className)
    then (" " ++ className_or_default className)%string else EmptyString in
  Card className = (card_base ++ custom)%string
  /\ CardBody className = ("p-4" ++ custom)%string
  /\ Input className = (join " " input_base ++ custom)%string
  /\ Button className loading (Some secondary)
     = {| button_className := (join " " secondary_base ++ custom)%string;
          button_spinner := false |}
  /\ (forall variant, variant <> Some secondary ->
      Button className loading variant
      = {| button_className :=
             (join " " primary_base
              ++ (if truthy_bool loading then " opacity-80" else EmptyString)
              ++ custom)%string;
           button_spinner := truthy_bool loading |}).
Proof.
  cbv zeta. destruct className as [[|c s]|];
    (split; [reflexivity|]); (split; [reflexivity|]); (split; [reflexivity|]);
    (split; [reflexivity|]);
    intros [[]|] Hv; try contradiction; destruct loading as [[]|]; reflexivity.
Qed.
